(** * Scheduled auto-messages: store, planner, scanner, queue and consumer

    A shallow embedding of the auto-message pipeline of the messaging
    backend:

    - [models/AutoMessage.js], [models/Message.js], [models/Conversation.js]:
      the three Mongoose models, each in a module of its own;
    - [config/rabbitmq.js]: [publishToQueue] and the wrapper that
      [consumeFromQueue] installs around a handler;
    - [socket/socketHandler.js]: [emitToUser];
    - [services/cronService.js]: [shuffleArray], [getRandomMessage],
      [getRandomSendDate], [createAutoMessages], [queueReadyMessages],
      [cleanupOldMessages];
    - [services/messageConsumer.js]: [processAutoMessage].

    Conventions.  An ObjectId is a natural number, a Date the number of
    milliseconds since the epoch, a JS Number an integer of [Z].  A string
    whose length the code measures is a list of UTF-16 code units.  A
    collection is the list of its documents in natural (insertion) order.
    Asynchronous code runs in a state-and-exception monad over the [World];
    an [await] that reaches the database or the broker takes the outcome of
    the infrastructure as an argument ([None]: it answers, [Some m]: it
    throws an error of message [m]). *)

From stdpp Require Import base decidable option numbers list strings gmap.
From Stdlib Require Import ZArith Lia.

Local Open Scope Z_scope.

(** ** JavaScript values *)

Definition ObjectId := N.
Bind Scope N_scope with ObjectId.
Definition Date := Z.

(** UTF-16 code units. *)
Definition JSString := list N.

Definition js (s : string) : JSString :=
  map Ascii.N_of_ascii (String.list_ascii_of_string s).

(** [WhiteSpace] and [LineTerminator] code units, the ones
    [String.prototype.trim] removes. *)
Definition isWhiteSpace (c : N) : bool :=
  match c with
  | 0x09%N | 0x0A%N | 0x0B%N | 0x0C%N | 0x0D%N | 0x20%N | 0xA0%N
  | 0x1680%N | 0x2028%N | 0x2029%N | 0x202F%N | 0x205F%N | 0x3000%N
  | 0xFEFF%N => true
  | _ => (0x2000 <=? c)%N && (c <=? 0x200A)%N
  end.

Fixpoint trimStart (s : JSString) : JSString :=
  match s with
  | c :: s' => if isWhiteSpace c then trimStart s' else s
  | [] => []
  end.

Definition trim (s : JSString) : JSString :=
  rev (trimStart (rev (trimStart s))).

(** Truthiness of a string-or-null value: [null] and the empty string are
    falsy. *)
Definition truthy (s : option string) : bool :=
  match s with
  | Some e => negb (String.eqb e "")
  | None => false
  end.

(** A field [f] of a loaded document is written by [save] only when the
    method changed it; otherwise the stored value stays. *)
Definition modifiedPath {A} `{EqDecision A} (loaded this stored : A) : A :=
  if decide (loaded = this) then stored else this.

(** ** models/User.js *)

Module User.
(** Modelled from the spec: [models/User.js] is not among the sources.  Of
    a user the pipeline reads the identity, the display name, the email and
    the flag of the active-user lookup. *)
Record t := mk {
  _id : ObjectId;
  username : string;
  email : string;
  isActive : bool
}.

#[global] Instance eq_dec : EqDecision t.
Proof. solve_decision. Defined.

(** [User.find({ isActive: true })] *)
Definition findActive (coll : list t) : list t :=
  List.filter isActive coll.

Definition findById (id : ObjectId) (coll : list t) : option t :=
  List.find (fun u => N.eqb (_id u) id) coll.
End User.

(** ** models/AutoMessage.js *)

Module AutoMessage.
Record t := mk {
  _id : ObjectId;
  sender : ObjectId;
  receiver : ObjectId;
  content : JSString;
  sendDate : Date;
  isQueued : bool;
  queuedAt : option Date;
  isSent : bool;
  sentAt : option Date;
  messageId : option ObjectId;
  error : option string;
  retryCount : Z;
  createdAt : Date;
  updatedAt : Date
}.

#[global] Instance eq_dec : EqDecision t.
Proof. solve_decision. Defined.

(** The body of [markAsQueued], before [this.save()]. *)
Definition markAsQueued (now : Date) (this : t) : t :=
  mk (_id this) (sender this) (receiver this) (content this) (sendDate this)
     true (Some now)
     (isSent this) (sentAt this) (messageId this) (error this)
     (retryCount this) (createdAt this) (updatedAt this).

(** The body of [markAsSent]. *)
Definition markAsSent (now : Date) (mid : ObjectId) (this : t) : t :=
  mk (_id this) (sender this) (receiver this) (content this) (sendDate this)
     (isQueued this) (queuedAt this)
     true (Some now) (Some mid)
     (error this) (retryCount this) (createdAt this) (updatedAt this).

(** The body of [incrementRetry(error = null)]. *)
Definition incrementRetry (err : option string) (this : t) : t :=
  mk (_id this) (sender this) (receiver this) (content this) (sendDate this)
     (isQueued this) (queuedAt this) (isSent this) (sentAt this)
     (messageId this)
     (if truthy err then err else error this)
     (retryCount this + 1) (createdAt this) (updatedAt this).

(** The filter of [getMessagesForQueuing]. *)
Definition readyForQueuing (now : Date) (d : t) : bool :=
  (sendDate d <=? now) && negb (isQueued d) && negb (isSent d)
  && (retryCount d <? 3).

Definition find (p : t -> bool) (coll : list t) : list t :=
  List.filter p coll.

Definition findById (id : ObjectId) (coll : list t) : option t :=
  List.find (fun d => N.eqb (_id d) id) coll.

(** [deleteMany(filter)]: the documents that do not match stay. *)
Definition deleteMany (p : t -> bool) (coll : list t) : list t :=
  List.filter (fun d => negb (p d)) coll.

(** What [save] stores for a loaded document: the paths the method
    modified, and [updatedAt] (the schema has [timestamps: true]). *)
Definition patch (now : Date) (loaded this stored : t) : t :=
  if decide (loaded = this) then stored else
  mk (_id stored)
     (modifiedPath (sender loaded) (sender this) (sender stored))
     (modifiedPath (receiver loaded) (receiver this) (receiver stored))
     (modifiedPath (content loaded) (content this) (content stored))
     (modifiedPath (sendDate loaded) (sendDate this) (sendDate stored))
     (modifiedPath (isQueued loaded) (isQueued this) (isQueued stored))
     (modifiedPath (queuedAt loaded) (queuedAt this) (queuedAt stored))
     (modifiedPath (isSent loaded) (isSent this) (isSent stored))
     (modifiedPath (sentAt loaded) (sentAt this) (sentAt stored))
     (modifiedPath (messageId loaded) (messageId this) (messageId stored))
     (modifiedPath (error loaded) (error this) (error stored))
     (modifiedPath (retryCount loaded) (retryCount this) (retryCount stored))
     (createdAt stored)
     now.

(** [updateOne({ _id }, { $set: ... })] on the collection; [None] when no
    document has the id. *)
Fixpoint update (id : ObjectId) (f : t -> t) (coll : list t)
  : option (list t) :=
  match coll with
  | [] => None
  | d :: coll' =>
      if N.eqb (_id d) id then Some (f d :: coll')
      else option_map (cons d) (update id f coll')
  end.

(** A document [insertMany] builds from [{ sender, receiver, content,
    sendDate }]: the [trim] setter, the schema defaults, the timestamps. *)
Definition fresh (id : ObjectId) (now : Date) (sender receiver : ObjectId)
    (content : JSString) (sendDate : Date) : t :=
  mk id sender receiver (trim content) sendDate
     false None false None None None 0 now now.

(** The validators of [content]: [required] and [maxlength: 1000]. *)
Definition validate (d : t) : option string :=
  if (length (content d) =? 0)%nat then
    Some "AutoMessage validation failed: content: Message content is required"
  else if (1000 <? length (content d))%nat then
    Some "AutoMessage validation failed: content: Message cannot exceed 1000 characters"
  else None.
End AutoMessage.

(** ** models/Conversation.js *)

Module Conversation.
Record t := mk {
  _id : ObjectId;
  participants : list ObjectId;
  lastMessage : option ObjectId;
  lastActivity : Date;
  isActive : bool;
  createdAt : Date;
  updatedAt : Date
}.

#[global] Instance eq_dec : EqDecision t.
Proof. solve_decision. Defined.

Definition includes (u : ObjectId) (l : list ObjectId) : bool :=
  existsb (N.eqb u) l.

(** The filter [{ participants: { $all: [userId1, userId2] },
    isActive: true }]. *)
Definition between (userId1 userId2 : ObjectId) (c : t) : bool :=
  includes userId1 (participants c) && includes userId2 (participants c)
  && isActive c.

Definition findOne (p : t -> bool) (coll : list t) : option t :=
  List.find p coll.

Definition findById (id : ObjectId) (coll : list t) : option t :=
  List.find (fun c => N.eqb (_id c) id) coll.

(** The document [create({ participants: [userId1, userId2] })] inserts:
    the schema defaults and the timestamps. *)
Definition fresh (id : ObjectId) (now : Date) (userId1 userId2 : ObjectId)
  : t :=
  mk id [userId1; userId2] None now true now now.

(** The body of [updateLastActivity(messageId = null)]; an ObjectId is
    truthy. *)
Definition updateLastActivity (now : Date) (mid : option ObjectId)
    (this : t) : t :=
  mk (_id this) (participants this)
     (match mid with Some m => Some m | None => lastMessage this end)
     now (isActive this) (createdAt this) (updatedAt this).

Definition patch (now : Date) (loaded this stored : t) : t :=
  if decide (loaded = this) then stored else
  mk (_id stored)
     (modifiedPath (participants loaded) (participants this)
        (participants stored))
     (modifiedPath (lastMessage loaded) (lastMessage this)
        (lastMessage stored))
     (modifiedPath (lastActivity loaded) (lastActivity this)
        (lastActivity stored))
     (modifiedPath (isActive loaded) (isActive this) (isActive stored))
     (createdAt stored)
     now.

Fixpoint update (id : ObjectId) (f : t -> t) (coll : list t)
  : option (list t) :=
  match coll with
  | [] => None
  | c :: coll' =>
      if N.eqb (_id c) id then Some (f c :: coll')
      else option_map (cons c) (update id f coll')
  end.
End Conversation.

(** ** models/Message.js *)

Module Message.
Inductive MessageType := text | auto.

#[global] Instance MessageType_eq_dec : EqDecision MessageType.
Proof. solve_decision. Defined.

Record t := mk {
  _id : ObjectId;
  sender : ObjectId;
  receiver : ObjectId;
  conversation : ObjectId;
  content : JSString;
  messageType : MessageType;
  isRead : bool;
  readAt : option Date;
  isDeleted : bool;
  deletedAt : option Date;
  createdAt : Date;
  updatedAt : Date
}.

#[global] Instance eq_dec : EqDecision t.
Proof. solve_decision. Defined.

(** [new Message({ sender, receiver, conversation, content,
    messageType })]: the [trim] setter of [content] runs at assignment,
    the other paths take their defaults.  The timestamps are set by
    [save]. *)
Definition new (id : ObjectId) (sender receiver conversation : ObjectId)
    (content : JSString) (messageType : MessageType) : t :=
  mk id sender receiver conversation (trim content) messageType
     false None false None 0 0.

(** The validators of [content]: [required] and [maxlength: 1000]. *)
Definition validate (m : t) : option string :=
  if (length (content m) =? 0)%nat then
    Some "Message validation failed: content: Message content is required"
  else if (1000 <? length (content m))%nat then
    Some "Message validation failed: content: Message cannot exceed 1000 characters"
  else None.

Definition stamped (now : Date) (m : t) : t :=
  mk (_id m) (sender m) (receiver m) (conversation m) (content m)
     (messageType m) (isRead m) (readAt m) (isDeleted m) (deletedAt m)
     now now.
End Message.

(** ** The world: collections, broker queue, socket server, clock, RNG *)

(** The queue payload that [queueReadyMessages] publishes and
    [processAutoMessage] destructures. *)
Record Payload := mkPayload {
  autoMessageId : ObjectId;
  senderId : ObjectId;
  receiverId : ObjectId;
  content : JSString;
  senderUsername : string;
  receiverUsername : string
}.

#[global] Instance Payload_eq_dec : EqDecision Payload.
Proof. solve_decision. Defined.

(** An event emitted to the room [user_<userId>]; of the message and the
    conversation it carries, their ids. *)
Record Emitted := mkEmitted {
  room : ObjectId;
  event : string;
  message : ObjectId;
  conversation : ObjectId;
  isAutoMessage : bool
}.

Record World := mkWorld {
  users : list User.t;
  conversations : list Conversation.t;
  messages : list Message.t;
  automessages : list AutoMessage.t;
  (** [message_sending_queue]; the head is delivered next *)
  queue : list Payload;
  (** [io] of socketHandler.js is set *)
  io : bool;
  emitted : list Emitted;
  (** the next ObjectId the driver generates *)
  nextId : ObjectId;
  (** what [new Date()] reads *)
  clock : Date;
  (** the coming results of [Math.random()]: the [n]-th one is
      [random n / 2^53] *)
  random : nat -> Z
}.

Definition set_conversations (v : list Conversation.t) (w : World) : World :=
  mkWorld (users w) v (messages w) (automessages w) (queue w) (io w)
          (emitted w) (nextId w) (clock w) (random w).

Definition set_messages (v : list Message.t) (w : World) : World :=
  mkWorld (users w) (conversations w) v (automessages w) (queue w) (io w)
          (emitted w) (nextId w) (clock w) (random w).

Definition set_automessages (v : list AutoMessage.t) (w : World) : World :=
  mkWorld (users w) (conversations w) (messages w) v (queue w) (io w)
          (emitted w) (nextId w) (clock w) (random w).

Definition set_queue (v : list Payload) (w : World) : World :=
  mkWorld (users w) (conversations w) (messages w) (automessages w) v (io w)
          (emitted w) (nextId w) (clock w) (random w).

Definition set_emitted (v : list Emitted) (w : World) : World :=
  mkWorld (users w) (conversations w) (messages w) (automessages w) (queue w)
          (io w) v (nextId w) (clock w) (random w).

Definition set_nextId (v : ObjectId) (w : World) : World :=
  mkWorld (users w) (conversations w) (messages w) (automessages w) (queue w)
          (io w) (emitted w) v (clock w) (random w).

Definition set_random (v : nat -> Z) (w : World) : World :=
  mkWorld (users w) (conversations w) (messages w) (automessages w) (queue w)
          (io w) (emitted w) (nextId w) (clock w) v.

(** Time passes: the clock moves on by [ms] milliseconds. *)
Definition advance (ms : Z) (w : World) : World :=
  mkWorld (users w) (conversations w) (messages w) (automessages w) (queue w)
          (io w) (emitted w) (nextId w) (clock w + ms) (random w).

(** ** Asynchronous computations: state and exceptions *)

Inductive Completion (A : Type) : Type :=
| Return (a : A)
| Throw (message : string).
Arguments Return {A} a.
Arguments Throw {A} message.

Definition Async (A : Type) : Type := World -> Completion A * World.

Definition ret {A} (a : A) : Async A := fun w => (Return a, w).

Definition throw {A} (m : string) : Async A := fun w => (Throw m, w).

Definition bind {A B} (m : Async A) (k : A -> Async B) : Async B :=
  fun w =>
    match m w with
    | (Return a, w') => k a w'
    | (Throw e, w') => (Throw e, w')
    end.

(** [try { m } catch (error) { h error.message }] *)
Definition tryCatch {A} (m : Async A) (h : string -> Async A) : Async A :=
  fun w =>
    match m w with
    | (Return a, w') => (Return a, w')
    | (Throw e, w') => h e w'
    end.

(** The outcome of [m] as a value: what a [try] block hands to the code
    after it or to its [catch] block. *)
Definition attempt {A} (m : Async A) : Async (A + string) :=
  fun w =>
    match m w with
    | (Return a, w') => (Return (inl a), w')
    | (Throw e, w') => (Return (inr e), w')
    end.

Declare Scope async_scope.
Delimit Scope async_scope with async.
Notation "x <- m ;; k" := (bind m (fun x => k))
  (at level 100, m at next level, right associativity) : async_scope.
Notation "m ;; k" := (bind m (fun _ => k))
  (at level 100, right associativity) : async_scope.
Local Open Scope async_scope.

Definition get : Async World := fun w => (Return w, w).

Definition modify (f : World -> World) : Async unit :=
  fun w => (Return tt, f w).

(** An awaited call to the database or the broker: it throws when the
    infrastructure fails, before anything is written. *)
Definition await (outcome : option string) : Async unit :=
  match outcome with
  | Some m => throw m
  | None => ret tt
  end.

Definition new_Date : Async Date := fun w => (Return (clock w), w).

(** [new Date()], read [elapsed] milliseconds into a run: [clock] is the
    time at which the run began. *)
Definition new_Date_after (elapsed : Z) : Async Date :=
  fun w => (Return (clock w + elapsed), w).

Definition new_ObjectId : Async ObjectId :=
  fun w => (Return (nextId w), set_nextId (nextId w + 1)%N w).

(** [Math.floor(Math.random() * n)], the product taken exactly.  For the
    factors of this code (at most 60, or the number of users) the double
    product of a double below 1 stays below [n], so the floor is an index
    of [0, n) as it is here. *)
Definition Math_floor_random (n : Z) : Async Z :=
  fun w => (Return (random w O * n / 2 ^ 53),
            set_random (fun i => random w (S i)) w).

(** ** Document.save and the statics, on the world *)

(** [this.save()] of a loaded AutoMessage: no write when no path is
    modified; a [DocumentNotFoundError] when the document is gone. *)
Definition saveAutoMessage (outcome : option string)
    (loaded this : AutoMessage.t) : Async unit :=
  if decide (loaded = this) then ret tt else
  await outcome ;;
  now <- new_Date ;;
  w <- get ;;
  match AutoMessage.update (AutoMessage._id loaded)
          (AutoMessage.patch now loaded this) (automessages w) with
  | Some coll => modify (set_automessages coll)
  | None => throw "No document found for query"
  end.

Definition saveConversation (outcome : option string)
    (loaded this : Conversation.t) : Async unit :=
  if decide (loaded = this) then ret tt else
  await outcome ;;
  now <- new_Date ;;
  w <- get ;;
  match Conversation.update (Conversation._id loaded)
          (Conversation.patch now loaded this) (conversations w) with
  | Some coll => modify (set_conversations coll)
  | None => throw "No document found for query"
  end.

(** [message.save()] of a new Message: validation, then the insert. *)
Definition saveMessage (outcome : option string) (m : Message.t)
  : Async Message.t :=
  match Message.validate m with
  | Some e => throw e
  | None =>
      await outcome ;;
      now <- new_Date ;;
      let m' := Message.stamped now m in
      modify (fun w => set_messages (messages w ++ [m']) w) ;;
      ret m'
  end.

Definition findAutoMessageById (outcome : option string) (id : ObjectId)
  : Async (option AutoMessage.t) :=
  await outcome ;;
  w <- get ;;
  ret (AutoMessage.findById id (automessages w)).

(** *** Conversation.findOrCreateConversation, in its two phases *)

(** [await this.findOne({ participants: { $all: [userId1, userId2] },
    isActive: true })] *)
Definition lookupConversation (outcome : option string)
    (userId1 userId2 : ObjectId) : Async (option Conversation.t) :=
  await outcome ;;
  w <- get ;;
  ret (Conversation.findOne (Conversation.between userId1 userId2)
         (conversations w)).

(** [await this.create({ participants: [userId1, userId2] })], then
    [await this.findById(conversation._id)] *)
Definition createConversation (o_create o_findById : option string)
    (userId1 userId2 : ObjectId) : Async (option Conversation.t) :=
  id <- new_ObjectId ;;
  now <- new_Date ;;
  await o_create ;;
  modify (fun w =>
    set_conversations
      (conversations w ++ [Conversation.fresh id now userId1 userId2]) w) ;;
  await o_findById ;;
  w <- get ;;
  ret (Conversation.findById id (conversations w)).

Definition findOrCreateConversation
    (o_findOne o_create o_findById : option string)
    (userId1 userId2 : ObjectId) : Async (option Conversation.t) :=
  tryCatch
    (conversation <- lookupConversation o_findOne userId1 userId2 ;;
     match conversation with
     | Some c => ret (Some c)
     | None => createConversation o_create o_findById userId1 userId2
     end)
    (fun error => throw error).

(** ** socket/socketHandler.js *)

Definition emitToUser (userId : ObjectId) (ev : string)
    (mid cid : ObjectId) : Async unit :=
  fun w =>
    if io w then
      (Return tt,
       set_emitted (emitted w ++ [mkEmitted userId ev mid cid true]) w)
    else (Return tt, w).

(** ** config/rabbitmq.js *)

Definition publishToQueue (outcome : option string) (message : Payload)
  : Async unit :=
  tryCatch
    (await outcome ;;
     modify (fun w => set_queue (queue w ++ [message]) w))
    (fun error => throw error).

Inductive Settlement := Ack | NackRequeue.

(** The function [consumeFromQueue] passes to [channel.consume], on one
    delivered message: [channel.ack(msg)] after the callback returned,
    [channel.nack(msg, false, true)] after it threw. *)
Definition onMessage (callback : Payload -> Async unit) (msg : Payload)
  : Async Settlement :=
  tryCatch
    (callback msg ;; ret Ack)
    (fun error => ret NackRequeue).

(** One delivery by the broker: the head of the queue goes to the consumer;
    an acknowledged message is gone, a message rejected with [requeue] is
    back at the head. *)
Definition deliver (callback : Payload -> Async unit)
  : Async (option Settlement) :=
  w <- get ;;
  match queue w with
  | [] => ret None
  | msg :: rest =>
      modify (set_queue rest) ;;
      s <- onMessage callback msg ;;
      match s with
      | Ack => ret (Some Ack)
      | NackRequeue =>
          modify (fun w => set_queue (msg :: queue w) w) ;;
          ret (Some NackRequeue)
      end
  end.

(** ** services/messageConsumer.js *)

(** The awaited calls of [processAutoMessage], in program order. *)
Inductive Await :=
| AwFindOne | AwCreate | AwFindCreated
| AwMessageSave | AwUpdateLastActivity | AwPopulate
| AwFindById | AwMarkAsSent
| AwCatchFindById | AwCatchIncrementRetry.

(** The [try] block of [processAutoMessage]. *)
Definition processAutoMessage_try (infra : Await -> option string)
    (messageData : Payload) : Async unit :=
  conversation <-
    findOrCreateConversation (infra AwFindOne) (infra AwCreate)
      (infra AwFindCreated) (senderId messageData)
      (receiverId messageData) ;;
  match conversation with
  | None => throw "Cannot read properties of null (reading '_id')"
  | Some conversation =>
      id <- new_ObjectId ;;
      message <-
        saveMessage (infra AwMessageSave)
          (Message.new id (senderId messageData) (receiverId messageData)
             (Conversation._id conversation) (content messageData)
             Message.auto) ;;
      now <- new_Date ;;
      saveConversation (infra AwUpdateLastActivity) conversation
        (Conversation.updateLastActivity now (Some (Message._id message))
           conversation) ;;
      await (infra AwPopulate) ;;
      emitToUser (receiverId messageData) "message_received"
        (Message._id message) (Conversation._id conversation) ;;
      autoMessage <-
        findAutoMessageById (infra AwFindById)
          (autoMessageId messageData) ;;
      match autoMessage with
      | Some autoMessage =>
          now <- new_Date ;;
          saveAutoMessage (infra AwMarkAsSent) autoMessage
            (AutoMessage.markAsSent now (Message._id message) autoMessage)
      | None => ret tt
      end
  end.

(** Its [catch (error)] block: the retry count is updated under a [try] of
    its own, then the error is thrown again. *)
Definition processAutoMessage_catch (infra : Await -> option string)
    (messageData : Payload) (error : string) : Async unit :=
  tryCatch
    (autoMessage <-
       findAutoMessageById (infra AwCatchFindById)
         (autoMessageId messageData) ;;
     match autoMessage with
     | Some autoMessage =>
         saveAutoMessage (infra AwCatchIncrementRetry) autoMessage
           (AutoMessage.incrementRetry (Some error) autoMessage)
     | None => ret tt
     end)
    (fun updateError => ret tt) ;;
  throw error.

Definition processAutoMessage (infra : Await -> option string)
    (messageData : Payload) : Async unit :=
  tryCatch (processAutoMessage_try infra messageData)
           (processAutoMessage_catch infra messageData).

(** The consumer that [startMessageConsumer] installs, at one delivery. *)
Definition consumeOne (infra : Await -> option string)
  : Async (option Settlement) :=
  deliver (processAutoMessage infra).

(** ** services/cronService.js *)

Definition AUTO_MESSAGE_TEMPLATES : list JSString :=
  [ js "Hey! How's your day going?";
    js "Hope you're having a great time!";
    js "Just wanted to say hello! " ++ [0xD83D; 0xDC4B]%N;
    js "What's new with you today?";
    js "Sending you positive vibes! " ++ [0x2728]%N;
    js "Hope your week is going well!";
    js "Just checking in on you!";
    js "Have a wonderful day ahead!";
    js "Thinking of you today! " ++ [0xD83D; 0xDCAD]%N;
    js "Hope you're doing amazing!";
    js "Wishing you a fantastic day!";
    js "Just wanted to brighten your day! " ++ [0x2600; 0xFE0F]%N;
    js "Hope everything is going great for you!";
    js "Sending you good energy today!";
    js "Have an awesome day! " ++ [0xD83C; 0xDF1F]%N ].

(** [[a[i], a[j]] = [a[j], a[i]]] for indices of the array. *)
Definition swap {A} (i j : nat) (a : list A) : list A :=
  match a !! i, a !! j with
  | Some x, Some y => <[j:=x]> (<[i:=y]> a)
  | _, _ => a
  end.

(** The loop of [shuffleArray], at [i] with [i > 0] as its test. *)
Fixpoint shuffleLoop {A} (i : nat) (shuffled : list A) : Async (list A) :=
  match i with
  | O => ret shuffled
  | S i' =>
      j <- Math_floor_random (Z.of_nat i + 1) ;;
      shuffleLoop i' (swap i (Z.to_nat j) shuffled)
  end.

Definition shuffleArray {A} (array : list A) : Async (list A) :=
  shuffleLoop (length array - 1) array.

(** An index past the end reads [undefined], which the [required]
    validator of [content] rejects like the empty string. *)
Definition getRandomMessage : Async JSString :=
  randomIndex <-
    Math_floor_random (Z.of_nat (length AUTO_MESSAGE_TEMPLATES)) ;;
  ret (default [] (AUTO_MESSAGE_TEMPLATES !! Z.to_nat randomIndex)).

(** [elapsed] is the time that has passed since the run began when the
    function reads the clock. *)
Definition getRandomSendDate (elapsed : Z) : Async Date :=
  now <- new_Date_after elapsed ;;
  h <- Math_floor_random 24 ;;
  let hoursToAdd := h + 1 in
  minutesToAdd <- Math_floor_random 60 ;;
  ret (now + hoursToAdd * 60 * 60 * 1000 + minutesToAdd * 60 * 1000).

(** The pairing loop of [createAutoMessages]: [i] runs over 0, 2, 4, ...
    while [i < length - 1]; [fuel] bounds the number of iterations. *)
Fixpoint pairLoop {A} (fuel i : nat) (shuffled : list A)
    (pairs : list (A * A)) : list (A * A) :=
  match fuel with
  | O => pairs
  | S fuel' =>
      if (i <? length shuffled - 1)%nat then
        match shuffled !! i, shuffled !! (i + 1)%nat with
        | Some s, Some r =>
            pairLoop fuel' (i + 2) shuffled (pairs ++ [(s, r)])
        | _, _ => pairLoop fuel' (i + 2) shuffled pairs
        end
      else pairs
  end.

(** The pairs of [createAutoMessages], with the wrap-around pair of an odd
    number of users. *)
Definition makePairs {A} (shuffled : list A) : list (A * A) :=
  let pairs := pairLoop (length shuffled) 0 shuffled [] in
  if negb (length shuffled mod 2 =? 0)%nat then
    match last shuffled, head shuffled with
    | Some s, Some r => pairs ++ [(s, r)]
    | _, _ => pairs
    end
  else pairs.

(** What [insertMany] receives for one pair. *)
Record Draft := mkDraft {
  d_sender : ObjectId;
  d_receiver : ObjectId;
  d_content : JSString;
  d_sendDate : Date
}.

(** [array.map(f)], the callback run on the elements in order, from the
    index [i] on. *)
Fixpoint mapAsyncFrom {A B} (i : nat) (f : nat -> A -> Async B)
    (l : list A) : Async (list B) :=
  match l with
  | [] => ret []
  | x :: l' => y <- f i x ;; ys <- mapAsyncFrom (S i) f l' ;; ret (y :: ys)
  end.

Definition mapAsync {A B} (f : nat -> A -> Async B) (l : list A)
  : Async (list B) :=
  mapAsyncFrom 0 f l.

(** The object literal of [pairs.map]; [elapsed] is the time into the run
    at which its [getRandomSendDate] reads the clock. *)
Definition draftOf (elapsed : Z) (pair : User.t * User.t) : Async Draft :=
  c <- getRandomMessage ;;
  d <- getRandomSendDate elapsed ;;
  ret (mkDraft (User._id (fst pair)) (User._id (snd pair)) c d).

(** [AutoMessage.insertMany(autoMessages)]: every document is built and
    validated first; one invalid document rejects the batch.  The
    timestamps of the [i]-th document are read [elapsed i] milliseconds
    into the run. *)
Definition insertMany (outcome : option string) (elapsed : nat -> Z)
    (drafts : list Draft) : Async (list AutoMessage.t) :=
  docs <-
    mapAsync (fun i d =>
      id <- new_ObjectId ;;
      now <- new_Date_after (elapsed i) ;;
      ret (AutoMessage.fresh id now (d_sender d) (d_receiver d)
             (d_content d) (d_sendDate d))) drafts ;;
  match head (omap AutoMessage.validate docs) with
  | Some error => throw error
  | None =>
      await outcome ;;
      modify (fun w => set_automessages (automessages w ++ docs) w) ;;
      ret docs
  end.

Inductive PlannerAwait := PlFindUsers | PlInsertMany | PlStatistics.

(** The readings of the clock in a run of the planner: by
    [getRandomSendDate] for the [i]-th pair, inside [pairs.map], and by
    [insertMany] for the timestamps of the [i]-th document, after the map
    has returned. *)
Inductive PlannerClock := PcSendDate (i : nat) | PcCreatedAt (i : nat).

(** [lapse] gives, for each reading of the clock, the time that has passed
    since the run began. *)
Definition createAutoMessages (infra : PlannerAwait -> option string)
    (lapse : PlannerClock -> Z) : Async unit :=
  tryCatch
    (await (infra PlFindUsers) ;;
     w <- get ;;
     let activeUsers := User.findActive (users w) in
     if (length activeUsers <? 2)%nat then ret tt else
     shuffledUsers <- shuffleArray activeUsers ;;
     let pairs := makePairs shuffledUsers in
     autoMessages <-
       mapAsync (fun i => draftOf (lapse (PcSendDate i))) pairs ;;
     createdMessages <-
       insertMany (infra PlInsertMany) (fun i => lapse (PcCreatedAt i))
         autoMessages ;;
     await (infra PlStatistics))
    (fun error => ret tt).

(** A document of [getMessagesForQueuing]: [populate('sender receiver')]
    puts the user documents, or [null], in place of the two ids. *)
Record Populated := mkPopulated {
  doc : AutoMessage.t;
  p_sender : option User.t;
  p_receiver : option User.t
}.

Definition populate (us : list User.t) (d : AutoMessage.t) : Populated :=
  mkPopulated d (User.findById (AutoMessage.sender d) us)
                (User.findById (AutoMessage.receiver d) us).

Definition getMessagesForQueuing (outcome : option string)
  : Async (list Populated) :=
  tryCatch
    (now <- new_Date ;;
     await outcome ;;
     w <- get ;;
     ret (map (populate (users w))
            (AutoMessage.find (AutoMessage.readyForQueuing now)
               (automessages w))))
    (fun error => throw error).

(** The object literal that [queueReadyMessages] publishes; reading [._id]
    of a [null] sender or receiver is a TypeError. *)
Definition payloadOf (autoMessage : Populated) : Async Payload :=
  match p_sender autoMessage, p_receiver autoMessage with
  | Some s, Some r =>
      ret (mkPayload (AutoMessage._id (doc autoMessage)) (User._id s)
             (User._id r) (AutoMessage.content (doc autoMessage))
             (User.username s) (User.username r))
  | _, _ => throw "Cannot read properties of null (reading '_id')"
  end.

Inductive ScannerAwait :=
| ScFind
| ScPublish (id : ObjectId)
| ScMarkAsQueued (id : ObjectId)
| ScIncrementRetry (id : ObjectId).

(** The body of the [for] loop of [queueReadyMessages] for one document:
    [try { publish; markAsQueued } catch (error) { incrementRetry }].  The
    document in memory keeps what [markAsQueued] assigned when its [save]
    throws, so the [catch] block then increments that document. *)
Definition queueOne (infra : ScannerAwait -> option string)
    (autoMessage : Populated) : Async unit :=
  let loaded := doc autoMessage in
  let id := AutoMessage._id loaded in
  published <-
    attempt (message <- payloadOf autoMessage ;;
             publishToQueue (infra (ScPublish id)) message) ;;
  match published with
  | inr error =>
      saveAutoMessage (infra (ScIncrementRetry id)) loaded
        (AutoMessage.incrementRetry (Some error) loaded)
  | inl _ =>
      now <- new_Date ;;
      let this := AutoMessage.markAsQueued now loaded in
      tryCatch
        (saveAutoMessage (infra (ScMarkAsQueued id)) loaded this)
        (fun error =>
           saveAutoMessage (infra (ScIncrementRetry id)) loaded
             (AutoMessage.incrementRetry (Some error) this))
  end.

Fixpoint forEach {A} (f : A -> Async unit) (l : list A) : Async unit :=
  match l with
  | [] => ret tt
  | x :: l' => f x ;; forEach f l'
  end.

Definition queueReadyMessages (infra : ScannerAwait -> option string)
  : Async unit :=
  tryCatch
    (readyMessages <- getMessagesForQueuing (infra ScFind) ;;
     if (length readyMessages =? 0)%nat then ret tt
     else forEach (queueOne infra) readyMessages)
    (fun error => ret tt).

(** [thirtyDaysAgo.setDate(thirtyDaysAgo.getDate() - 30)] moves the local
    date 30 calendar days back.  A calendar day is 86 400 000 ms, and
    [offsetChange] is the UTC offset of the process's time zone now minus
    its offset at the earlier date: 0 in UTC, an hour across a daylight
    saving change. *)
Definition thirtyDaysBefore (offsetChange : Z) (now : Date) : Date :=
  now - 30 * 86400000 + offsetChange.

(** The filter of the [deleteMany] of [cleanupOldMessages]. *)
Definition oldAndSent (thirtyDaysAgo : Date) (d : AutoMessage.t) : bool :=
  (AutoMessage.createdAt d <? thirtyDaysAgo) && AutoMessage.isSent d.

Definition cleanupOldMessages (outcome : option string) (offsetChange : Z)
  : Async unit :=
  tryCatch
    (now <- new_Date ;;
     let thirtyDaysAgo := thirtyDaysBefore offsetChange now in
     await outcome ;;
     modify (fun w =>
       set_automessages
         (AutoMessage.deleteMany (oldAndSent thirtyDaysAgo) (automessages w))
         w))
    (fun error => ret tt).


(** * The rest of the models, the routes, the middleware and the presence set *)

(** ** models/AutoMessage.js: getStatistics *)

Module Statistics.
Record t := mk {
  total : Z;
  queued : Z;
  sent : Z;
  failed : Z;
  pending : Z
}.

#[global] Instance eq_dec : EqDecision t.
Proof. solve_decision. Defined.
End Statistics.

(** [{ $sum: { $cond: [c, 1, 0] } }] over the documents of a group. *)
Definition sumCond {A} (c : A -> bool) (group : list A) : Z :=
  fold_right (fun d acc => (if c d then 1 else 0) + acc) 0 group.

(** The [$group] stage with [_id: null]: one result for a collection that
    has documents, none for an empty one. *)
Definition aggregateStatistics (coll : list AutoMessage.t)
  : list Statistics.t :=
  match coll with
  | [] => []
  | _ =>
      [Statistics.mk
         (sumCond (fun _ => true) coll)
         (sumCond AutoMessage.isQueued coll)
         (sumCond AutoMessage.isSent coll)
         (sumCond (fun d => 3 <=? AutoMessage.retryCount d) coll)
         (sumCond (fun d => negb (AutoMessage.isQueued d)
                            && negb (AutoMessage.isSent d)
                            && (AutoMessage.retryCount d <? 3)) coll)]
  end.

(** [stats[0] || { total: 0, queued: 0, sent: 0, failed: 0, pending: 0 }] *)
Definition getStatistics (outcome : option string) : Async Statistics.t :=
  tryCatch
    (await outcome ;;
     w <- get ;;
     let stats := aggregateStatistics (automessages w) in
     ret (default (Statistics.mk 0 0 0 0 0) (head stats)))
    (fun error => throw error).

(** ** services/messageConsumer.js: getConsumerStats *)

(** What [getConsumerStats] returns: the statistics spread with a timestamp
    and the status [running], or the error message with the status
    [error]. *)
Record ConsumerStats := mkConsumerStats {
  stats : option Statistics.t;
  statsError : option string;
  timestamp : Date;
  consumerStatus : string
}.

Definition getConsumerStats (outcome : option string) : Async ConsumerStats :=
  tryCatch
    (s <- getStatistics outcome ;;
     now <- new_Date ;;
     ret (mkConsumerStats (Some s) None now "running"))
    (fun error =>
       now <- new_Date ;;
       ret (mkConsumerStats None (Some error) now "error")).

(** ** models/Message.js: the methods and statics *)

(** The body of [markAsRead], before [this.save()]. *)
Definition markAsRead (now : Date) (this : Message.t) : Message.t :=
  Message.mk (Message._id this) (Message.sender this) (Message.receiver this)
    (Message.conversation this) (Message.content this)
    (Message.messageType this)
    true (Some now)
    (Message.isDeleted this) (Message.deletedAt this)
    (Message.createdAt this) (Message.updatedAt this).

(** The body of [softDelete]. *)
Definition softDelete (now : Date) (this : Message.t) : Message.t :=
  Message.mk (Message._id this) (Message.sender this) (Message.receiver this)
    (Message.conversation this) (Message.content this)
    (Message.messageType this)
    (Message.isRead this) (Message.readAt this)
    true (Some now)
    (Message.createdAt this) (Message.updatedAt this).

(** What [save] stores for a loaded Message: the modified paths and
    [updatedAt]. *)
Definition patchMessage (now : Date) (loaded this stored : Message.t)
  : Message.t :=
  if decide (loaded = this) then stored else
  Message.mk (Message._id stored)
    (modifiedPath (Message.sender loaded) (Message.sender this)
       (Message.sender stored))
    (modifiedPath (Message.receiver loaded) (Message.receiver this)
       (Message.receiver stored))
    (modifiedPath (Message.conversation loaded) (Message.conversation this)
       (Message.conversation stored))
    (modifiedPath (Message.content loaded) (Message.content this)
       (Message.content stored))
    (modifiedPath (Message.messageType loaded) (Message.messageType this)
       (Message.messageType stored))
    (modifiedPath (Message.isRead loaded) (Message.isRead this)
       (Message.isRead stored))
    (modifiedPath (Message.readAt loaded) (Message.readAt this)
       (Message.readAt stored))
    (modifiedPath (Message.isDeleted loaded) (Message.isDeleted this)
       (Message.isDeleted stored))
    (modifiedPath (Message.deletedAt loaded) (Message.deletedAt this)
       (Message.deletedAt stored))
    (Message.createdAt stored)
    now.

Fixpoint updateMessage (id : ObjectId) (f : Message.t -> Message.t)
    (coll : list Message.t) : option (list Message.t) :=
  match coll with
  | [] => None
  | m :: coll' =>
      if N.eqb (Message._id m) id then Some (f m :: coll')
      else option_map (cons m) (updateMessage id f coll')
  end.

(** The document in memory after [save]: the timestamps plugin has set
    its [updatedAt]. *)
Definition touched (now : Date) (this : Message.t) : Message.t :=
  Message.mk (Message._id this) (Message.sender this) (Message.receiver this)
    (Message.conversation this) (Message.content this)
    (Message.messageType this) (Message.isRead this) (Message.readAt this)
    (Message.isDeleted this) (Message.deletedAt this)
    (Message.createdAt this) now.

(** [this.save()] of a loaded Message; it resolves to the document in
    memory. *)
Definition saveLoadedMessage (outcome : option string)
    (loaded this : Message.t) : Async Message.t :=
  if decide (loaded = this) then ret this else
  await outcome ;;
  now <- new_Date ;;
  w <- get ;;
  match updateMessage (Message._id loaded) (patchMessage now loaded this)
          (messages w) with
  | Some coll => modify (set_messages coll) ;; ret (touched now this)
  | None => throw "No document found for query"
  end.

(** The filter [{ receiver: userId, isRead: false, isDeleted: false }]. *)
Definition unreadFor (userId : ObjectId) (m : Message.t) : bool :=
  N.eqb (Message.receiver m) userId
  && negb (Message.isRead m) && negb (Message.isDeleted m).

(** The filter [{ conversation: conversationId, receiver: userId,
    isRead: false, isDeleted: false }]. *)
Definition unreadIn (conversationId userId : ObjectId) (m : Message.t)
  : bool :=
  N.eqb (Message.conversation m) conversationId && unreadFor userId m.

Definition countDocuments {A} (p : A -> bool) (coll : list A) : Z :=
  Z.of_nat (length (List.filter p coll)).

Definition getUnreadCount (outcome : option string) (userId : ObjectId)
  : Async Z :=
  tryCatch
    (await outcome ;;
     w <- get ;;
     ret (countDocuments (unreadFor userId) (messages w)))
    (fun error => throw error).

(** [$set: { isRead: true, readAt: new Date() }] on one document; an
    update through the model also sets [updatedAt]. *)
Definition setRead (now : Date) (m : Message.t) : Message.t :=
  Message.mk (Message._id m) (Message.sender m) (Message.receiver m)
    (Message.conversation m) (Message.content m) (Message.messageType m)
    true (Some now) (Message.isDeleted m) (Message.deletedAt m)
    (Message.createdAt m) now.

(** [updateMany(filter, update)]: the new collection and [modifiedCount]. *)
Definition updateMany {A} (p : A -> bool) (f : A -> A) (coll : list A)
  : list A * Z :=
  (map (fun d => if p d then f d else d) coll, countDocuments p coll).

(** [markConversationAsRead] returns the result of [updateMany]; of it,
    [modifiedCount]. *)
Definition markConversationAsRead (outcome : option string)
    (conversationId userId : ObjectId) : Async Z :=
  tryCatch
    (now <- new_Date ;;
     await outcome ;;
     w <- get ;;
     let (coll, modifiedCount) :=
       updateMany (unreadIn conversationId userId) (setRead now)
         (messages w) in
     modify (set_messages coll) ;;
     ret modifiedCount)
    (fun error => throw error).

(** ** routes: what a handler answers *)

(** The [data] of a response, as far as the handlers of this file fill
    it. *)
Inductive ResponseData :=
| NoData
| SentData (message conversation : ObjectId)
| MessageData (message : Message.t)
| UnreadCountData (unreadCount : Z)
| MarkedCountData (markedCount : Z).

Module Response.
Record t := mk {
  status : Z;
  success : bool;
  message : string;
  data : ResponseData
}.
End Response.

(** [io.to(`user_${userId}`).emit(event, ...)] behind [if (io)], from a
    route: the payload has no [isAutoMessage] key. *)
Definition ioEmitToUser (userId : ObjectId) (ev : string)
    (mid cid : ObjectId) : Async unit :=
  fun w =>
    if io w then
      (Return tt,
       set_emitted (emitted w ++ [mkEmitted userId ev mid cid false]) w)
    else (Return tt, w).

(** ** routes/messageRoutes.js, after [authenticateToken] and the
    validation middleware *)

Inductive SendAwait :=
| SdReceiver | SdFindOne | SdCreate | SdFindCreated
| SdMessageSave | SdUpdateLastActivity | SdPopulate.

(** [User.findOne({ _id: receiverId, isActive: true })] *)
Definition findActiveUser (id : ObjectId) (coll : list User.t)
  : option User.t :=
  List.find (fun u => N.eqb (User._id u) id && User.isActive u) coll.

(** [io.to(`user_${receiverId}`).emit(...)] with the [receiverId] of the
    request body: the room is named by that string.  [emitted] files an
    event under the user whose room it reaches, and the room of a user is
    [user_<toString id>] ([socket.userId = user._id.toString()], and a
    socket joins no other room of that form): a string that is not the
    [toString] of the id it is cast to names a room no socket is in, and
    the event reaches nobody. *)
Definition ioEmitToRoom (toString : ObjectId -> string)
    (name : string) (castTo : ObjectId) (ev : string)
    (mid cid : ObjectId) : Async unit :=
  if String.eqb (toString castTo) name then ioEmitToUser castTo ev mid cid
  else ret tt.

(** [router.post('/send', ...)].  [receiverId] is the string of the
    request body.  The queries and the documents cast it to an ObjectId:
    [castObjectId], which fails with a [CastError] on a string that is no
    id; the test for a message to oneself and the name of the receiver's
    room use the string as it came.  [toString] is
    [ObjectId.prototype.toString]. *)
Definition postSend (castObjectId : string -> option ObjectId)
    (toString : ObjectId -> string)
    (infra : SendAwait -> option string) (user : User.t)
    (receiverId : string) (content : JSString) : Async Response.t :=
  let senderId := User._id user in
  tryCatch
    (match castObjectId receiverId with
     | None => throw "Cast to ObjectId failed"
     | Some receiver_id =>
     await (infra SdReceiver) ;;
     w <- get ;;
     match findActiveUser receiver_id (users w) with
     | None => ret (Response.mk 404 false "Receiver not found" NoData)
     | Some receiver =>
         if String.eqb (toString senderId) receiverId then
           ret (Response.mk 400 false "Cannot send message to yourself"
                  NoData)
         else
           conversation <-
             findOrCreateConversation (infra SdFindOne) (infra SdCreate)
               (infra SdFindCreated) senderId receiver_id ;;
           match conversation with
           | None => throw "Cannot read properties of null (reading '_id')"
           | Some conversation =>
               id <- new_ObjectId ;;
               message <-
                 saveMessage (infra SdMessageSave)
                   (Message.new id senderId receiver_id
                      (Conversation._id conversation) content
                      Message.text) ;;
               now <- new_Date ;;
               saveConversation (infra SdUpdateLastActivity) conversation
                 (Conversation.updateLastActivity now
                    (Some (Message._id message)) conversation) ;;
               await (infra SdPopulate) ;;
               ioEmitToRoom toString receiverId receiver_id
                 "message_received"
                 (Message._id message) (Conversation._id conversation) ;;
               ioEmitToUser senderId "message_sent"
                 (Message._id message) (Conversation._id conversation) ;;
               ret (Response.mk 201 true "Message sent successfully"
                      (SentData (Message._id message)
                         (Conversation._id conversation)))
           end
     end
     end)
    (fun error =>
       ret (Response.mk 500 false "Failed to send message" NoData)).

Inductive MessageAwait := MsFindOne | MsSave.

(** [Message.findOne({ _id: messageId, receiver: userId,
    isDeleted: false })] *)
Definition receivedBy (messageId userId : ObjectId) (m : Message.t) : bool :=
  N.eqb (Message._id m) messageId && N.eqb (Message.receiver m) userId
  && negb (Message.isDeleted m).

(** [Message.findOne({ _id: messageId, sender: userId,
    isDeleted: false })] *)
Definition sentBy (messageId userId : ObjectId) (m : Message.t) : bool :=
  N.eqb (Message._id m) messageId && N.eqb (Message.sender m) userId
  && negb (Message.isDeleted m).

(** [router.put('/:messageId/read', ...)]; the document in the answer is
    the one in memory, after [markAsRead] and its [save] when they ran.
    The payload of
    [message_read] is [messageId] and [readAt]: the event record has no
    field for [readAt], and its [conversation] field, which this payload
    lacks, is filled with the message's. *)
Definition putRead (infra : MessageAwait -> option string) (user : User.t)
    (messageId : ObjectId) : Async Response.t :=
  let userId := User._id user in
  tryCatch
    (await (infra MsFindOne) ;;
     w <- get ;;
     match List.find (receivedBy messageId userId) (messages w) with
     | None => ret (Response.mk 404 false "Message not found" NoData)
     | Some message =>
         if negb (Message.isRead message) then
           now <- new_Date ;;
           this <-
             saveLoadedMessage (infra MsSave) message
               (markAsRead now message) ;;
           ioEmitToUser (Message.sender message) "message_read"
             (Message._id message) (Message.conversation message) ;;
           ret (Response.mk 200 true "Message marked as read successfully"
                  (MessageData this))
         else
           ret (Response.mk 200 true "Message marked as read successfully"
                  (MessageData message))
     end)
    (fun error =>
       ret (Response.mk 500 false "Failed to mark message as read" NoData)).

(** [router.get('/unread-count', ...)] *)
Definition getUnreadCountRoute (outcome : option string) (user : User.t)
  : Async Response.t :=
  tryCatch
    (unreadCount <- getUnreadCount outcome (User._id user) ;;
     ret (Response.mk 200 true "Unread count retrieved successfully"
            (UnreadCountData unreadCount)))
    (fun error =>
       ret (Response.mk 500 false "Failed to retrieve unread count" NoData)).

(** [router.delete('/:messageId', ...)] *)
Definition deleteMessage (infra : MessageAwait -> option string)
    (user : User.t) (messageId : ObjectId) : Async Response.t :=
  let userId := User._id user in
  tryCatch
    (await (infra MsFindOne) ;;
     w <- get ;;
     match List.find (sentBy messageId userId) (messages w) with
     | None =>
         ret (Response.mk 404 false "Message not found or access denied"
                NoData)
     | Some message =>
         now <- new_Date ;;
         saveLoadedMessage (infra MsSave) message (softDelete now message) ;;
         ioEmitToUser (Message.receiver message) "message_deleted"
           (Message._id message) (Message.conversation message) ;;
         ret (Response.mk 200 true "Message deleted successfully" NoData)
     end)
    (fun error =>
       ret (Response.mk 500 false "Failed to delete message" NoData)).

(** ** routes/conversationRoutes.js: mark-read *)

Inductive MarkReadAwait := MrFindOne | MrUpdateMany.

(** [Conversation.findOne({ _id: conversationId, participants: userId,
    isActive: true })] *)
Definition participating (conversationId userId : ObjectId)
    (c : Conversation.t) : bool :=
  N.eqb (Conversation._id c) conversationId
  && Conversation.includes userId (Conversation.participants c)
  && Conversation.isActive c.

(** [router.put('/:conversationId/mark-read', ...)] *)
Definition putMarkRead (infra : MarkReadAwait -> option string)
    (user : User.t) (conversationId : ObjectId) : Async Response.t :=
  let userId := User._id user in
  tryCatch
    (await (infra MrFindOne) ;;
     w <- get ;;
     match Conversation.findOne (participating conversationId userId)
             (conversations w) with
     | None => ret (Response.mk 404 false "Conversation not found" NoData)
     | Some conversation =>
         markedCount <-
           markConversationAsRead (infra MrUpdateMany) conversationId
             userId ;;
         ret (Response.mk 200 true "Messages marked as read successfully"
                (MarkedCountData markedCount))
     end)
    (fun error =>
       ret (Response.mk 500 false "Failed to mark messages as read" NoData)).

(** *** Pagination of the list routes *)

(** [Math.ceil(total / limit)] for a positive [limit]. *)
Definition Math_ceil_div (total limit : Z) : Z :=
  - ((- total) / limit).

Record Pagination := mkPagination {
  currentPage : Z;
  totalPages : Z;
  totalItems : Z;
  hasNextPage : bool;
  hasPrevPage : bool
}.

(** The [skip] and the [pagination] object the list routes compute from
    [page], [limit] and the count. *)
Definition skipOf (page limit : Z) : Z := (page - 1) * limit.

Definition paginationOf (page limit total : Z) : Pagination :=
  let totalPages := Math_ceil_div total limit in
  mkPagination page totalPages total (page <? totalPages) (1 <? page).

(** [.skip(skip).limit(limit)] on the sorted result of a query, for a
    [skip] that is not negative and a positive [limit]. *)
Definition skipLimit {A} (skip limit : Z) (l : list A) : list A :=
  take (Z.to_nat limit) (drop (Z.to_nat skip) l).

(** ** middleware/auth.js *)

(** [s.split(' ')]: the substrings between the separators, empty ones
    included; the empty string splits into one empty substring. *)
Fixpoint split (sep : Ascii.ascii) (s : string) : list string :=
  match s with
  | EmptyString => [EmptyString]
  | String c s' =>
      if Ascii.eqb c sep then EmptyString :: split sep s'
      else
        match split sep s' with
        | word :: words => String c word :: words
        | [] => [String c EmptyString]
        end
  end.

Definition space : Ascii.ascii := Ascii.ascii_of_nat 32.

(** A string-or-undefined value is falsy when undefined or empty. *)
Definition falsy (v : option string) : bool := negb (truthy v).

(** [authHeader && authHeader.split(' ')[1]] *)
Definition tokenOfHeader (authHeader : option string) : option string :=
  if falsy authHeader then authHeader
  else
    match authHeader with
    | Some h => split space h !! 1%nat
    | None => None
    end.

(** [socket.handshake.auth.token ||
    socket.handshake.headers.authorization?.split(' ')[1]] *)
Definition tokenOfHandshake (authToken authHeader : option string)
  : option string :=
  if truthy authToken then authToken
  else
    match authHeader with
    | Some h => split space h !! 1%nat
    | None => None
    end.

(** What [jwt.verify(token, process.env.JWT_SECRET)] does: it returns the
    payload, of which the code reads [userId], or throws an error of some
    [name]. *)
Inductive Verified :=
| Decoded (userId : option ObjectId)
| VerifyThrows (name : string).

(** How a middleware ends: it calls [next()], with [req.user] set or not,
    or it answers. *)
Inductive Handled :=
| Next (user : option User.t)
| Answer (status : Z) (message : string).

(** [User.findById(decoded.userId)]; [findById(undefined)] finds
    nothing. *)
Definition findUser (userId : option ObjectId) (coll : list User.t)
  : option User.t :=
  match userId with
  | Some id => User.findById id coll
  | None => None
  end.

(** The [catch] block of [authenticateToken], by the name of the error. *)
Definition authenticationError (name : string) : Handled :=
  if String.eqb name "JsonWebTokenError" then Answer 401 "Invalid token"
  else if String.eqb name "TokenExpiredError" then Answer 401 "Token expired"
  else Answer 500 "Authentication failed".

(** [authenticateToken(req, res, next)]: [verify] is [jwt.verify] with the
    secret of the process, [outcome] the name of the error [User.findById]
    throws when the database fails. *)
Definition authenticateToken (verify : string -> Verified)
    (outcome : option string) (coll : list User.t)
    (authHeader : option string) : Handled :=
  match tokenOfHeader authHeader with
  | None => Answer 401 "Access token is required"
  | Some token =>
      if String.eqb token "" then Answer 401 "Access token is required"
      else
        match verify token with
        | VerifyThrows name => authenticationError name
        | Decoded userId =>
            match outcome with
            | Some name => authenticationError name
            | None =>
                match findUser userId coll with
                | None => Answer 401 "Invalid token - user not found"
                | Some user =>
                    if negb (User.isActive user) then
                      Answer 401 "Account is deactivated"
                    else Next (Some user)
                end
            end
        end
  end.

(** [optionalAuth(req, res, next)] *)
Definition optionalAuth (verify : string -> Verified)
    (outcome : option string) (coll : list User.t)
    (authHeader : option string) : Handled :=
  if truthy (tokenOfHeader authHeader) then
    match tokenOfHeader authHeader with
    | Some token =>
        match verify token with
        | VerifyThrows name => Next None
        | Decoded userId =>
            match outcome with
            | Some name => Next None
            | None =>
                match findUser userId coll with
                | Some user =>
                    if User.isActive user then Next (Some user)
                    else Next None
                | None => Next None
                end
            end
        end
    | None => Next None
    end
  else Next None.

(** How [authenticateSocket] calls [next]: without argument, after it has
    set [socket.userId] and [socket.user], or with an Error. *)
Inductive SocketHandled :=
| Accepted (user : User.t)
| Rejected (message : string).

Definition authenticateSocket (verify : string -> Verified)
    (outcome : option string) (coll : list User.t)
    (authToken authHeader : option string) : SocketHandled :=
  match tokenOfHandshake authToken authHeader with
  | None => Rejected "Authentication token required"
  | Some token =>
      if String.eqb token "" then Rejected "Authentication token required"
      else
        match verify token with
        | VerifyThrows name => Rejected "Authentication failed"
        | Decoded userId =>
            match outcome with
            | Some name => Rejected "Authentication failed"
            | None =>
                match findUser userId coll with
                | Some user =>
                    if User.isActive user then Accepted user
                    else Rejected "Invalid token or inactive user"
                | None => Rejected "Invalid token or inactive user"
                end
            end
        end
  end.

(** ** config/redis.js: the set [online_users] *)

(** The members are the ids of the users ([userId.toString()]).  Each
    function catches what the client throws: [outcome] is [Some _] when the
    command fails (or the client is not connected). *)
Definition addOnlineUser (outcome : option string) (userId : ObjectId)
    (online : gset ObjectId) : gset ObjectId :=
  match outcome with
  | None => {[userId]} ∪ online
  | Some _ => online
  end.

Definition removeOnlineUser (outcome : option string) (userId : ObjectId)
    (online : gset ObjectId) : gset ObjectId :=
  match outcome with
  | None => online ∖ {[userId]}
  | Some _ => online
  end.

Definition getOnlineUsers (outcome : option string)
    (online : gset ObjectId) : list ObjectId :=
  match outcome with
  | None => elements online
  | Some _ => []
  end.

Definition isUserOnline (outcome : option string) (userId : ObjectId)
    (online : gset ObjectId) : bool :=
  match outcome with
  | None => bool_decide (userId ∈ online)
  | Some _ => false
  end.

Definition getOnlineUserCount (outcome : option string)
    (online : gset ObjectId) : Z :=
  match outcome with
  | None => Z.of_nat (size online)
  | Some _ => 0
  end.

(** ** socket/socketHandler.js: connection and disconnect *)

(** Of the hub, the presence set and what the handlers broadcast to the
    other sockets; rooms and listeners are the socket server's. *)
Record Hub := mkHub {
  online : gset ObjectId;
  broadcasts : list (string * ObjectId)
}.

(** The [connection] handler, for the socket of an authenticated user. *)
Definition onConnection (outcome : option string) (userId : ObjectId)
    (h : Hub) : Hub :=
  mkHub (addOnlineUser outcome userId (online h))
        (broadcasts h ++ [("user_online"%string, userId)]).

(** The [disconnect] handler of that socket. *)
Definition onDisconnect (outcome : option string) (userId : ObjectId)
    (h : Hub) : Hub :=
  mkHub (removeOnlineUser outcome userId (online h))
        (broadcasts h ++ [("user_offline"%string, userId)]).

(** [content.substring(0, 50) + (content.length > 50 ? '...' : '')], the
    preview of a [send_message] notification. *)
Definition preview (content : JSString) : JSString :=
  take 50 content ++ (if (50 <? length content)%nat then js "..." else []).
(** * Vocabulary of the properties *)

(** ** The scheduling record *)

(** The fields of a scheduling record that neither [incrementRetry] nor a
    state transition is meant to touch. *)
Definition sameMessage (d d' : AutoMessage.t) : Prop :=
  AutoMessage._id d' = AutoMessage._id d
  /\ AutoMessage.sender d' = AutoMessage.sender d
  /\ AutoMessage.receiver d' = AutoMessage.receiver d
  /\ AutoMessage.content d' = AutoMessage.content d
  /\ AutoMessage.sendDate d' = AutoMessage.sendDate d
  /\ AutoMessage.createdAt d' = AutoMessage.createdAt d.

Definition sameQueued (d d' : AutoMessage.t) : Prop :=
  AutoMessage.isQueued d' = AutoMessage.isQueued d
  /\ AutoMessage.queuedAt d' = AutoMessage.queuedAt d.

Definition sameSent (d d' : AutoMessage.t) : Prop :=
  AutoMessage.isSent d' = AutoMessage.isSent d
  /\ AutoMessage.sentAt d' = AutoMessage.sentAt d
  /\ AutoMessage.messageId d' = AutoMessage.messageId d.

Definition sameRetry (d d' : AutoMessage.t) : Prop :=
  AutoMessage.retryCount d' = AutoMessage.retryCount d
  /\ AutoMessage.error d' = AutoMessage.error d.

(** What [save] writes for a document that was loaded from the stored one. *)
Definition saved (now : Date) (loaded this : AutoMessage.t) : AutoMessage.t :=
  AutoMessage.patch now loaded this loaded.


(** A record the scanner's query passes over: queued, sent, or out of
    retries. *)
Definition excluded (d : AutoMessage.t) : bool :=
  AutoMessage.isQueued d || AutoMessage.isSent d
  || (3 <=? AutoMessage.retryCount d).

Definition day : Z := 86400000.
Definition hour : Z := 3600000.

(** ** The planner *)

(** Consecutive disjoint pairs of a list: what the pairing loop collects. *)
Fixpoint consecutive {A} (l : list A) : list (A * A) :=
  match l with
  | x :: y :: l' => (x, y) :: consecutive l'
  | _ => []
  end.

(** The number of pairs in which [u] is sender or receiver. *)
Definition appearances (u : ObjectId) (pairs : list (ObjectId * ObjectId))
  : nat :=
  length (List.filter (fun p => N.eqb (fst p) u || N.eqb (snd p) u) pairs).

Definition parties (d : AutoMessage.t) : ObjectId * ObjectId :=
  (AutoMessage.sender d, AutoMessage.receiver d).

(** Every coming result of [Math.random()] is a double of [0, 1). *)
Definition randomOk (w : World) : Prop :=
  forall n, 0 <= random w n < 2 ^ 53.

(** The records a run added at the end of the collection. *)
Definition created (w w' : World) : list AutoMessage.t :=
  drop (length (automessages w)) (automessages w').

(** The worlds differ at most in the coming random numbers. *)
Definition sameButRandom (w w' : World) : Prop :=
  users w' = users w /\ conversations w' = conversations w
  /\ messages w' = messages w /\ automessages w' = automessages w
  /\ queue w' = queue w /\ io w' = io w /\ emitted w' = emitted w
  /\ nextId w' = nextId w /\ clock w' = clock w.

(** The send date lies in the window of one hour to 25 hours after
    [creation]. *)
Definition inWindow (creation sendDate : Date) : Prop :=
  creation < sendDate
  /\ creation + hour <= sendDate < creation + 25 * hour.

(** A content that passes the validators of [content] after the [trim]
    setter. *)
Definition validContent (c : JSString) : Prop :=
  (0 < length (trim c) <= 1000)%nat.

(** The infrastructure answers every call. *)
Definition noFailure {A} : A -> option string := fun _ => None.

(** ** Frames of asynchronous computations *)

(** [m] leaves the component [proj] of the world as it was, whatever it
    completes with. *)
Definition keeps {F A} (proj : World -> F) (m : Async A) : Prop :=
  forall w, proj (snd (m w)) = proj w.

(** [m] leaves [proj] as it was when it throws. *)
Definition keepsOnThrow {F A} (proj : World -> F) (m : Async A) : Prop :=
  forall w e w', m w = (Throw e, w') -> proj w' = proj w.

(** The ids of the conversations are distinct and older than the next id
    of the driver. *)
Definition wfConversations (w : World) : Prop :=
  NoDup (map Conversation._id (conversations w))
  /\ Forall (fun c => (Conversation._id c < nextId w)%N) (conversations w).

(** Two calls of [findOrCreateConversation] that overlap: both lookups are
    answered before either call goes on. *)
Definition overlappingFindOrCreate (userA userB : ObjectId) (w : World)
  : Completion (option Conversation.t) * Completion (option Conversation.t)
    * World :=
  let goOn (found : Completion (option Conversation.t)) (w : World) :=
    match found with
    | Return (Some c) => (Return (Some c), w)
    | Return None => createConversation None None userA userB w
    | Throw e => (Throw e, w)
    end in
  let '(found1, w1) := lookupConversation None userA userB w in
  let '(found2, w2) := lookupConversation None userA userB w1 in
  let '(r1, w3) := goOn found1 w2 in
  let '(r2, w4) := goOn found2 w3 in
  (r1, r2, w4).

(** The candidates of a scanner run, and those whose sender and receiver
    are still users. *)
Definition candidates (w : World) : list AutoMessage.t :=
  AutoMessage.find (AutoMessage.readyForQueuing (clock w)) (automessages w).

Definition partiesKnown (us : list User.t) (d : AutoMessage.t) : Prop :=
  is_Some (User.findById (AutoMessage.sender d) us)
  /\ is_Some (User.findById (AutoMessage.receiver d) us).

(** ** Example worlds *)

Definition ann : User.t := User.mk 1 "ann" "ann@example.com" true.
Definition bob : User.t := User.mk 2 "bob" "bob@example.com" true.
Definition cyd : User.t := User.mk 3 "cyd" "cyd@example.com" true.

(** A record of ann for bob, due at 500, created at 100. *)
Definition dueRecord : AutoMessage.t :=
  AutoMessage.mk 10 1 2 (js "Just checking in on you!") 500
    false None false None None None 0 100 100.

(** The clock reads 1000; the record is due and pending. *)
Definition scanWorld : World :=
  mkWorld [ann; bob; cyd] [] [] [dueRecord] [] true [] 11 1000 (fun _ => 0).

(** Two runs of [queueReadyMessages] that overlap: both have read the
    candidates before either has marked one. *)
Definition overlappingScans (w : World) : World :=
  match getMessagesForQueuing None w with
  | (Return first, w1) =>
      match getMessagesForQueuing None w1 with
      | (Return second, w2) =>
          let w3 := snd (forEach (queueOne noFailure) first w2) in
          snd (forEach (queueOne noFailure) second (advance 5 w3))
      | _ => w
      end
  | _ => w
  end.

(** Three active users and a user who is not; the random numbers follow a
    linear congruence. *)
Definition dan : User.t := User.mk 4 "dan" "dan@example.com" false.

Definition plannerWorld : World :=
  mkWorld [ann; dan; bob; cyd] [] [] [] [] true [] 20 1000
    (fun n => (Z.of_nat n * 3141592653589793 + 271828182845904) mod 2 ^ 53).

(** Two active users, and random numbers that are all 0: the planner draws
    the earliest send date there is. *)
Definition earliestWorld : World :=
  mkWorld [ann; bob] [] [] [] [] true [] 20 1000 (fun _ => 0).

(** [insertMany] stamps its documents five milliseconds after the send
    dates were drawn. *)
Definition fiveLater (reading : PlannerClock) : Z :=
  match reading with
  | PcSendDate _ => 0
  | PcCreatedAt _ => 5
  end.

(** The record after the scanner has queued it at 1000, and its payload. *)
Definition queuedRecord : AutoMessage.t :=
  AutoMessage.mk 10 1 2 (js "Just checking in on you!") 500
    true (Some 1000) false None None None 0 100 1000.

Definition duePayload : Payload :=
  mkPayload 10 1 2 (js "Just checking in on you!") "ann" "bob".

(** The broker holds the payload twice: the second copy is a redelivery. *)
Definition redeliveryWorld : World :=
  mkWorld [ann; bob; cyd] [] [] [queuedRecord] [duePayload; duePayload]
    true [] 11 2000 (fun _ => 0).

(** The payload is in the queue once, and the store does not answer the
    consumer's first query. *)
Definition retryWorld : World :=
  mkWorld [ann; bob; cyd] [] [] [queuedRecord] [duePayload]
    true [] 11 2000 (fun _ => 0).

Definition brokenStore (a : Await) : option string :=
  match a with
  | AwFindOne => Some "connection lost"
  | _ => None
  end.


(** [n] deliveries in a row. *)
Fixpoint deliveries (n : nat) (infra : Await -> option string) (w : World)
  : World :=
  match n with
  | O => w
  | S n' => deliveries n' infra (snd (consumeOne infra w))
  end.

(** Two sent records, created 31 and 29 days before the clock reading, and
    a pending record created 40 days before it. *)
Definition sweepWorld : World :=
  mkWorld [ann; bob] [] []
    [ AutoMessage.mk 1 1 2 (js "a") 0 true (Some 0) true (Some 0) (Some 5%N)
        None 0 (100 * day - 31 * day) 0;
      AutoMessage.mk 2 1 2 (js "b") 0 true (Some 0) true (Some 0) (Some 6%N)
        None 0 (100 * day - 29 * day) 0;
      AutoMessage.mk 3 1 2 (js "c") 0 false None false None None
        None 0 (100 * day - 40 * day) 0 ]
    [] true [] 7 (100 * day) (fun _ => 0).

(** * Vocabulary of the further properties *)

(** The counters [getStatistics] returns for a collection. *)
Definition statisticsOf (coll : list AutoMessage.t) : Statistics.t :=
  default (Statistics.mk 0 0 0 0 0) (head (aggregateStatistics coll)).

(** What the store holds for a message after [markAsRead] and [save], and
    after [softDelete] and [save]. *)
Definition readAs (now : Date) (m : Message.t) : Message.t :=
  patchMessage now m (markAsRead now m) m.

Definition deletedAs (now : Date) (m : Message.t) : Message.t :=
  patchMessage now m (softDelete now m) m.

(** The event a route emits when the socket server is there. *)
Definition routeEvent (w : World) (userId : ObjectId) (ev : string)
    (m : Message.t) : list Emitted :=
  if io w then
    [mkEmitted userId ev (Message._id m) (Message.conversation m) false]
  else [].

(** Of an event, the room, the name and the message. *)
Definition notified (e : Emitted) : ObjectId * string * ObjectId :=
  (room e, event e, message e).

(** ann and bob have talked: ann's message is unread, bob's answer is
    read. *)
Definition hello : Message.t :=
  Message.mk 40 1 2 30 (js "hello") Message.text false None false None
    900 900.

Definition answer : Message.t :=
  Message.mk 41 2 1 30 (js "hi ann") Message.text true (Some 950) false None
    940 950.

Definition chatWorld : World :=
  mkWorld [ann; bob; cyd]
    [Conversation.mk 30 [1; 2]%N (Some 41%N) 940 true 900 940]
    [hello; answer] [] [] true [] 42 1000 (fun _ => 0).

(** *** Ids as strings *)

(** [ObjectId.prototype.toString]: the 24 hexadecimal digits of the id, in
    lower case. *)
Definition hexDigit (n : N) : Ascii.ascii :=
  Ascii.ascii_of_N (if (n <? 10)%N then 48 + n else 87 + n)%N.

Fixpoint hexDigits (k : nat) (n : N) (acc : string) : string :=
  match k with
  | O => acc
  | S k' => hexDigits k' (n / 16)%N (String (hexDigit (n mod 16)%N) acc)
  end.

Definition hexString (id : ObjectId) : string := hexDigits 24 id "".

(** The cast of a string to an ObjectId: 24 hexadecimal digits, in lower
    or in upper case; any other string is refused. *)
Definition hexValue (c : Ascii.ascii) : option N :=
  let n := Ascii.N_of_ascii c in
  if (48 <=? n)%N && (n <=? 57)%N then Some (n - 48)%N
  else if (97 <=? n)%N && (n <=? 102)%N then Some (n - 87)%N
  else if (65 <=? n)%N && (n <=? 70)%N then Some (n - 55)%N
  else None.

Fixpoint hexNumber (s : string) (acc : N) : option N :=
  match s with
  | EmptyString => Some acc
  | String c s' =>
      match hexValue c with
      | Some d => hexNumber s' (acc * 16 + d)%N
      | None => None
      end
  end.

Definition castHex (s : string) : option ObjectId :=
  if (String.length s =? 24)%nat then hexNumber s 0%N else None.

(** A user whose id has letters among its digits: [0xab]. *)
Definition eve : User.t := User.mk 171 "eve" "eve@example.com" true.

Definition eveLower : string := "0000000000000000000000ab".
Definition eveUpper : string := "0000000000000000000000AB".
Definition annLower : string := "000000000000000000000001".

Definition eveWorld : World :=
  mkWorld [ann; bob; cyd; eve]
    [Conversation.mk 30 [1; 2]%N (Some 41%N) 940 true 900 940]
    [hello; answer] [] [] true [] 42 1000 (fun _ => 0).

(** The last messages the conversations point at are older than the next
    id of the driver. *)
Definition wfLastMessages (w : World) : Prop :=
  Forall (fun c => forall mid, Conversation.lastMessage c = Some mid ->
                     (mid < nextId w)%N)
    (conversations w).

(** The store fails when [POST /send] updates the conversation, and
    answers every other call. *)
Definition lastActivityFails (a : SendAwait) : option string :=
  match a with
  | SdUpdateLastActivity => Some "connection lost"
  | _ => None
  end.

(** A word: a string without a space. *)
Fixpoint spaceFree (s : string) : bool :=
  match s with
  | EmptyString => true
  | String c s' => negb (Ascii.eqb c space) && spaceFree s'
  end.

(** What a request that passes [authenticateToken] presents: a header
    whose second word is a token that [verify] decodes to the id of an
    active user, with the database answering. *)
Definition presents (verify : string -> Verified) (outcome : option string)
    (coll : list User.t) (authHeader : option string) (user : User.t)
  : Prop :=
  exists h token id,
    authHeader = Some h
    /\ split space h !! 1%nat = Some token
    /\ token <> ""%string
    /\ verify token = Decoded (Some id)
    /\ outcome = None
    /\ User.findById id coll = Some user
    /\ User.isActive user = true.

(** A [jwt.verify] for the examples: the token [t<id>] of one letter and
    one digit decodes to the user [id], [old] has expired, anything else
    is malformed. *)
Definition verifyExample (token : string) : Verified :=
  if String.eqb token "t1" then Decoded (Some 1%N)
  else if String.eqb token "t4" then Decoded (Some 4%N)
  else if String.eqb token "t9" then Decoded (Some 9%N)
  else if String.eqb token "old" then VerifyThrows "TokenExpiredError"
  else VerifyThrows "JsonWebTokenError".

(** What happens to the sockets of the authenticated users, with the
    outcome of the Redis command the handler issues. *)
Inductive SocketEvent :=
| Connects (outcome : option string) (userId : ObjectId)
| Disconnects (outcome : option string) (userId : ObjectId).

Definition handle (h : Hub) (e : SocketEvent) : Hub :=
  match e with
  | Connects outcome userId => onConnection outcome userId h
  | Disconnects outcome userId => onDisconnect outcome userId h
  end.

Definition handleAll (events : list SocketEvent) (h : Hub) : Hub :=
  fold_left handle events h.

(** What the presence set says of [userId] after [e], given what it said
    before: an event of another user or a failed command changes
    nothing. *)
Definition presenceAfter (userId : ObjectId) (before : bool)
    (e : SocketEvent) : bool :=
  match e with
  | Connects None u => if N.eqb u userId then true else before
  | Disconnects None u => if N.eqb u userId then false else before
  | _ => before
  end.

(** The sockets of [userId] that are open after the events. *)
Definition openSockets (userId : ObjectId) (events : list SocketEvent)
  : Z :=
  fold_left
    (fun n e =>
       match e with
       | Connects _ u => if N.eqb u userId then n + 1 else n
       | Disconnects _ u => if N.eqb u userId then n - 1 else n
       end)
    events 0.

(** What a cron job leaves alone: everything but the scheduling records,
    the id counter and the coming random numbers. *)
Definition sameButScheduled (w w' : World) : Prop :=
  users w' = users w /\ conversations w' = conversations w
  /\ messages w' = messages w /\ queue w' = queue w /\ io w' = io w
  /\ emitted w' = emitted w /\ clock w' = clock w.

(** What a scan may have made of a stored record: the message, its
    schedule and its sent status are as before, and a queued record is
    still queued. *)
Definition scannedFrom (d d' : AutoMessage.t) : Prop :=
  sameMessage d d' /\ sameSent d d'
  /\ (AutoMessage.isQueued d = true -> AutoMessage.isQueued d' = true).

(** The payload is the one of the record: its id, its parties and its
    content. *)
Definition carries (d : AutoMessage.t) (p : Payload) : Prop :=
  autoMessageId p = AutoMessage._id d
  /\ senderId p = AutoMessage.sender d
  /\ receiverId p = AutoMessage.receiver d
  /\ content p = AutoMessage.content d.

(** What a scan over the records [ready] may have made of the scheduling
    records and of the queue: the records are the same ones in the same
    order, and the queue has grown at its end by at most one payload for
    each record of [ready], each the payload of such a record. *)
Definition scanned (ready : list AutoMessage.t) (w w' : World) : Prop :=
  Forall2 scannedFrom (automessages w) (automessages w')
  /\ exists added,
       queue w' = queue w ++ added
       /\ Forall (fun p => exists d, d ∈ ready /\ carries d p) added
       /\ (length added <= length ready)%nat.

(** What a scan leaves alone. *)
Definition sameButScanned (w w' : World) : Prop :=
  users w' = users w /\ conversations w' = conversations w
  /\ messages w' = messages w /\ io w' = io w /\ emitted w' = emitted w
  /\ nextId w' = nextId w /\ clock w' = clock w /\ random w' = random w.

(** The scan cannot publish the record: one of its parties is gone, or
    the broker refuses the payload. *)
Definition publishFails (infra : ScannerAwait -> option string)
    (us : list User.t) (d : AutoMessage.t) : Prop :=
  ~ partiesKnown us d \/ is_Some (infra (ScPublish (AutoMessage._id d))).

(** The broker is down and the database answers. *)
Definition brokerDown (a : ScannerAwait) : option string :=
  match a with
  | ScPublish _ => Some "channel closed"
  | _ => None
  end.

(** The message the consumer stores for a payload. *)
Definition materialized (p : Payload) (m : Message.t) : Prop :=
  Message.sender m = senderId p /\ Message.receiver m = receiverId p
  /\ Message.content m = trim (content p)
  /\ (0 < length (Message.content m) <= 1000)%nat
  /\ Message.messageType m = Message.auto
  /\ Message.isRead m = false /\ Message.isDeleted m = false.

(** The page [page] of a sorted result, as the list routes fetch it. *)
Definition pageOf {A} (page limit : Z) (l : list A) : list A :=
  skipLimit (skipOf page limit) limit l.

(** The string neither begins nor ends with white space. *)
Definition trimmed (s : JSString) : Prop :=
  (forall c rest, s = c :: rest -> isWhiteSpace c = false)
  /\ (forall c init, s = init ++ [c] -> isWhiteSpace c = false).
(** * Properties *)

(** ** The scheduling record: methods and the scanner's query *)

Lemma modifiedPath_same {A} `{EqDecision A} (x y : A) :
  modifiedPath x y x = y.
Proof. unfold modifiedPath. destruct (decide (x = y)); congruence. Qed.

Lemma saved_fields now loaded this :
  AutoMessage._id this = AutoMessage._id loaded ->
  AutoMessage.createdAt this = AutoMessage.createdAt loaded ->
  sameMessage this (saved now loaded this)
  /\ sameQueued this (saved now loaded this)
  /\ sameSent this (saved now loaded this)
  /\ sameRetry this (saved now loaded this).
Proof.
  intros Hid Hc. unfold saved, AutoMessage.patch.
  destruct (decide (loaded = this)) as [->|_].
  - repeat split.
  - unfold sameMessage, sameQueued, sameSent, sameRetry; cbn.
    rewrite !modifiedPath_same. repeat split; congruence.
Qed.

(** C10. For every scheduling record, [incrementRetry] adds exactly 1 to
    [retryCount] and leaves sender, receiver, content, sendDate, isQueued,
    queuedAt, isSent, sentAt and messageId as they were, in the document and
    in what [save] stores for it; called without an error it leaves the
    stored error as it was. *)
Theorem incrementRetry_frame (now : Date) (err : option string)
    (d : AutoMessage.t) :
  let this := AutoMessage.incrementRetry err d in
  let stored := saved now d this in
  (AutoMessage.retryCount this = AutoMessage.retryCount d + 1
   /\ sameMessage d this /\ sameQueued d this /\ sameSent d this)
  /\ (AutoMessage.retryCount stored = AutoMessage.retryCount d + 1
      /\ sameMessage d stored /\ sameQueued d stored /\ sameSent d stored)
  /\ AutoMessage.error (AutoMessage.incrementRetry None d)
     = AutoMessage.error d
  /\ AutoMessage.error (saved now d (AutoMessage.incrementRetry None d))
     = AutoMessage.error d.
Proof.
  intros this stored.
  assert (Hthis : AutoMessage.retryCount this = AutoMessage.retryCount d + 1
                  /\ sameMessage d this /\ sameQueued d this
                  /\ sameSent d this) by (repeat split).
  split; [exact Hthis|].
  destruct (saved_fields now d this eq_refl eq_refl)
    as ((?&?&?&?&?&?) & (?&?) & (?&?&?) & (?&?)).
  assert (Hnone := saved_fields now d (AutoMessage.incrementRetry None d)
                     eq_refl eq_refl).
  destruct Hnone as (_ & _ & _ & (_ & Herr)).
  split; [|split; [reflexivity|]].
  - destruct Hthis as (? & (?&?&?&?&?&?) & (?&?) & (?&?&?)).
    subst stored. unfold sameMessage, sameQueued, sameSent.
    repeat split; congruence.
  - rewrite Herr. reflexivity.
Qed.

Lemma map_doc_populate us (l : list AutoMessage.t) :
  map doc (map (populate us) l) = l.
Proof. induction l as [|d l IH]; cbn; congruence. Qed.

Lemma readyForQueuing_spec now d :
  AutoMessage.readyForQueuing now d = true <->
  AutoMessage.sendDate d <= now /\ AutoMessage.isQueued d = false
  /\ AutoMessage.isSent d = false /\ AutoMessage.retryCount d < 3.
Proof.
  unfold AutoMessage.readyForQueuing.
  rewrite !andb_true_iff, !negb_true_iff, Z.leb_le, Z.ltb_lt. tauto.
Qed.

Lemma excluded_not_ready now d :
  excluded d = true -> AutoMessage.readyForQueuing now d = false.
Proof.
  unfold excluded. rewrite !orb_true_iff, Z.leb_le. intros Hex.
  apply not_true_is_false. rewrite readyForQueuing_spec.
  intros (_ & Hq & Hs & Hr). destruct Hex as [[Hex|Hex]|Hex];
    [congruence|congruence|lia].
Qed.

Lemma excluded_stable now now' mid err d :
  excluded d = true ->
  excluded (AutoMessage.markAsQueued now d) = true
  /\ excluded (AutoMessage.markAsSent now mid d) = true
  /\ excluded (AutoMessage.incrementRetry err d) = true
  /\ excluded (saved now' d (AutoMessage.markAsQueued now d)) = true
  /\ excluded (saved now' d (AutoMessage.markAsSent now mid d)) = true
  /\ excluded (saved now' d (AutoMessage.incrementRetry err d)) = true.
Proof.
  intros Hex.
  assert (Hq : excluded (AutoMessage.markAsQueued now d) = true)
    by reflexivity.
  assert (Hs : excluded (AutoMessage.markAsSent now mid d) = true)
    by (unfold excluded; cbn; apply orb_true_iff; left; apply orb_true_r).
  assert (Hr : excluded (AutoMessage.incrementRetry err d) = true).
  { revert Hex. unfold excluded. cbn. rewrite !orb_true_iff, !Z.leb_le.
    intros [[?|?]|?]; [tauto|tauto|right; lia]. }
  assert (Hsaved : forall this,
             AutoMessage._id this = AutoMessage._id d ->
             AutoMessage.createdAt this = AutoMessage.createdAt d ->
             excluded this = true -> excluded (saved now' d this) = true).
  { intros this Hid Hc Hthis.
    destruct (saved_fields now' d this Hid Hc)
      as (_ & (Hq' & _) & (Hs' & _) & (Hr' & _)).
    unfold excluded in *. rewrite Hq', Hs', Hr'. exact Hthis. }
  repeat split; auto.
Qed.

(** C4. The scanner's query returns exactly the records with
    [sendDate <= now], not queued, not sent and with [retryCount < 3]; a
    record that is queued, sent or has [retryCount >= 3] is never returned,
    and stays so under [markAsQueued], [markAsSent] and [incrementRetry],
    whatever the time of a later scan. *)
Theorem getMessagesForQueuing_exact (w : World) :
  exists readyMessages,
    getMessagesForQueuing None w = (Return readyMessages, w)
    /\ (forall d, d ∈ map doc readyMessages <->
           d ∈ automessages w
           /\ AutoMessage.sendDate d <= clock w
           /\ AutoMessage.isQueued d = false
           /\ AutoMessage.isSent d = false
           /\ AutoMessage.retryCount d < 3)
    /\ (forall d, AutoMessage.isQueued d = true \/ AutoMessage.isSent d = true
                  \/ 3 <= AutoMessage.retryCount d ->
                  excluded d = true /\ d ∉ map doc readyMessages)
    /\ (forall d now now' mid err, excluded d = true ->
           AutoMessage.readyForQueuing now'
             (saved now d (AutoMessage.markAsQueued now d)) = false
           /\ AutoMessage.readyForQueuing now'
                (saved now d (AutoMessage.markAsSent now mid d)) = false
           /\ AutoMessage.readyForQueuing now'
                (saved now d (AutoMessage.incrementRetry err d)) = false).
Proof.
  eexists. split; [reflexivity|].
  assert (Hin : forall d,
    d ∈ map doc (map (populate (users w))
                   (AutoMessage.find (AutoMessage.readyForQueuing (clock w))
                      (automessages w))) <->
    d ∈ automessages w /\ AutoMessage.readyForQueuing (clock w) d = true).
  { intros d. rewrite map_doc_populate. unfold AutoMessage.find.
    rewrite !list_elem_of_In. apply filter_In. }
  split; [|split].
  - intros d. rewrite Hin, readyForQueuing_spec. tauto.
  - intros d Hd.
    assert (Hex : excluded d = true).
    { unfold excluded. rewrite !orb_true_iff, Z.leb_le. tauto. }
    split; [exact Hex|]. rewrite Hin. intros [_ Hr].
    rewrite (excluded_not_ready _ _ Hex) in Hr. discriminate.
  - intros d now now' mid err Hex.
    destruct (excluded_stable now now mid err d Hex)
      as (_ & _ & _ & H1 & H2 & H3).
    repeat split; apply excluded_not_ready; assumption.
Qed.

(** C2, as stated, fails: [markAsQueued] applied to a queued record
    rewrites [queuedAt], [markAsSent] applied to a record that is not queued
    marks it sent, and two overlapping scanner runs publish and promote the
    same record twice. *)
Lemma transitions_not_conditional :
  let queued := saved 2000 dueRecord (AutoMessage.markAsQueued 2000 dueRecord) in
  (AutoMessage.isQueued queued = true
   /\ saved 3000 queued (AutoMessage.markAsQueued 3000 queued) <> queued)
  /\ (AutoMessage.isQueued dueRecord = false
      /\ AutoMessage.isSent
           (saved 2000 dueRecord (AutoMessage.markAsSent 2000 77 dueRecord))
         = true)
  /\ (map autoMessageId (queue (overlappingScans scanWorld)) = [10; 10]%N
      /\ map AutoMessage.queuedAt (automessages (overlappingScans scanWorld))
         = [Some 1005]).
Proof.
  cbv zeta. split; [split; [reflexivity|discriminate]|].
  split; [split; reflexivity|]. split; vm_compute; reflexivity.
Qed.

(** Both transitions write whatever the state of the record is. *)
Lemma transitions_write (now now' : Date) (mid : ObjectId)
    (d : AutoMessage.t) :
  let queued := saved now d (AutoMessage.markAsQueued now d) in
  let sent := saved now d (AutoMessage.markAsSent now mid d) in
  (AutoMessage.isQueued queued = true
   /\ AutoMessage.queuedAt queued = Some now
   /\ sameMessage d queued /\ sameSent d queued /\ sameRetry d queued)
  /\ (AutoMessage.isSent sent = true
      /\ AutoMessage.sentAt sent = Some now
      /\ AutoMessage.messageId sent = Some mid
      /\ sameMessage d sent /\ sameQueued d sent /\ sameRetry d sent)
  /\ AutoMessage.readyForQueuing now' queued = false
  /\ AutoMessage.readyForQueuing now' sent = false.
Proof.
  intros queued sent.
  destruct (saved_fields now d (AutoMessage.markAsQueued now d)
              eq_refl eq_refl)
    as ((?&?&?&?&?&?) & (Hq1&Hq2) & (?&?&?) & (?&?)).
  destruct (saved_fields now d (AutoMessage.markAsSent now mid d)
              eq_refl eq_refl)
    as ((?&?&?&?&?&?) & (?&?) & (Hs1&Hs2&Hs3) & (?&?)).
  cbn -[saved] in *.
  fold queued in Hq1, Hq2. fold sent in Hs1, Hs2, Hs3.
  split; [|split; [|split]].
  - split; [exact Hq1|]. split; [exact Hq2|].
    unfold sameMessage, sameSent, sameRetry. subst queued.
    repeat split; congruence.
  - split; [exact Hs1|]. split; [exact Hs2|]. split; [exact Hs3|].
    unfold sameMessage, sameQueued, sameRetry. subst sent.
    repeat split; congruence.
  - apply excluded_not_ready. unfold excluded. rewrite Hq1. reflexivity.
  - apply excluded_not_ready. unfold excluded. rewrite Hs1.
    apply orb_true_iff. left. apply orb_true_r.
Qed.

(** ** The send date *)

Lemma Math_floor_random_range (k n : Z) :
  0 <= k < 2 ^ 53 -> 0 < n -> 0 <= k * n / 2 ^ 53 < n.
Proof.
  intros Hk Hn. split.
  - apply Z.div_pos; [nia|lia].
  - apply Z.div_lt_upper_bound; [lia|nia].
Qed.

(** ** The planner: shuffle and pairs *)

Section Lists.
Context {A : Type}.
Implicit Types l : list A.

Lemma insert_head_Permutation l j x y :
  l !! j = Some y -> y :: <[j:=x]> l ≡ₚ x :: l.
Proof.
  revert j. induction l as [|a l IH]; intros [|j] Hj; try discriminate.
  - cbn in Hj. injection Hj as ->. cbn. apply perm_swap.
  - cbn in Hj. cbn. etrans; [apply perm_swap|].
    etrans; [apply perm_skip, (IH _ Hj)|]. apply perm_swap.
Qed.

Lemma swap_Permutation i j l : swap i j l ≡ₚ l.
Proof.
  unfold swap. destruct (l !! i) as [x|] eqn:Hi; [|reflexivity].
  destruct (l !! j) as [y|] eqn:Hj; [|reflexivity].
  revert i j Hi Hj. induction l as [|a l IH]; intros [|i] [|j] Hi Hj;
    try discriminate; cbn in *.
  - injection Hi as ->. reflexivity.
  - injection Hi as ->. apply insert_head_Permutation. exact Hj.
  - injection Hj as ->. apply insert_head_Permutation. exact Hi.
  - f_equiv. apply IH; assumption.
Qed.

Lemma list_ind2 (P : list A -> Prop) :
  P [] -> (forall x, P [x]) -> (forall x y l, P l -> P (x :: y :: l)) ->
  forall l, P l.
Proof.
  intros Hnil Hone Hstep.
  assert (H : forall l, P l /\ forall x, P (x :: l)).
  { induction l as [|a l [IH1 IH2]]; [split; auto|].
    split; [apply IH2|]. intros x. apply Hstep, IH1. }
  intros l. apply H.
Qed.

Lemma consecutive_length l : length (consecutive l) = (length l / 2)%nat.
Proof.
  induction l as [| |x y l IH] using list_ind2; try reflexivity.
  cbn [consecutive length]. rewrite IH.
  change (S (S (length l))) with (1 * 2 + length l)%nat.
  rewrite Nat.add_comm, Nat.div_add by lia. lia.
Qed.

Lemma consecutive_snoc l z :
  Nat.even (length l) = true -> consecutive (l ++ [z]) = consecutive l.
Proof.
  induction l as [| |x y l IH] using list_ind2; intros He;
    try reflexivity; try discriminate.
  cbn in *. rewrite IH by exact He. reflexivity.
Qed.

(** The pairing loop collects the consecutive pairs. *)
Lemma pairLoop_consecutive fuel i l pairs :
  (length l <= i + 2 * fuel)%nat ->
  pairLoop fuel i l pairs = pairs ++ consecutive (drop i l).
Proof.
  revert i pairs. induction fuel as [|fuel IH]; intros i pairs Hlen.
  - cbn. rewrite drop_ge by lia. cbn. rewrite app_nil_r. reflexivity.
  - cbn [pairLoop]. destruct (i <? length l - 1)%nat eqn:Hi.
    + apply Nat.ltb_lt in Hi.
      destruct (lookup_lt_is_Some_2 l i) as [s Hs]; [lia|].
      destruct (lookup_lt_is_Some_2 l (i + 1)) as [r Hr]; [lia|].
      rewrite Hs, Hr, IH by lia.
      rewrite (drop_S l s i Hs).
      rewrite (drop_S l r (S i)) by (rewrite <- Hr; f_equal; lia).
      cbn [consecutive]. rewrite <- app_assoc.
      replace (i + 2)%nat with (S (S i)) by lia. reflexivity.
    + apply Nat.ltb_ge in Hi.
      assert (Hd : (length (drop i l) <= 1)%nat)
        by (rewrite length_drop; lia).
      destruct (drop i l) as [|a [|b t]]; cbn in *;
        [rewrite app_nil_r; reflexivity
        |rewrite app_nil_r; reflexivity|lia].
Qed.

Lemma makePairs_even l :
  Nat.even (length l) = true -> makePairs l = consecutive l.
Proof.
  intros He. unfold makePairs.
  rewrite pairLoop_consecutive by lia. rewrite drop_0. cbn [app].
  assert (Hm : (length l mod 2 =? 0)%nat = true).
  { apply Nat.eqb_eq. apply Nat.even_spec in He. destruct He as [k ->].
    rewrite Nat.mul_comm. apply Nat.Div0.mod_mul. }
  rewrite Hm. reflexivity.
Qed.

Lemma makePairs_odd l x z :
  Nat.even (length l) = true -> head l = Some x ->
  makePairs (l ++ [z]) = consecutive l ++ [(z, x)].
Proof.
  intros He Hx. unfold makePairs.
  rewrite pairLoop_consecutive by lia. rewrite drop_0. cbn [app].
  assert (Hlen : length (l ++ [z]) = (length l + 1)%nat)
    by (rewrite length_app; cbn; lia).
  assert (Hm : (length (l ++ [z]) mod 2 =? 0)%nat = false).
  { rewrite Hlen. apply Nat.eqb_neq. apply Nat.even_spec in He.
    destruct He as [k ->].
    replace (2 * k + 1)%nat with (1 + k * 2)%nat by lia.
    rewrite Nat.Div0.mod_add. cbn. lia. }
  rewrite Hm. cbn [negb]. rewrite last_snoc.
  rewrite consecutive_snoc by exact He.
  destruct l as [|a l]; [discriminate|]. cbn in Hx. injection Hx as ->.
  reflexivity.
Qed.
End Lists.

Lemma makePairs_map {A B} (f : A -> B) (l : list A) :
  makePairs (map f l) = map (fun p => (f (fst p), f (snd p))) (makePairs l).
Proof.
  assert (Hloop : forall fuel i pairs,
    pairLoop fuel i (map f l) (map (fun p => (f (fst p), f (snd p))) pairs)
    = map (fun p => (f (fst p), f (snd p))) (pairLoop fuel i l pairs)).
  { induction fuel as [|fuel IH]; intros i pairs; [reflexivity|].
    cbn [pairLoop]. rewrite length_map.
    destruct (i <? length l - 1)%nat; [|reflexivity].
    change (map f l) with (f <$> l). rewrite !list_lookup_fmap.
    destruct (l !! i) as [s|]; cbn; [|apply IH].
    destruct (l !! (i + 1)%nat) as [r|]; cbn; [|apply IH].
    rewrite <- IH. rewrite map_app. reflexivity. }
  unfold makePairs. rewrite length_map.
  specialize (Hloop (length l) 0%nat []). cbn [map] in Hloop. rewrite Hloop.
  destruct (negb (length l mod 2 =? 0)%nat); [|reflexivity].
  change (map f l) with (f <$> l). rewrite fmap_last.
  destruct (last l) as [s|]; cbn; [|reflexivity].
  destruct l as [|r l]; cbn; [reflexivity|].
  rewrite map_app. reflexivity.
Qed.

Section Appearances.
Implicit Types ids : list ObjectId.

Lemma appearances_app u pairs pairs' :
  appearances u (pairs ++ pairs')
  = (appearances u pairs + appearances u pairs')%nat.
Proof.
  unfold appearances. rewrite List.filter_app, length_app. reflexivity.
Qed.

Lemma appearances_cons u x y pairs :
  appearances u ((x, y) :: pairs)
  = ((if decide (x = u \/ y = u) then 1 else 0)
     + appearances u pairs)%nat.
Proof.
  unfold appearances. cbn.
  destruct (N.eqb_spec x u), (N.eqb_spec y u); cbn;
    destruct (decide _) as [[?|?]|Hn]; try reflexivity; try contradiction;
    exfalso; apply Hn; auto.
Qed.

Lemma appearances_outsider u ids :
  u ∉ ids -> appearances u (consecutive ids) = 0%nat.
Proof.
  induction ids as [| |x y ids IH] using list_ind2; intros Hu;
    try reflexivity.
  cbn [consecutive]. rewrite appearances_cons.
  rewrite !not_elem_of_cons in Hu. destruct Hu as (Hx & Hy & Hu).
  rewrite IH by exact Hu.
  destruct (decide _) as [[?|?]|_]; [congruence|congruence|reflexivity].
Qed.

Lemma appearances_member u ids :
  NoDup ids -> Nat.even (length ids) = true -> u ∈ ids ->
  appearances u (consecutive ids) = 1%nat.
Proof.
  induction ids as [| |x y ids IH] using list_ind2; intros Hnd He Hu.
  - inversion Hu.
  - discriminate.
  - cbn [consecutive]. rewrite appearances_cons.
    apply NoDup_cons in Hnd as [Hx Hnd].
    apply NoDup_cons in Hnd as [Hy Hnd].
    rewrite not_elem_of_cons in Hx. destruct Hx as [Hxy Hx].
    destruct (decide (x = u \/ y = u)) as [Hxu|Hxu].
    + rewrite appearances_outsider; [reflexivity|].
      destruct Hxu as [<-|<-]; assumption.
    + rewrite IH; [reflexivity|exact Hnd|exact He|].
      rewrite !elem_of_cons in Hu.
      destruct Hu as [->|[->|Hu]]; [tauto|tauto|exact Hu].
Qed.

Lemma consecutive_distinct ids :
  NoDup ids -> Forall (fun p => fst p <> snd p) (consecutive ids).
Proof.
  induction ids as [| |x y ids IH] using list_ind2; intros Hnd;
    try constructor.
  - cbn. apply NoDup_cons in Hnd as [Hx _].
    rewrite not_elem_of_cons in Hx. tauto.
  - apply IH. apply NoDup_cons in Hnd as [_ Hnd].
    apply NoDup_cons in Hnd as [_ Hnd]. exact Hnd.
Qed.

(** The pairs of at least two distinct users. *)
Lemma makePairs_spec ids :
  NoDup ids -> (2 <= length ids)%nat ->
  length (makePairs ids) = ((length ids + 1) / 2)%nat
  /\ Forall (fun p => fst p <> snd p) (makePairs ids)
  /\ (Nat.even (length ids) = true ->
      forall u, u ∈ ids -> appearances u (makePairs ids) = 1%nat)
  /\ (Nat.even (length ids) = false ->
      exists x z,
        head ids = Some x /\ last ids = Some z
        /\ last (makePairs ids) = Some (z, x)
        /\ x ∈ ids /\ appearances x (makePairs ids) = 2%nat
        /\ forall u, u ∈ ids -> u <> x ->
             appearances u (makePairs ids) = 1%nat).
Proof.
  intros Hnd Hlen. destruct (Nat.even (length ids)) eqn:He.
  - rewrite makePairs_even by exact He.
    split; [|split; [|split]].
    + rewrite consecutive_length. apply Nat.even_spec in He.
      destruct He as [k Hk]. rewrite Hk.
      replace (2 * k + 1)%nat with (1 + k * 2)%nat by lia.
      rewrite Nat.div_add by lia. rewrite Nat.mul_comm, Nat.div_mul by lia.
      reflexivity.
    + apply consecutive_distinct, Hnd.
    + intros _ u Hu. apply appearances_member; assumption.
    + discriminate.
  - destruct ids as [|a ids0] using rev_ind; [cbn in Hlen; lia|].
    clear IHids0. rewrite length_app in He, Hlen |- *. cbn in He, Hlen.
    assert (He0 : Nat.even (length ids0) = true).
    { rewrite Nat.add_1_r, Nat.even_succ, <- Nat.negb_even in He.
      destruct (Nat.even (length ids0)); [reflexivity|discriminate]. }
    destruct ids0 as [|x ids1] eqn:Hids0; [cbn in Hlen; lia|].
    rewrite <- Hids0 in *.
    assert (Hhead : head ids0 = Some x) by (rewrite Hids0; reflexivity).
    rewrite (makePairs_odd ids0 x a He0 Hhead).
    apply NoDup_app in Hnd as (Hnd0 & Hdisj & _).
    assert (Ha : a ∉ ids0).
    { intros Hin. apply (Hdisj a Hin). apply list_elem_of_singleton.
      reflexivity. }
    assert (Hx : x ∈ ids0) by (rewrite Hids0; apply list_elem_of_here).
    assert (Hxa : x <> a) by (intros ->; contradiction).
    split; [|split; [|split]].
    + rewrite length_app, consecutive_length. cbn [length].
      apply Nat.even_spec in He0. destruct He0 as [k Hk]. rewrite Hk.
      replace (2 * k + 1 + 1)%nat with ((k + 1) * 2)%nat by lia.
      rewrite Nat.mul_comm at 1. rewrite !Nat.div_mul by lia. reflexivity.
    + apply Forall_app. split; [apply consecutive_distinct, Hnd0|].
      constructor; [cbn; congruence|constructor].
    + discriminate.
    + intros _. exists x, a.
      split; [rewrite Hids0; reflexivity|]. split; [apply last_snoc|].
      split; [apply last_snoc|].
      split; [apply elem_of_app; left; exact Hx|].
      split.
      * rewrite appearances_app, appearances_member by assumption.
        rewrite appearances_cons. cbn.
        destruct (decide _) as [_|Hn]; [reflexivity|tauto].
      * intros u Hu Hux. rewrite appearances_app, appearances_cons. cbn.
        apply elem_of_app in Hu as [Hu|Hu].
        -- rewrite appearances_member by assumption.
           destruct (decide _) as [[?|?]|_];
             [subst; contradiction|congruence|reflexivity].
        -- apply list_elem_of_singleton in Hu. subst u.
           rewrite appearances_outsider by exact Ha.
           destruct (decide _) as [_|Hn]; [reflexivity|tauto].
Qed.
End Appearances.

(** ** The planner: random draws and the batch *)

Lemma sameButRandom_refl w : sameButRandom w w.
Proof. repeat split. Qed.

Lemma sameButRandom_trans w1 w2 w3 :
  sameButRandom w1 w2 -> sameButRandom w2 w3 -> sameButRandom w1 w3.
Proof.
  unfold sameButRandom. intros (?&?&?&?&?&?&?&?&?) (?&?&?&?&?&?&?&?&?).
  repeat split; congruence.
Qed.

Lemma Math_floor_random_run n w :
  exists w', Math_floor_random n w = (Return (random w O * n / 2 ^ 53), w')
    /\ sameButRandom w w' /\ (randomOk w -> randomOk w').
Proof.
  eexists. split; [reflexivity|]. split; [repeat split|].
  intros Hok n'. apply Hok.
Qed.

Lemma shuffleLoop_run {A} (i : nat) (l : list A) w :
  exists l' w', shuffleLoop i l w = (Return l', w')
    /\ l' ≡ₚ l /\ sameButRandom w w' /\ (randomOk w -> randomOk w').
Proof.
  revert l w. induction i as [|i IH]; intros l w.
  - exists l, w. split; [reflexivity|]. split; [reflexivity|].
    split; [apply sameButRandom_refl|auto].
  - cbn [shuffleLoop]. unfold bind at 1.
    destruct (Math_floor_random_run (Z.of_nat (S i) + 1) w)
      as (w1 & -> & Hs1 & Hok1).
    destruct (IH (swap (S i) (Z.to_nat (random w 0%nat * (Z.of_nat (S i) + 1)
                                        / 2 ^ 53)) l) w1)
      as (l' & w' & -> & Hp & Hs & Hok).
    exists l', w'. split; [reflexivity|].
    split; [rewrite Hp; apply swap_Permutation|].
    split; [eapply sameButRandom_trans; eassumption|auto].
Qed.

Lemma templates_valid :
  Forall validContent AUTO_MESSAGE_TEMPLATES.
Proof.
  unfold validContent.
  repeat (constructor; [vm_compute; split; lia|]). constructor.
Qed.

Lemma getRandomMessage_run w :
  randomOk w ->
  exists c w', getRandomMessage w = (Return c, w')
    /\ c ∈ AUTO_MESSAGE_TEMPLATES /\ sameButRandom w w' /\ randomOk w'.
Proof.
  intros Hok. unfold getRandomMessage, bind.
  destruct (Math_floor_random_run
              (Z.of_nat (length AUTO_MESSAGE_TEMPLATES)) w)
    as (w1 & -> & Hs1 & Hok1).
  pose proof (Math_floor_random_range (random w 0%nat) 15 (Hok 0%nat))
    as Hr.
  assert (Hlt : (Z.to_nat (random w 0%nat
                           * Z.of_nat (length AUTO_MESSAGE_TEMPLATES)
                           / 2 ^ 53) < length AUTO_MESSAGE_TEMPLATES)%nat).
  { change (length AUTO_MESSAGE_TEMPLATES) with 15%nat in *. lia. }
  destruct (lookup_lt_is_Some_2 _ _ Hlt) as [c Hc].
  exists c, w1. unfold ret. unfold JSString in *. rewrite Hc. cbn [default].
  split; [reflexivity|]. split; [|auto].
  apply list_elem_of_lookup. eauto.
Qed.

Lemma getRandomSendDate_run elapsed w :
  0 <= random w 0%nat < 2 ^ 53 -> 0 <= random w 1%nat < 2 ^ 53 ->
  exists sendDate w', getRandomSendDate elapsed w = (Return sendDate, w')
    /\ inWindow (clock w + elapsed) sendDate
    /\ sameButRandom w w' /\ (randomOk w -> randomOk w').
Proof.
  intros H0 H1.
  exists (clock w + elapsed
          + (random w 0%nat * 24 / 2 ^ 53 + 1) * 60 * 60 * 1000
          + random w 1%nat * 60 / 2 ^ 53 * 60 * 1000),
         (set_random (fun i => random w (S (S i))) w).
  split; [reflexivity|].
  pose proof (Math_floor_random_range _ 24 H0).
  pose proof (Math_floor_random_range _ 60 H1).
  split; [|split; [repeat split|]].
  - unfold inWindow, hour. cbn [clock set_random]. lia.
  - intros Hok n. cbn. apply Hok.
Qed.

Lemma draftOf_run elapsed pair w :
  randomOk w ->
  exists d w', draftOf elapsed pair w = (Return d, w')
    /\ d_sender d = User._id (fst pair)
    /\ d_receiver d = User._id (snd pair)
    /\ d_content d ∈ AUTO_MESSAGE_TEMPLATES
    /\ inWindow (clock w + elapsed) (d_sendDate d)
    /\ sameButRandom w w' /\ randomOk w'.
Proof.
  intros Hok. unfold draftOf. unfold bind at 1.
  destruct (getRandomMessage_run w Hok) as (c & w1 & -> & Hc & Hs1 & Hok1).
  unfold bind.
  destruct (getRandomSendDate_run elapsed w1 (Hok1 0%nat) (Hok1 1%nat))
    as (sd & w2 & -> & Hwin & Hs2 & Hok2).
  eexists. eexists. split; [reflexivity|]. cbn.
  assert (Hclock : clock w1 = clock w) by apply Hs1.
  rewrite Hclock in Hwin.
  split; [reflexivity|]. split; [reflexivity|]. split; [exact Hc|].
  split; [exact Hwin|].
  split; [eapply sameButRandom_trans; eassumption|auto].
Qed.

(** The [i]-th draft has its send date in the window that opens at the
    [i]-th reading of the clock. *)
Lemma mapAsyncFrom_draftOf_run (elapsed : nat -> Z) pairs k w :
  randomOk w ->
  exists drafts w',
    mapAsyncFrom k (fun i => draftOf (elapsed i)) pairs w
    = (Return drafts, w')
    /\ map (fun d => (d_sender d, d_receiver d)) drafts
       = map (fun p => (User._id (fst p), User._id (snd p))) pairs
    /\ Forall (fun d => d_content d ∈ AUTO_MESSAGE_TEMPLATES) drafts
    /\ (forall i d, drafts !! i = Some d ->
          inWindow (clock w + elapsed (k + i)%nat) (d_sendDate d))
    /\ sameButRandom w w' /\ randomOk w'.
Proof.
  revert k w. induction pairs as [|pair pairs IH]; intros k w Hok.
  - exists [], w. split; [reflexivity|]. split; [reflexivity|].
    split; [constructor|]. split; [intros i d Hi; discriminate Hi|].
    split; [apply sameButRandom_refl|exact Hok].
  - cbn [mapAsyncFrom]. unfold bind at 1.
    destruct (draftOf_run (elapsed k) pair w Hok)
      as (d & w1 & -> & Hs & Hr & Hc & Hwin & Hs1 & Hok1).
    unfold bind at 1.
    destruct (IH (S k) w1 Hok1)
      as (ds & w2 & -> & Hmap & Hall & Hdates & Hs2 & Hok2).
    exists (d :: ds), w2. split; [reflexivity|].
    assert (Hclock : clock w1 = clock w) by apply Hs1.
    split; [cbn; rewrite Hs, Hr, Hmap; reflexivity|].
    split; [constructor; assumption|].
    split; [|split; [eapply sameButRandom_trans; eassumption|exact Hok2]].
    intros [|i] d' Hi.
    + injection Hi as <-. rewrite Nat.add_0_r. exact Hwin.
    + cbn in Hi. rewrite <- Hclock.
      replace (k + S i)%nat with (S k + i)%nat by lia.
      apply Hdates, Hi.
Qed.

(** The documents [insertMany] builds take consecutive fresh ids, and each
    takes the time at which it is built as its creation time. *)
Lemma buildDocs_run (elapsed : nat -> Z) drafts k w :
  exists docs,
    mapAsyncFrom k (fun i d =>
      id <- new_ObjectId ;;
      now <- new_Date_after (elapsed i) ;;
      ret (AutoMessage.fresh id now (d_sender d) (d_receiver d)
             (d_content d) (d_sendDate d))) drafts w
    = (Return docs,
       set_nextId (nextId w + N.of_nat (length drafts))%N w)
    /\ Forall2 (fun dr doc => exists id now,
         doc = AutoMessage.fresh id now (d_sender dr) (d_receiver dr)
                 (d_content dr) (d_sendDate dr)) drafts docs
    /\ (forall i doc, docs !! i = Some doc ->
          AutoMessage.createdAt doc = clock w + elapsed (k + i)%nat).
Proof.
  revert k w. induction drafts as [|dr drafts IH]; intros k w.
  - exists []. split; [|split; [constructor|intros i d Hi; discriminate Hi]].
    cbn. unfold ret, set_nextId.
    rewrite N.add_0_r. destruct w; reflexivity.
  - destruct (IH (S k) (set_nextId (nextId w + 1)%N w))
      as (docs & Hrun & Hall & Hdates).
    exists (AutoMessage.fresh (nextId w) (clock w + elapsed k) (d_sender dr)
              (d_receiver dr) (d_content dr) (d_sendDate dr) :: docs).
    split; [|split].
    + cbn [mapAsyncFrom]. unfold bind at 1. unfold bind at 1.
      unfold bind at 1.
      cbn [new_ObjectId new_Date_after ret]. unfold bind at 1.
      cbv beta iota. cbn [clock set_nextId]. rewrite Hrun. cbn [ret length].
      unfold set_nextId. cbn. do 2 f_equal. lia.
    + constructor; [eexists; eexists; reflexivity|exact Hall].
    + intros [|i] doc Hi.
      * injection Hi as <-. rewrite Nat.add_0_r. reflexivity.
      * cbn in Hi. replace (k + S i)%nat with (S k + i)%nat by lia.
        apply (Hdates i doc Hi).
Qed.

Lemma fresh_valid id now s r c sd :
  validContent c ->
  AutoMessage.validate (AutoMessage.fresh id now s r c sd) = None.
Proof.
  unfold validContent, AutoMessage.validate, AutoMessage.fresh.
  cbn [AutoMessage.content]. intros [Hpos Hle].
  destruct (Nat.eqb_spec (length (trim c)) 0); [lia|].
  destruct (Nat.ltb_spec 1000 (length (trim c))); [lia|reflexivity].
Qed.

Lemma insertMany_run (elapsed : nat -> Z) drafts w :
  Forall (fun d => validContent (d_content d)) drafts ->
  exists docs w', insertMany None elapsed drafts w = (Return docs, w')
    /\ automessages w' = automessages w ++ docs
    /\ users w' = users w /\ clock w' = clock w
    /\ Forall2 (fun dr doc => exists id now,
         doc = AutoMessage.fresh id now (d_sender dr) (d_receiver dr)
                 (d_content dr) (d_sendDate dr)) drafts docs
    /\ (forall i doc, docs !! i = Some doc ->
          AutoMessage.createdAt doc = clock w + elapsed i).
Proof.
  intros Hvalid. unfold insertMany, mapAsync. unfold bind at 1.
  destruct (buildDocs_run elapsed drafts 0 w) as (docs & -> & Hall & Hdates).
  assert (Hnone : omap AutoMessage.validate docs = []).
  { clear -Hvalid Hall.
    induction Hall as [|dr doc drafts docs (id & now & ->) _ IH];
      [reflexivity|].
    apply Forall_cons in Hvalid as [Hv Hvalid]. cbn.
    rewrite (fresh_valid _ _ _ _ _ _ Hv). apply IH, Hvalid. }
  rewrite Hnone. cbn [head].
  eexists. eexists. split; [reflexivity|]. cbn.
  repeat split; [exact Hall|exact Hdates].
Qed.

Lemma Forall2_fresh_parties drafts docs :
  Forall2 (fun dr doc => exists id now,
    doc = AutoMessage.fresh id now (d_sender dr) (d_receiver dr)
            (d_content dr) (d_sendDate dr)) drafts docs ->
  map parties docs = map (fun d => (d_sender d, d_receiver d)) drafts
  /\ Forall2 (fun dr doc => AutoMessage.sendDate doc = d_sendDate dr)
       drafts docs.
Proof.
  induction 1 as [|dr doc drafts docs (id & now & ->) _ [IH1 IH2]].
  - split; [reflexivity|constructor].
  - split; [cbn; rewrite IH1; reflexivity|].
    constructor; [reflexivity|exact IH2].
Qed.

(** What a planner run does when the database answers: the [i]-th record
    it creates has the time of the [i]-th reading of the clock by
    [insertMany] as its creation time, and its send date in the window
    that opens at the [i]-th reading by [getRandomSendDate]. *)
Lemma createAutoMessages_run lapse w :
  randomOk w ->
  exists w', createAutoMessages noFailure lapse w = (Return tt, w')
    /\ ((length (User.findActive (users w)) < 2)%nat -> w' = w)
    /\ ((2 <= length (User.findActive (users w)))%nat ->
        exists shuffled docs,
          shuffled ≡ₚ User.findActive (users w)
          /\ automessages w' = automessages w ++ docs
          /\ map parties docs = makePairs (map User._id shuffled)
          /\ forall i d, docs !! i = Some d ->
               AutoMessage.createdAt d = clock w + lapse (PcCreatedAt i)
               /\ inWindow (clock w + lapse (PcSendDate i))
                    (AutoMessage.sendDate d)).
Proof.
  intros Hok. unfold createAutoMessages, tryCatch, noFailure.
  unfold bind at 1. cbn [await ret]. unfold bind at 1. cbn [get].
  destruct (length (User.findActive (users w)) <? 2)%nat eqn:Hn.
  - exists w. split; [reflexivity|]. apply Nat.ltb_lt in Hn.
    split; [reflexivity|lia].
  - apply Nat.ltb_ge in Hn. unfold bind at 1. unfold shuffleArray.
    destruct (shuffleLoop_run (length (User.findActive (users w)) - 1)
                (User.findActive (users w)) w)
      as (shuffled & w1 & -> & Hperm & Hs1 & Hok1).
    unfold bind at 1. unfold mapAsync at 1.
    destruct (mapAsyncFrom_draftOf_run (fun i => lapse (PcSendDate i))
                (makePairs shuffled) 0 w1 (Hok1 Hok))
      as (drafts & w2 & -> & Hmap & Hall & Hwin & Hs2 & Hok2).
    unfold bind at 1.
    assert (Hvalid : Forall (fun d => validContent (d_content d)) drafts).
    { eapply Forall_impl; [exact Hall|]. intros d Hc.
      pose proof templates_valid as Ht. rewrite Forall_forall in Ht.
      apply Ht, Hc. }
    destruct (insertMany_run (fun i => lapse (PcCreatedAt i)) drafts w2
                Hvalid)
      as (docs & w3 & -> & Ham & _ & _ & Hfresh & Hcreated).
    exists w3. split; [reflexivity|]. split; [lia|]. intros _.
    exists shuffled, docs. split; [exact Hperm|].
    assert (H12 : sameButRandom w w2)
      by (eapply sameButRandom_trans; eassumption).
    destruct H12 as (_ & _ & _ & Ham2 & _ & _ & _ & _ & Hc2).
    assert (Hc1 : clock w1 = clock w) by apply Hs1.
    destruct (Forall2_fresh_parties _ _ Hfresh) as [Hparties Hdates].
    split; [rewrite Ham, Ham2; reflexivity|].
    split; [rewrite Hparties, Hmap, makePairs_map; reflexivity|].
    intros i d Hi. split.
    + rewrite <- Hc2. apply Hcreated, Hi.
    + destruct (Forall2_lookup_r _ _ _ _ _ Hdates Hi) as (dr & Hdr & ->).
      rewrite <- Hc1. apply (Hwin i dr Hdr).
Qed.

Lemma findActive_NoDup us :
  NoDup (map User._id us) -> NoDup (map User._id (User.findActive us)).
Proof.
  induction us as [|u us IH]; intros Hnd; [constructor|].
  cbn in Hnd. apply NoDup_cons in Hnd as [Hu Hnd].
  unfold User.findActive in *. cbn. destruct (User.isActive u); [|auto].
  cbn. apply NoDup_cons. split; [|auto].
  intros Hin. apply Hu. apply list_elem_of_In in Hin.
  apply list_elem_of_In. apply in_map_iff in Hin as (u' & Hid & Hin).
  apply in_map_iff. exists u'. split; [exact Hid|].
  apply filter_In in Hin. tauto.
Qed.

Lemma plannerWorld_randomOk : randomOk plannerWorld.
Proof. intros n. cbn [plannerWorld random]. apply Z.mod_pos_bound. lia. Qed.

(** C6. With the database answering and distinct user ids, a planner run
    over [n] active users adds no record when [n < 2]; when [n >= 2] it adds
    exactly [ceil(n / 2)] records, each with a sender other than its
    receiver, their pairs being those of a permutation of the active users;
    for even [n] every active user is in exactly one pair; for odd [n] the
    last pair is the wrap-around pair of the last and the first element of
    the permutation, that first element is in two pairs and every other
    user in exactly one. *)
Theorem createAutoMessages_pairs (w : World) (lapse : PlannerClock -> Z) :
  randomOk w -> NoDup (map User._id (users w)) ->
  let active := map User._id (User.findActive (users w)) in
  let n := length active in
  let w' := snd (createAutoMessages noFailure lapse w) in
  let pairs := map parties (created w w') in
  automessages w' = automessages w ++ created w w'
  /\ ((n < 2)%nat -> created w w' = [])
  /\ ((2 <= n)%nat ->
      length (created w w') = ((n + 1) / 2)%nat
      /\ Forall (fun d => AutoMessage.sender d <> AutoMessage.receiver d)
           (created w w')
      /\ (Nat.even n = true ->
          forall u, u ∈ active -> appearances u pairs = 1%nat)
      /\ exists shuffled,
          shuffled ≡ₚ active /\ pairs = makePairs shuffled
          /\ (Nat.even n = false ->
              exists x z,
                head shuffled = Some x /\ last shuffled = Some z
                /\ last pairs = Some (z, x)
                /\ x ∈ active /\ appearances x pairs = 2%nat
                /\ forall u, u ∈ active -> u <> x ->
                     appearances u pairs = 1%nat)).
Proof.
  intros Hok Hnd active n w' pairs.
  destruct (createAutoMessages_run lapse w Hok)
    as (w1 & Hrun & Hfew & Hmany).
  assert (Hw' : w' = w1) by (subst w'; rewrite Hrun; reflexivity).
  assert (Hn : n = length (User.findActive (users w)))
    by (subst n active; apply length_map).
  destruct (Nat.lt_ge_cases n 2) as [Hlt|Hge].
  - rewrite Hn in Hlt. specialize (Hfew Hlt).
    assert (Hcr : created w w' = []).
    { rewrite Hw', Hfew. unfold created. apply drop_ge. lia. }
    rewrite Hcr, app_nil_r. split; [congruence|]. split; [auto|lia].
  - pose proof Hge as Hge'. rewrite Hn in Hge'.
    destruct (Hmany Hge') as (shuffled & docs & Hperm & Ham & Hpairs & _).
    assert (Hcr : created w w' = docs).
    { rewrite Hw'. unfold created. rewrite Ham. apply drop_app_length. }
    split; [rewrite Hcr, Hw'; exact Ham|]. split; [lia|]. intros _.
    assert (Hperm' : map User._id shuffled ≡ₚ active)
      by (subst active; apply fmap_Permutation, Hperm).
    assert (Hnd' : NoDup (map User._id shuffled)).
    { rewrite Hperm'. apply findActive_NoDup, Hnd. }
    assert (Hlen' : length (map User._id shuffled) = n)
      by (rewrite Hperm'; reflexivity).
    destruct (makePairs_spec (map User._id shuffled) Hnd')
      as (Hcount & Hdistinct & Heven & Hodd); [lia|].
    assert (Hp : pairs = makePairs (map User._id shuffled))
      by (subst pairs; rewrite Hcr; exact Hpairs).
    rewrite Hlen' in *.
    split; [|split; [|split]].
    + rewrite <- Hcount, <- Hpairs, Hcr. symmetry. apply length_map.
    + rewrite Hcr. rewrite <- Hpairs in Hdistinct.
      clear -Hdistinct. induction docs as [|d docs IH]; [constructor|].
      cbn in Hdistinct. apply Forall_cons in Hdistinct as [Hd Hdistinct].
      constructor; [exact Hd|apply IH, Hdistinct].
    + intros He u Hu. rewrite Hp. apply Heven; [exact He|].
      rewrite Hperm'. exact Hu.
    + exists (map User._id shuffled). split; [exact Hperm'|].
      split; [exact Hp|].
      intros He. destruct (Hodd He) as (x & z & Hhd & Hlast & Hwrap & Hx & H2 & H1).
      exists x, z. rewrite Hp. split; [exact Hhd|]. split; [exact Hlast|].
      split; [exact Hwrap|]. split; [rewrite <- Hperm'; exact Hx|].
      split; [exact H2|]. intros u Hu Hux. apply H1; [|exact Hux].
      rewrite Hperm'. exact Hu.
Qed.

Lemma createAutoMessages_pairs_witness :
  length (created plannerWorld
            (snd (createAutoMessages noFailure fiveLater plannerWorld)))
  = 2%nat.
Proof.
  assert (Hnd : NoDup (map User._id (users plannerWorld))).
  { apply (bool_decide_unpack _). vm_compute. exact I. }
  pose proof (createAutoMessages_pairs plannerWorld fiveLater
                plannerWorld_randomOk Hnd)
    as (_ & _ & Hmany).
  apply Hmany. vm_compute. lia.
Defined.

(** C7, as stated, fails.  The send date is drawn from the clock inside
    [pairs.map]; the creation time is read by [insertMany], after the map
    has returned.  With the random numbers all 0 and five milliseconds
    between the two readings, the record is created at 1005 with the send
    date 1000 + one hour: 3599995 ms after its creation, which is less than
    one hour. *)
Lemma sendDate_window_not_from_creation :
  let w' := snd (createAutoMessages noFailure fiveLater earliestWorld) in
  map (fun d => (AutoMessage.createdAt d, AutoMessage.sendDate d))
    (created earliestWorld w') = [(1005, 1000 + hour)]
  /\ map (fun d => AutoMessage.sendDate d - AutoMessage.createdAt d)
       (created earliestWorld w') = [3599995]
  /\ ~ Forall (fun d =>
         AutoMessage.createdAt d < AutoMessage.sendDate d
         /\ AutoMessage.createdAt d + hour <= AutoMessage.sendDate d
             < AutoMessage.createdAt d + 25 * hour)
       (created earliestWorld w').
Proof.
  cbv zeta.
  assert (Hcreated : exists d,
    created earliestWorld
      (snd (createAutoMessages noFailure fiveLater earliestWorld)) = [d]
    /\ AutoMessage.createdAt d = 1005
    /\ AutoMessage.sendDate d = 3601000).
  { eexists. split; [vm_compute; reflexivity|]. split; reflexivity. }
  destruct Hcreated as (d & -> & Hc & Hs).
  split; [cbn; rewrite Hc, Hs; reflexivity|].
  split; [cbn; rewrite Hc, Hs; reflexivity|].
  intros Hall. apply Forall_inv in Hall. rewrite Hc, Hs in Hall.
  unfold hour in Hall. lia.
Qed.

(** C7, amended.  Whatever the random numbers, the send date
    [getRandomSendDate] returns is strictly later than the time at which it
    reads the clock and lies from one hour (included) to 25 hours (excluded)
    after it; so does the send date of every record a planner run creates,
    with respect to the time at which the send date was drawn.  The creation
    time of the record is read later, by [insertMany]: when the clock has
    not gone back in between, the send date is earlier than 25 hours after
    the creation; it is strictly later than the creation when less than one
    hour has passed between the two readings, and in the window of the
    creation time when none has. *)
Theorem sendDate_window (w : World) (lapse : PlannerClock -> Z) :
  randomOk w ->
  (forall elapsed, exists sendDate w',
     getRandomSendDate elapsed w = (Return sendDate, w')
     /\ clock w + elapsed < sendDate
     /\ clock w + elapsed + hour <= sendDate < clock w + elapsed + 25 * hour)
  /\ (forall i d,
        created w (snd (createAutoMessages noFailure lapse w)) !! i = Some d ->
        let drawn := clock w + lapse (PcSendDate i) in
        let passed := lapse (PcCreatedAt i) - lapse (PcSendDate i) in
        drawn < AutoMessage.sendDate d
        /\ drawn + hour <= AutoMessage.sendDate d < drawn + 25 * hour
        /\ AutoMessage.createdAt d = drawn + passed
        /\ AutoMessage.createdAt d + hour - passed <= AutoMessage.sendDate d
            < AutoMessage.createdAt d + 25 * hour - passed
        /\ (0 <= passed ->
            AutoMessage.sendDate d < AutoMessage.createdAt d + 25 * hour)
        /\ (passed < hour ->
            AutoMessage.createdAt d < AutoMessage.sendDate d)
        /\ (passed = 0 ->
            AutoMessage.createdAt d + hour <= AutoMessage.sendDate d
            < AutoMessage.createdAt d + 25 * hour)).
Proof.
  intros Hok. split.
  - intros elapsed.
    destruct (getRandomSendDate_run elapsed w (Hok 0%nat) (Hok 1%nat))
      as (sd & w1 & Hrun & Hwin & _).
    exists sd, w1. split; [exact Hrun|exact Hwin].
  - intros i d. destruct (createAutoMessages_run lapse w Hok)
      as (w1 & Hrun & Hfew & Hmany).
    rewrite Hrun. cbn [snd].
    destruct (Nat.lt_ge_cases (length (User.findActive (users w))) 2)
      as [Hlt|Hge].
    + rewrite (Hfew Hlt). unfold created. rewrite drop_ge by lia.
      intros Hi. discriminate Hi.
    + destruct (Hmany Hge) as (shuffled & docs & _ & Ham & _ & Hall).
      unfold created. rewrite Ham, drop_app_length. intros Hi.
      destruct (Hall i d Hi) as (Hc & Hlt & Hlo & Hhi).
      cbv zeta. rewrite Hc. repeat split; lia.
Qed.

Lemma sendDate_window_witness :
  Forall (fun d =>
    AutoMessage.createdAt d < AutoMessage.sendDate d
    /\ AutoMessage.sendDate d < AutoMessage.createdAt d + 25 * hour)
    (created earliestWorld
       (snd (createAutoMessages noFailure fiveLater earliestWorld))).
Proof.
  assert (Hok : randomOk earliestWorld).
  { intros n. cbn [earliestWorld random]. lia. }
  apply Forall_lookup. intros i d Hi.
  destruct (sendDate_window earliestWorld fiveLater Hok) as [_ Hcreated].
  destruct (Hcreated i d Hi) as (_ & _ & _ & _ & Hupper & Hlater & _).
  split; [apply Hlater|apply Hupper]; vm_compute; congruence.
Defined.

(** ** The retention sweep *)


(** C8. The retention sweep deletes exactly the records that are sent and
    were created more than 30 calendar days before the sweep: a sent record
    created 31 days before it is deleted, a sent record created 29 days
    before it stays, and a record that is not sent stays whatever its
    age. *)
Theorem cleanupOldMessages_exact (w : World) (offsetChange : Z) :
  - day < offsetChange < day ->
  let w' := snd (cleanupOldMessages None offsetChange w) in
  fst (cleanupOldMessages None offsetChange w) = Return tt
  /\ (forall d, d ∈ automessages w' <->
         d ∈ automessages w
         /\ ~ (AutoMessage.isSent d = true
               /\ AutoMessage.createdAt d
                  < clock w - 30 * day + offsetChange))
  /\ (forall d, d ∈ automessages w -> AutoMessage.isSent d = true ->
         AutoMessage.createdAt d = clock w - 31 * day ->
         d ∉ automessages w')
  /\ (forall d, d ∈ automessages w -> AutoMessage.isSent d = true ->
         AutoMessage.createdAt d = clock w - 29 * day ->
         d ∈ automessages w')
  /\ (forall d, d ∈ automessages w -> AutoMessage.isSent d = false ->
         d ∈ automessages w').
Proof.
  intros Hshift w'.
  assert (Hin : forall d, d ∈ automessages w' <->
            d ∈ automessages w
            /\ ~ (AutoMessage.isSent d = true
                  /\ AutoMessage.createdAt d
                     < clock w - 30 * day + offsetChange)).
  { intros d. subst w'. cbn. unfold AutoMessage.deleteMany.
    rewrite !list_elem_of_In, filter_In, negb_true_iff.
    unfold oldAndSent, thirtyDaysBefore, day.
    rewrite andb_false_iff, Z.ltb_ge.
    split; intros [Hd Hc]; (split; [exact Hd|]).
    - intros [Hs Hlt]. destruct Hc as [Hc|Hc]; [lia|congruence].
    - destruct (AutoMessage.isSent d); [left|right; reflexivity].
      apply Z.nlt_ge. intros Hlt. apply Hc. split; [reflexivity|lia]. }
  split; [reflexivity|]. split; [exact Hin|].
  unfold day in *. repeat split.
  - intros d Hd Hs Hc. rewrite Hin. intros [_ Hn]. apply Hn.
    split; [exact Hs|lia].
  - intros d Hd Hs Hc. rewrite Hin. split; [exact Hd|]. intros [_ Hlt]. lia.
  - intros d Hd Hs. rewrite Hin. split; [exact Hd|]. intros [Hs' _].
    congruence.
Qed.

Lemma cleanupOldMessages_exact_witness :
  map AutoMessage._id
    (automessages (snd (cleanupOldMessages None 0 sweepWorld))) = [2; 3]%N
  /\ forall d, d ∈ automessages sweepWorld ->
       AutoMessage.isSent d = false ->
       d ∈ automessages (snd (cleanupOldMessages None 0 sweepWorld)).
Proof.
  split; [reflexivity|].
  apply (cleanupOldMessages_exact sweepWorld 0). unfold day. lia.
Defined.

(** ** Frames *)

Section Frames.
Context {F : Type} (proj : World -> F).

Lemma keeps_ret {A} (a : A) : keeps proj (ret a).
Proof. intros w. reflexivity. Qed.

Lemma keeps_throw {A} e : keeps proj (@throw A e).
Proof. intros w. reflexivity. Qed.

Lemma keeps_await o : keeps proj (await o).
Proof. intros w. destruct o; reflexivity. Qed.

Lemma keeps_get : keeps proj get.
Proof. intros w. reflexivity. Qed.

Lemma keeps_new_Date : keeps proj new_Date.
Proof. intros w. reflexivity. Qed.

Lemma keeps_modify f :
  (forall w, proj (f w) = proj w) -> keeps proj (modify f).
Proof. intros Hf w. apply Hf. Qed.

Lemma keeps_bind {A B} (m : Async A) (k : A -> Async B) :
  keeps proj m -> (forall a, keeps proj (k a)) -> keeps proj (bind m k).
Proof.
  intros Hm Hk w. unfold bind. specialize (Hm w).
  destruct (m w) as [[a|e] w1]; cbn in *; [|exact Hm].
  rewrite Hk. exact Hm.
Qed.

Lemma keeps_tryCatch {A} (m : Async A) h :
  keeps proj m -> (forall e, keeps proj (h e)) ->
  keeps proj (tryCatch m h).
Proof.
  intros Hm Hh w. unfold tryCatch. specialize (Hm w).
  destruct (m w) as [[a|e] w1]; cbn in *; [exact Hm|].
  rewrite Hh. exact Hm.
Qed.

Lemma keeps_attempt {A} (m : Async A) :
  keeps proj m -> keeps proj (attempt m).
Proof.
  intros Hm w. unfold attempt. specialize (Hm w).
  destruct (m w) as [[a|e] w1]; exact Hm.
Qed.

Lemma keepsOnThrow_keeps {A} (m : Async A) :
  keeps proj m -> keepsOnThrow proj m.
Proof. intros Hm w e w' Hrun. specialize (Hm w). rewrite Hrun in Hm. exact Hm. Qed.

Lemma keepsOnThrow_bind {A B} (m : Async A) (k : A -> Async B) :
  keeps proj m -> (forall a, keepsOnThrow proj (k a)) ->
  keepsOnThrow proj (bind m k).
Proof.
  intros Hm Hk w e w'. unfold bind. specialize (Hm w).
  destruct (m w) as [[a|e1] w1]; cbn in *.
  - intros Hrun. rewrite (Hk _ _ _ _ Hrun). exact Hm.
  - intros [= _ <-]. exact Hm.
Qed.
End Frames.

Ltac keeps_step :=
  first
    [ apply keeps_ret | apply keeps_throw | apply keeps_await
    | apply keeps_get | apply keeps_new_Date
    | apply keeps_bind; [|intros ?]
    | apply keeps_tryCatch; [|intros ?]
    | apply keeps_attempt
    | apply keeps_modify; intros ?; solve [auto]
    | match goal with
      | |- keeps _ (match ?x with _ => _ end) => destruct x
      | |- keeps _ (let _ := _ in _) => cbv zeta
      end ].

Ltac keeps := repeat keeps_step.

(** What the calls of the consumer leave alone: a component that the
    writes to conversations, messages, emitted events and the id counter do
    not touch. *)
Section ConsumerFrames.
Context {F : Type} (proj : World -> F).
Hypothesis Hconversations :
  forall v w, proj (set_conversations v w) = proj w.
Hypothesis Hmessages : forall v w, proj (set_messages v w) = proj w.
Hypothesis Hemitted : forall v w, proj (set_emitted v w) = proj w.
Hypothesis HnextId : forall v w, proj (set_nextId v w) = proj w.

Lemma keeps_new_ObjectId : keeps proj new_ObjectId.
Proof. intros w. apply HnextId. Qed.

Lemma keeps_emitToUser u ev mid cid :
  keeps proj (emitToUser u ev mid cid).
Proof.
  intros w. unfold emitToUser. destruct (io w); cbn; [apply Hemitted|auto].
Qed.

Lemma keeps_findOrCreateConversation o1 o2 o3 a b :
  keeps proj (findOrCreateConversation o1 o2 o3 a b).
Proof.
  unfold findOrCreateConversation, lookupConversation, createConversation.
  keeps. apply keeps_new_ObjectId.
Qed.

Lemma keeps_saveMessage o m : keeps proj (saveMessage o m).
Proof. unfold saveMessage. keeps. Qed.

Lemma keeps_saveConversation o loaded this :
  keeps proj (saveConversation o loaded this).
Proof. unfold saveConversation. keeps. Qed.

Lemma keeps_findAutoMessageById o id :
  keeps proj (findAutoMessageById o id).
Proof. unfold findAutoMessageById. keeps. Qed.

Lemma keepsOnThrow_saveAutoMessage o loaded this :
  keepsOnThrow proj (saveAutoMessage o loaded this).
Proof.
  intros w e w'. unfold saveAutoMessage.
  destruct (decide (loaded = this)); [discriminate|].
  destruct o as [m|]; cbn; [intros [= _ <-]; reflexivity|].
  unfold bind; cbn.
  destruct (AutoMessage.update _ _ _); cbn; [discriminate|].
  intros [= _ <-]. reflexivity.
Qed.

(** The [try] block, when it throws, has not touched [proj]. *)
Lemma keepsOnThrow_try infra p :
  keepsOnThrow proj (processAutoMessage_try infra p).
Proof.
  unfold processAutoMessage_try.
  apply keepsOnThrow_bind; [apply keeps_findOrCreateConversation|].
  intros [c|]; [|apply keepsOnThrow_keeps, keeps_throw].
  apply keepsOnThrow_bind; [apply keeps_new_ObjectId|]. intros id.
  apply keepsOnThrow_bind; [apply keeps_saveMessage|]. intros m.
  apply keepsOnThrow_bind; [apply keeps_new_Date|]. intros now.
  apply keepsOnThrow_bind; [apply keeps_saveConversation|]. intros _.
  apply keepsOnThrow_bind; [apply keeps_await|]. intros _.
  apply keepsOnThrow_bind; [apply keeps_emitToUser|]. intros _.
  apply keepsOnThrow_bind; [apply keeps_findAutoMessageById|].
  intros [am|]; [|apply keepsOnThrow_keeps, keeps_ret].
  apply keepsOnThrow_bind; [apply keeps_new_Date|]. intros now'.
  apply keepsOnThrow_saveAutoMessage.
Qed.

Hypothesis Hautomessages :
  forall v w, proj (set_automessages v w) = proj w.

Lemma keeps_saveAutoMessage o loaded this :
  keeps proj (saveAutoMessage o loaded this).
Proof. unfold saveAutoMessage. keeps. Qed.

(** The whole handler leaves [proj] alone when no write touches it. *)
Lemma keeps_processAutoMessage infra p :
  keeps proj (processAutoMessage infra p).
Proof.
  unfold processAutoMessage, processAutoMessage_try,
    processAutoMessage_catch.
  keeps;
    first [ apply keeps_findOrCreateConversation | apply keeps_new_ObjectId
          | apply keeps_saveMessage | apply keeps_saveConversation
          | apply keeps_emitToUser | apply keeps_findAutoMessageById
          | apply keeps_saveAutoMessage ].
Qed.
End ConsumerFrames.

(** ** Collections: lookup and update by id *)

Lemma AutoMessage_findById_id id coll d :
  AutoMessage.findById id coll = Some d -> AutoMessage._id d = id.
Proof.
  intros Hfind. apply find_some in Hfind as [_ Heq].
  apply N.eqb_eq, Heq.
Qed.

Lemma AutoMessage_update_found id f coll d :
  AutoMessage.findById id coll = Some d ->
  (forall x, AutoMessage._id (f x) = AutoMessage._id x) ->
  exists coll', AutoMessage.update id f coll = Some coll'
    /\ AutoMessage.findById id coll' = Some (f d).
Proof.
  intros Hfind Hf. induction coll as [|x coll IH]; [discriminate|].
  cbn in Hfind |- *. destruct (N.eqb (AutoMessage._id x) id) eqn:Hx.
  - injection Hfind as ->. eexists. split; [reflexivity|].
    cbn. rewrite Hf, Hx. reflexivity.
  - destruct (IH Hfind) as (coll' & -> & Hfind'). eexists.
    split; [reflexivity|]. cbn. rewrite Hx. exact Hfind'.
Qed.

Lemma Conversation_findById_unique coll c :
  NoDup (map Conversation._id coll) -> c ∈ coll ->
  Conversation.findById (Conversation._id c) coll = Some c.
Proof.
  induction coll as [|x coll IH]; intros Hnd Hin; [inversion Hin|].
  cbn in Hnd. apply NoDup_cons in Hnd as [Hx Hnd].
  apply elem_of_cons in Hin as [->|Hin]; cbn.
  - rewrite N.eqb_refl. reflexivity.
  - destruct (N.eqb_spec (Conversation._id x) (Conversation._id c)) as [He|_];
      [|apply IH; assumption].
    exfalso. apply Hx. rewrite He. apply list_elem_of_In, in_map.
    apply list_elem_of_In, Hin.
Qed.

Lemma Conversation_findById_fresh coll c :
  Forall (fun x => Conversation._id x <> Conversation._id c) coll ->
  Conversation.findById (Conversation._id c) (coll ++ [c]) = Some c.
Proof.
  induction 1 as [|x coll Hx _ IH]; cbn.
  - rewrite N.eqb_refl. reflexivity.
  - destruct (N.eqb_spec (Conversation._id x) (Conversation._id c));
      [contradiction|exact IH].
Qed.

Lemma Conversation_update_found id f coll c :
  Conversation.findById id coll = Some c ->
  (forall x, Conversation._id (f x) = Conversation._id x) ->
  exists coll', Conversation.update id f coll = Some coll'
    /\ Conversation.findById id coll' = Some (f c)
    /\ map Conversation._id coll' = map Conversation._id coll.
Proof.
  intros Hfind Hf. induction coll as [|x coll IH]; [discriminate|].
  cbn in Hfind |- *. destruct (N.eqb (Conversation._id x) id) eqn:Hx.
  - injection Hfind as ->. eexists. split; [reflexivity|].
    cbn. rewrite Hf, Hx. split; reflexivity.
  - destruct (IH Hfind) as (coll' & -> & Hfind' & Hids). eexists.
    split; [reflexivity|]. cbn. rewrite Hx, Hids. split; [exact Hfind'|].
    reflexivity.
Qed.

Lemma between_comm a b c :
  Conversation.between a b c = Conversation.between b a c.
Proof.
  unfold Conversation.between.
  rewrite (andb_comm (Conversation.includes a _)). reflexivity.
Qed.

Lemma findOne_between_comm a b coll :
  Conversation.findOne (Conversation.between a b) coll
  = Conversation.findOne (Conversation.between b a) coll.
Proof.
  unfold Conversation.findOne.
  induction coll as [|c coll IH]; [reflexivity|].
  cbn. rewrite between_comm, IH. reflexivity.
Qed.

Lemma find_app {A} (p : A -> bool) l l' :
  List.find p (l ++ l') =
  match List.find p l with Some x => Some x | None => List.find p l' end.
Proof.
  induction l as [|x l IH]; [reflexivity|].
  cbn. destruct (p x); [reflexivity|exact IH].
Qed.

Lemma between_fresh id now a b :
  Conversation.between a b (Conversation.fresh id now a b) = true
  /\ Conversation.between b a (Conversation.fresh id now a b) = true.
Proof.
  unfold Conversation.between, Conversation.includes. cbn.
  rewrite !N.eqb_refl, !orb_true_r. split; reflexivity.
Qed.

(** ** The conversation directory *)

Lemma findOrCreateConversation_run a b w :
  findOrCreateConversation None None None a b w =
  match Conversation.findOne (Conversation.between a b) (conversations w) with
  | Some c => (Return (Some c), w)
  | None =>
      let coll :=
        conversations w ++ [Conversation.fresh (nextId w) (clock w) a b] in
      (Return (Conversation.findById (nextId w) coll),
       set_conversations coll (set_nextId (nextId w + 1)%N w))
  end.
Proof.
  unfold findOrCreateConversation, tryCatch, lookupConversation,
    createConversation, bind. cbn.
  destruct (Conversation.findOne _ _); reflexivity.
Qed.

Lemma findById_created id now a b coll :
  exists c,
    Conversation.findById id (coll ++ [Conversation.fresh id now a b])
    = Some c /\ Conversation._id c = id.
Proof.
  unfold Conversation.findById. rewrite find_app.
  destruct (List.find _ coll) as [c|] eqn:Hfind.
  - exists c. split; [reflexivity|].
    apply find_some in Hfind as [_ Heq]. apply N.eqb_eq, Heq.
  - cbn. rewrite N.eqb_refl. eexists. split; reflexivity.
Qed.

(** A second call, in either order, after a first one has returned. *)
Lemma findOrCreateConversation_again a b a' b' w c :
  (a' = a /\ b' = b) \/ (a' = b /\ b' = a) ->
  fst (findOrCreateConversation None None None a b w) = Return (Some c) ->
  let w1 := snd (findOrCreateConversation None None None a b w) in
  exists c',
    findOrCreateConversation None None None a' b' w1 = (Return (Some c'), w1)
    /\ Conversation._id c' = Conversation._id c.
Proof.
  intros Horder Hc w1. subst w1. revert Hc.
  rewrite (findOrCreateConversation_run a b w).
  assert (Hsym : forall coll,
    Conversation.findOne (Conversation.between a' b') coll
    = Conversation.findOne (Conversation.between a b) coll).
  { intros coll. destruct Horder as [[-> ->]|[-> ->]];
      [reflexivity|apply findOne_between_comm]. }
  destruct (Conversation.findOne (Conversation.between a b) (conversations w))
    as [c0|] eqn:Hfind; cbn [fst snd].
  - intros [= ->]. rewrite findOrCreateConversation_run, Hsym, Hfind.
    eexists. split; reflexivity.
  - intros [= Hc]. rewrite findOrCreateConversation_run.
    cbn [conversations set_conversations].
    rewrite Hsym. unfold Conversation.findOne in *. rewrite find_app, Hfind.
    cbn [List.find]. rewrite (proj1 (between_fresh _ _ _ _)).
    eexists. split; [reflexivity|].
    destruct (findById_created (nextId w) (clock w) a b (conversations w))
      as (c1 & Hc1 & Hid).
    rewrite Hc1 in Hc. injection Hc as <-. rewrite Hid. reflexivity.
Qed.

(** C5, as stated, fails for concurrent calls: two calls for the same pair
    whose lookups are both answered before either creates end with two
    active conversations of the pair, of different ids. *)
Lemma concurrent_findOrCreate_diverges :
  exists c1 c2 w',
    overlappingFindOrCreate 1 2 scanWorld
    = (Return (Some c1), Return (Some c2), w')
    /\ Conversation._id c1 <> Conversation._id c2
    /\ map Conversation._id
         (List.filter (Conversation.between 1 2) (conversations w'))
       = [11; 12]%N.
Proof.
  eexists. eexists. eexists. split; [vm_compute; reflexivity|].
  split; [discriminate|reflexivity].
Qed.

(** C5, amended. For calls that do not overlap, [findOrCreateConversation]
    is order-independent and convergent: on the same store the calls for
    (A, B) and for (B, A) return a conversation of the same id, and a call
    for the pair, in either order, made after a first call has returned,
    returns a conversation of the id the first call returned and creates
    nothing. *)
Theorem findOrCreateConversation_converges (userA userB : ObjectId)
    (w : World) :
  let first := findOrCreateConversation None None None userA userB w in
  let swapped := findOrCreateConversation None None None userB userA w in
  let again :=
    findOrCreateConversation None None None userA userB (snd first) in
  let againSwapped :=
    findOrCreateConversation None None None userB userA (snd first) in
  exists c,
    fst first = Return (Some c)
    /\ (exists c', fst swapped = Return (Some c')
          /\ Conversation._id c' = Conversation._id c)
    /\ (exists c', again = (Return (Some c'), snd first)
          /\ Conversation._id c' = Conversation._id c)
    /\ (exists c', againSwapped = (Return (Some c'), snd first)
          /\ Conversation._id c' = Conversation._id c).
Proof.
  intros first swapped again againSwapped.
  assert (Hfirst : exists c, fst first = Return (Some c)
            /\ exists c', fst swapped = Return (Some c')
                 /\ Conversation._id c' = Conversation._id c).
  { subst first swapped. rewrite !findOrCreateConversation_run.
    rewrite <- (findOne_between_comm userA userB).
    destruct (Conversation.findOne _ _) as [c|]; cbn [fst].
    - exists c. split; [reflexivity|]. exists c. split; reflexivity.
    - destruct (findById_created (nextId w) (clock w) userA userB
                  (conversations w)) as (c & Hc & Hid).
      destruct (findById_created (nextId w) (clock w) userB userA
                  (conversations w)) as (c' & Hc' & Hid').
      exists c. rewrite Hc. split; [reflexivity|].
      exists c'. rewrite Hc'. split; [reflexivity|congruence]. }
  destruct Hfirst as (c & Hc & Hswapped). exists c.
  split; [exact Hc|]. split; [exact Hswapped|]. split.
  - apply (findOrCreateConversation_again userA userB userA userB w c);
      [left; split; reflexivity|exact Hc].
  - apply (findOrCreateConversation_again userA userB userB userA w c);
      [right; split; reflexivity|exact Hc].
Qed.

(** ** The consumer: a delivery that succeeds *)

Lemma findOrCreateConversation_ok a b w :
  wfConversations w ->
  exists c w1,
    findOrCreateConversation None None None a b w = (Return (Some c), w1)
    /\ Conversation.findById (Conversation._id c) (conversations w1) = Some c
    /\ wfConversations w1
    /\ (nextId w <= nextId w1)%N.
Proof.
  intros [Hnd Hlt]. rewrite findOrCreateConversation_run.
  destruct (Conversation.findOne _ _) as [c|] eqn:Hfind.
  - exists c, w. split; [reflexivity|].
    split; [|split; [split; assumption|lia]].
    apply find_some in Hfind as [Hin _].
    apply Conversation_findById_unique; [exact Hnd|].
    apply list_elem_of_In, Hin.
  - cbv zeta.
    set (c := Conversation.fresh (nextId w) (clock w) a b).
    assert (Hfresh : Forall (fun x => Conversation._id x <> Conversation._id c)
                       (conversations w)).
    { eapply Forall_impl; [exact Hlt|]. cbn. intros x Hx. lia. }
    change (nextId w) with (Conversation._id c) at 1.
    rewrite (Conversation_findById_fresh _ _ Hfresh).
    eexists. eexists. split; [reflexivity|].
    cbn [conversations set_conversations nextId set_nextId].
    split; [apply Conversation_findById_fresh, Hfresh|].
    split; [|lia]. unfold wfConversations.
    cbn [conversations set_conversations nextId set_nextId]. split.
    + rewrite map_app. apply NoDup_app. split; [exact Hnd|].
      split; [|cbn; apply NoDup_singleton].
      intros x Hx. cbn. rewrite list_elem_of_singleton. intros ->.
      apply list_elem_of_In, in_map_iff in Hx as (y & Hy & Hin).
      rewrite Forall_forall in Hfresh. apply (Hfresh y); [|exact Hy].
      apply list_elem_of_In, Hin.
    + apply Forall_app. split.
      * eapply Forall_impl; [exact Hlt|]. cbn. intros x Hx. lia.
      * constructor; [cbn; lia|constructor].
Qed.

Lemma Message_new_valid id s r cv c :
  validContent c ->
  Message.validate (Message.new id s r cv c Message.auto) = None.
Proof.
  unfold validContent, Message.validate, Message.new.
  cbn [Message.content]. intros [Hpos Hle].
  destruct (Nat.eqb_spec (length (trim c)) 0); [lia|].
  destruct (Nat.ltb_spec 1000 (length (trim c))); [lia|reflexivity].
Qed.

Lemma saveMessage_run m w :
  Message.validate m = None ->
  saveMessage None m w
  = (Return (Message.stamped (clock w) m),
     set_messages (messages w ++ [Message.stamped (clock w) m]) w).
Proof. intros Hv. unfold saveMessage. rewrite Hv. reflexivity. Qed.

Lemma set_conversations_same w : set_conversations (conversations w) w = w.
Proof. destruct w; reflexivity. Qed.

Lemma set_automessages_same w : set_automessages (automessages w) w = w.
Proof. destruct w; reflexivity. Qed.

Lemma saveConversation_run c this w :
  Conversation.findById (Conversation._id c) (conversations w) = Some c ->
  exists coll,
    saveConversation None c this w = (Return tt, set_conversations coll w)
    /\ Conversation.findById (Conversation._id c) coll
       = Some (Conversation.patch (clock w) c this c)
    /\ map Conversation._id coll = map Conversation._id (conversations w).
Proof.
  intros Hfind. unfold saveConversation.
  destruct (decide (c = this)) as [Heq|Hne].
  - exists (conversations w). rewrite set_conversations_same.
    split; [reflexivity|]. split; [|reflexivity].
    unfold Conversation.patch. rewrite decide_True by exact Heq. exact Hfind.
  - destruct (Conversation_update_found (Conversation._id c)
                (Conversation.patch (clock w) c this) _ _ Hfind)
      as (coll & Hupd & Hfind' & Hids).
    { intros x. unfold Conversation.patch.
      rewrite decide_False by exact Hne. reflexivity. }
    exists coll. unfold bind. cbn. rewrite Hupd. cbn.
    split; [reflexivity|]. split; assumption.
Qed.

Lemma saveAutoMessage_run d this w :
  AutoMessage.findById (AutoMessage._id d) (automessages w) = Some d ->
  exists coll,
    saveAutoMessage None d this w = (Return tt, set_automessages coll w)
    /\ AutoMessage.findById (AutoMessage._id d) coll
       = Some (saved (clock w) d this).
Proof.
  intros Hfind. unfold saveAutoMessage, saved.
  destruct (decide (d = this)) as [Heq|Hne].
  - exists (automessages w). rewrite set_automessages_same.
    split; [reflexivity|].
    unfold AutoMessage.patch. rewrite decide_True by exact Heq. exact Hfind.
  - destruct (AutoMessage_update_found (AutoMessage._id d)
                (AutoMessage.patch (clock w) d this) _ _ Hfind)
      as (coll & Hupd & Hfind').
    { intros x. unfold AutoMessage.patch.
      rewrite decide_False by exact Hne. reflexivity. }
    exists coll. unfold bind. cbn. rewrite Hupd. cbn.
    split; [reflexivity|exact Hfind'].
Qed.

Lemma emitToUser_run u ev mid cid w :
  exists evs, emitToUser u ev mid cid w = (Return tt, set_emitted evs w).
Proof.
  unfold emitToUser. destruct (io w) eqn:Hio.
  - eexists. reflexivity.
  - exists (emitted w). destruct w; reflexivity.
Qed.

Lemma updateLastActivity_patch now now' mid c :
  let c' := Conversation.patch now' c
              (Conversation.updateLastActivity now (Some mid) c) c in
  Conversation.lastMessage c' = Some mid
  /\ Conversation.lastActivity c' = now
  /\ Conversation.participants c' = Conversation.participants c
  /\ Conversation.isActive c' = Conversation.isActive c.
Proof.
  unfold Conversation.patch.
  destruct (decide (c = _)) as [Heq|Hne].
  - rewrite Heq at 1 2. cbn. repeat split.
  - cbn. rewrite !modifiedPath_same. repeat split.
Qed.

Lemma processAutoMessage_try_ok p w :
  validContent (content p) -> wfConversations w ->
  exists c mid w',
    processAutoMessage_try noFailure p w = (Return tt, w')
    /\ (nextId w <= mid < nextId w')%N
    /\ messages w' = messages w ++
         [Message.stamped (clock w)
            (Message.new mid (senderId p) (receiverId p)
               (Conversation._id c) (content p) Message.auto)]
    /\ (exists c',
          Conversation.findById (Conversation._id c) (conversations w')
          = Some c'
          /\ Conversation.lastMessage c' = Some mid
          /\ Conversation.lastActivity c' = clock w)
    /\ wfConversations w'
    /\ (AutoMessage.findById (autoMessageId p) (automessages w) = None ->
        automessages w' = automessages w)
    /\ (forall d,
          AutoMessage.findById (autoMessageId p) (automessages w) = Some d ->
          AutoMessage.findById (autoMessageId p) (automessages w')
          = Some (saved (clock w) d (AutoMessage.markAsSent (clock w) mid d))).
Proof.
  intros Hv Hwf. unfold processAutoMessage_try, noFailure.
  destruct (findOrCreateConversation_ok (senderId p) (receiverId p) w Hwf)
    as (c & w1 & Hfoc & Hfind & [Hnd1 Hlt1] & Hn1).
  assert (Hclock : clock w1 = clock w).
  { pose proof (keeps_findOrCreateConversation clock
      (fun _ _ => eq_refl) (fun _ _ => eq_refl)
      None None None (senderId p) (receiverId p) w) as H.
    rewrite Hfoc in H. exact H. }
  assert (Hmsgs : messages w1 = messages w).
  { pose proof (keeps_findOrCreateConversation messages
      (fun _ _ => eq_refl) (fun _ _ => eq_refl)
      None None None (senderId p) (receiverId p) w) as H.
    rewrite Hfoc in H. exact H. }
  assert (Hams : automessages w1 = automessages w).
  { pose proof (keeps_findOrCreateConversation automessages
      (fun _ _ => eq_refl) (fun _ _ => eq_refl)
      None None None (senderId p) (receiverId p) w) as H.
    rewrite Hfoc in H. exact H. }
  unfold bind at 1. rewrite Hfoc.
  unfold bind at 1. cbn [new_ObjectId].
  unfold bind at 1.
  rewrite saveMessage_run by (apply Message_new_valid, Hv).
  unfold bind at 1. cbn [new_Date].
  unfold bind at 1.
  set (w2 := set_messages _ (set_nextId _ w1)).
  set (mid := nextId w1).
  assert (Hfind2 : Conversation.findById (Conversation._id c)
                     (conversations w2) = Some c) by exact Hfind.
  destruct (saveConversation_run c
              (Conversation.updateLastActivity (clock w2)
                 (Some (Message._id
                          (Message.stamped (clock (set_nextId (mid + 1)%N w1))
                             (Message.new mid (senderId p) (receiverId p)
                                (Conversation._id c) (content p)
                                Message.auto)))) c) w2 Hfind2)
    as (coll & Hsave & Hfind3 & Hids).
  rewrite Hsave.
  unfold bind at 1. cbn [await ret].
  unfold bind at 1.
  destruct (emitToUser_run (receiverId p) "message_received"
              (Message._id
                 (Message.stamped (clock (set_nextId (mid + 1)%N w1))
                    (Message.new mid (senderId p) (receiverId p)
                       (Conversation._id c) (content p) Message.auto)))
              (Conversation._id c) (set_conversations coll w2))
    as (evs & ->).
  unfold bind at 1. unfold findAutoMessageById at 1. unfold bind at 1.
  cbn [await ret]. unfold bind at 1. cbn [get ret].
  cbn [automessages set_emitted set_conversations w2 set_messages set_nextId].
  rewrite Hams.
  assert (Hcommon : forall w',
    nextId w' = (mid + 1)%N ->
    messages w' = messages w2 ->
    conversations w' = coll ->
    (nextId w <= mid < nextId w')%N
    /\ messages w' = messages w ++
         [Message.stamped (clock w)
            (Message.new mid (senderId p) (receiverId p)
               (Conversation._id c) (content p) Message.auto)]
    /\ (exists c',
          Conversation.findById (Conversation._id c) (conversations w')
          = Some c'
          /\ Conversation.lastMessage c' = Some mid
          /\ Conversation.lastActivity c' = clock w)
    /\ wfConversations w').
  { intros w' Hn Hm Hc. split; [subst mid; lia|].
    split; [rewrite Hm; subst w2; cbn; rewrite Hmsgs, Hclock; reflexivity|].
    split.
    - rewrite Hc. eexists. split; [exact Hfind3|].
      destruct (updateLastActivity_patch (clock w2) (clock w2) mid c)
        as (Hlm & Hla & _).
      split; [exact Hlm|]. transitivity (clock w2); [exact Hla|exact Hclock].
    - unfold wfConversations. rewrite Hc, Hn, Hids. split; [exact Hnd1|].
      apply Forall_forall. intros x Hx.
      assert (Hin : Conversation._id x ∈ map Conversation._id coll)
        by (apply list_elem_of_In, in_map, list_elem_of_In, Hx).
      rewrite Hids in Hin.
      apply list_elem_of_In, in_map_iff in Hin as (y & Hy & Hin).
      rewrite Forall_forall in Hlt1.
      specialize (Hlt1 y (proj2 (list_elem_of_In _ _) Hin)).
      subst mid. lia. }
  destruct (AutoMessage.findById (autoMessageId p) (automessages w))
    as [d|] eqn:Hd.
  - unfold bind at 1. cbn [new_Date].
    set (w3 := set_emitted evs (set_conversations coll w2)).
    assert (Hd3 : AutoMessage.findById (AutoMessage._id d) (automessages w3)
                  = Some d).
    { rewrite (AutoMessage_findById_id _ _ _ Hd).
      subst w3 w2. cbn. rewrite Hams. exact Hd. }
    destruct (saveAutoMessage_run d
                (AutoMessage.markAsSent (clock w3)
                   (Message._id
                      (Message.stamped (clock (set_nextId (mid + 1)%N w1))
                         (Message.new mid (senderId p) (receiverId p)
                            (Conversation._id c) (content p)
                            Message.auto))) d) w3 Hd3)
      as (coll' & -> & Hfind').
    exists c, mid. eexists. split; [reflexivity|].
    destruct (Hcommon (set_automessages coll' w3)) as (H1 & H2 & H3 & H4);
      try reflexivity.
    split; [exact H1|]. split; [exact H2|]. split; [exact H3|].
    split; [exact H4|]. split; [discriminate|].
    intros d' [= <-]. cbn [automessages set_automessages].
    rewrite (AutoMessage_findById_id _ _ _ Hd) in Hfind'.
    rewrite Hfind'. subst w3 w2. cbn [clock set_emitted set_conversations
      set_messages set_nextId Message._id Message.stamped Message.new].
    rewrite Hclock. reflexivity.
  - exists c, mid. eexists. split; [reflexivity|].
    destruct (Hcommon (set_emitted evs (set_conversations coll w2)))
      as (H1 & H2 & H3 & H4); try reflexivity.
    split; [exact H1|]. split; [exact H2|]. split; [exact H3|].
    split; [exact H4|]. split; [|discriminate].
    intros _. subst w2. cbn. exact Hams.
Qed.

Lemma processAutoMessage_ok p w w' :
  processAutoMessage_try noFailure p w = (Return tt, w') ->
  processAutoMessage noFailure p w = (Return tt, w')
  /\ onMessage (processAutoMessage noFailure) p w = (Return Ack, w').
Proof.
  intros Htry.
  assert (Hrun : processAutoMessage noFailure p w = (Return tt, w'))
    by (unfold processAutoMessage, tryCatch; rewrite Htry; reflexivity).
  split; [exact Hrun|].
  unfold onMessage, tryCatch, bind. rewrite Hrun. reflexivity.
Qed.



Lemma checking_in_valid : validContent (js "Just checking in on you!").
Proof. unfold validContent. vm_compute. lia. Qed.


(** ** The consumer: redelivery *)

(** C1, as stated, fails: the broker delivers the same payload twice, both
    deliveries are acknowledged, and two Messages are persisted; the record
    ends sent, pointing to the second one. *)
Lemma redelivery_duplicates_message :
  let w1 := snd (consumeOne noFailure redeliveryWorld) in
  let w2 := snd (consumeOne noFailure w1) in
  fst (consumeOne noFailure redeliveryWorld) = Return (Some Ack)
  /\ fst (consumeOne noFailure w1) = Return (Some Ack)
  /\ map Message._id (messages w2) = [12; 13]%N
  /\ map AutoMessage.isSent (automessages w2) = [true]
  /\ map AutoMessage.messageId (automessages w2) = [Some 13%N].
Proof. cbv zeta. repeat split; vm_compute; reflexivity. Qed.

(** C1, amended. With the database answering, every delivery of a payload
    materializes a Message: delivering it twice persists two Messages of
    different ids, both of type [auto] and of the content of the payload,
    and the scheduling record it names, when there is one, ends with
    [isSent = true] and with [messageId] the id of the second Message.  The
    handler reads no guard. *)
Theorem redelivery_materializes_twice (p : Payload) (w : World) :
  validContent (content p) -> wfConversations w ->
  let first := processAutoMessage noFailure p w in
  let second := processAutoMessage noFailure p (snd first) in
  fst first = Return tt /\ fst second = Return tt
  /\ exists m1 m2,
       messages (snd second) = messages w ++ [m1; m2]
       /\ Message._id m1 <> Message._id m2
       /\ (Message.messageType m1 = Message.auto
           /\ Message.content m1 = trim (content p))
       /\ (Message.messageType m2 = Message.auto
           /\ Message.content m2 = trim (content p))
       /\ forall d,
            AutoMessage.findById (autoMessageId p) (automessages w) = Some d ->
            exists d',
              AutoMessage.findById (autoMessageId p)
                (automessages (snd second)) = Some d'
              /\ AutoMessage.isSent d' = true
              /\ AutoMessage.messageId d' = Some (Message._id m2).
Proof.
  intros Hv Hwf first second.
  destruct (processAutoMessage_try_ok p w Hv Hwf)
    as (c1 & mid1 & w1 & Htry1 & Hid1 & Hm1 & _ & Hwf1 & Hnone1 & Hsome1).
  destruct (processAutoMessage_ok p w w1 Htry1) as [Hrun1 _].
  destruct (processAutoMessage_try_ok p w1 Hv Hwf1)
    as (c2 & mid2 & w2 & Htry2 & Hid2 & Hm2 & _ & _ & _ & Hsome2).
  destruct (processAutoMessage_ok p w1 w2 Htry2) as [Hrun2 _].
  assert (Hfirst : first = (Return tt, w1)) by exact Hrun1.
  assert (Hsecond : second = (Return tt, w2))
    by (subst second; rewrite Hfirst; exact Hrun2).
  rewrite Hfirst, Hsecond. cbn [fst snd].
  split; [reflexivity|]. split; [reflexivity|].
  eexists. eexists. split; [rewrite Hm2, Hm1, <- app_assoc; reflexivity|].
  cbn [Message._id Message.stamped Message.new Message.messageType
       Message.content].
  split; [lia|]. split; [split; reflexivity|]. split; [split; reflexivity|].
  intros d Hd. specialize (Hsome1 d Hd). specialize (Hsome2 _ Hsome1).
  eexists. split; [exact Hsome2|].
  match goal with
  | |- context [saved ?n ?l ?t] =>
      destruct (saved_fields n l t eq_refl eq_refl)
        as (_ & _ & (Hs & _ & Hmid) & _)
  end.
  rewrite Hs, Hmid. split; reflexivity.
Qed.

Lemma redelivery_materializes_twice_witness :
  exists m1 m2,
    messages (snd (processAutoMessage noFailure duePayload
                     (snd (processAutoMessage noFailure duePayload
                             redeliveryWorld))))
    = [m1; m2]
    /\ Message._id m1 <> Message._id m2.
Proof.
  assert (Hwf : wfConversations redeliveryWorld) by (split; constructor).
  destruct (redelivery_materializes_twice duePayload redeliveryWorld
              checking_in_valid Hwf)
    as (_ & _ & m1 & m2 & Hm & Hne & _).
  exists m1, m2. split; [exact Hm|exact Hne].
Defined.

(** ** The consumer: a delivery that fails *)

(** The [catch] block, with its two calls answered, on a store that holds
    the record. *)
Lemma processAutoMessage_catch_run infra p e d w :
  infra AwCatchFindById = None -> infra AwCatchIncrementRetry = None ->
  AutoMessage.findById (autoMessageId p) (automessages w) = Some d ->
  exists coll,
    processAutoMessage_catch infra p e w
    = (Throw e, set_automessages coll w)
    /\ AutoMessage.findById (autoMessageId p) coll
       = Some (saved (clock w) d (AutoMessage.incrementRetry (Some e) d)).
Proof.
  intros Hfind Hincr Hd. unfold processAutoMessage_catch.
  rewrite Hfind, Hincr.
  assert (Hd' : AutoMessage.findById (AutoMessage._id d) (automessages w)
                = Some d)
    by (rewrite (AutoMessage_findById_id _ _ _ Hd); exact Hd).
  destruct (saveAutoMessage_run d (AutoMessage.incrementRetry (Some e) d)
              w Hd') as (coll & Hsave & Hfind').
  exists coll. unfold bind at 1. unfold tryCatch. unfold bind at 1.
  unfold findAutoMessageById, bind at 1. cbn [await ret get].
  unfold bind at 1. cbn [get ret]. rewrite Hd, Hsave.
  split; [reflexivity|].
  rewrite (AutoMessage_findById_id _ _ _ Hd) in Hfind'. exact Hfind'.
Qed.

(** C3: the code at the failing input.  The claim ends the deliveries of a
    failing record once [retryCount] has reached 3; the handler and the
    queue do not.  After three failed deliveries the record has
    [retryCount = 3], it is queued (not pending), its payload is back in the
    queue, and the fourth delivery runs the handler again and takes
    [retryCount] to 4. *)
Lemma retries_not_bounded :
  let w3 := deliveries 3 brokenStore retryWorld in
  map AutoMessage.retryCount (automessages w3) = [3]
  /\ map AutoMessage.isQueued (automessages w3) = [true]
  /\ queue w3 = [duePayload]
  /\ fst (consumeOne brokenStore w3) = Return (Some NackRequeue)
  /\ map AutoMessage.retryCount
       (automessages (deliveries 4 brokenStore retryWorld)) = [4].
Proof. cbv zeta. repeat split; vm_compute; reflexivity. Qed.

(** ** The scanner: runs that do not overlap *)

Lemma AutoMessage_update_other id id' f coll coll' :
  (forall x, AutoMessage._id (f x) = AutoMessage._id x) ->
  AutoMessage.update id f coll = Some coll' ->
  map AutoMessage._id coll' = map AutoMessage._id coll
  /\ (id' <> id ->
      AutoMessage.findById id' coll' = AutoMessage.findById id' coll).
Proof.
  intros Hf. revert coll'. induction coll as [|x coll IH]; intros coll' Hupd;
    [discriminate|].
  cbn in Hupd. destruct (N.eqb_spec (AutoMessage._id x) id) as [Hx|Hx].
  - injection Hupd as <-. cbn. rewrite Hf. split; [reflexivity|].
    intros Hne. destruct (N.eqb_spec (AutoMessage._id x) id');
      [congruence|reflexivity].
  - destruct (AutoMessage.update id f coll) as [coll0|]; [|discriminate].
    injection Hupd as <-. destruct (IH coll0 eq_refl) as [Hids Hother].
    unfold AutoMessage.findById in *.
    cbn. rewrite Hids. split; [reflexivity|]. intros Hne.
    rewrite (Hother Hne). reflexivity.
Qed.

Lemma AutoMessage_findById_unique coll d :
  NoDup (map AutoMessage._id coll) -> d ∈ coll ->
  AutoMessage.findById (AutoMessage._id d) coll = Some d.
Proof.
  induction coll as [|x coll IH]; intros Hnd Hin; [inversion Hin|].
  cbn in Hnd. apply NoDup_cons in Hnd as [Hx Hnd].
  apply elem_of_cons in Hin as [->|Hin]; cbn.
  - rewrite N.eqb_refl. reflexivity.
  - destruct (N.eqb_spec (AutoMessage._id x) (AutoMessage._id d)) as [He|_];
      [|apply IH; assumption].
    exfalso. apply Hx. rewrite He. apply list_elem_of_In, in_map.
    apply list_elem_of_In, Hin.
Qed.

(** One turn of the loop, for a candidate that is still as it was read. *)
Lemma queueOne_run us d w :
  partiesKnown us d -> AutoMessage.isQueued d = false ->
  AutoMessage.findById (AutoMessage._id d) (automessages w) = Some d ->
  exists message coll,
    queueOne noFailure (populate us d) w
    = (Return tt,
       set_automessages coll (set_queue (queue w ++ [message]) w))
    /\ autoMessageId message = AutoMessage._id d
    /\ AutoMessage.findById (AutoMessage._id d) coll
       = Some (saved (clock w) d (AutoMessage.markAsQueued (clock w) d))
    /\ map AutoMessage._id coll = map AutoMessage._id (automessages w)
    /\ (forall id, id <> AutoMessage._id d ->
          AutoMessage.findById id coll
          = AutoMessage.findById id (automessages w)).
Proof.
  intros [[s Hs] [r Hr]] Hq Hfind.
  unfold queueOne, noFailure. cbn [doc populate].
  unfold bind at 1. unfold attempt. unfold bind at 1.
  unfold payloadOf. cbn [p_sender p_receiver populate doc].
  rewrite Hs, Hr. cbn [ret]. unfold publishToQueue, tryCatch. cbn [await].
  unfold bind at 1. cbn [ret modify]. unfold bind at 1. cbn [new_Date].
  unfold tryCatch, saveAutoMessage.
  destruct (decide (d = AutoMessage.markAsQueued _ d)) as [Heq|Hne].
  { exfalso. rewrite Heq in Hq. discriminate. }
  cbn [await]. unfold bind at 1. cbn [ret]. unfold bind at 1.
  cbn [new_Date]. unfold bind at 1. cbn [get].
  cbn [automessages set_queue clock].
  assert (Hid : forall x, AutoMessage._id
            (AutoMessage.patch (clock w) d
               (AutoMessage.markAsQueued (clock w) d) x)
            = AutoMessage._id x).
  { intros x. unfold AutoMessage.patch. rewrite decide_False by exact Hne.
    reflexivity. }
  destruct (AutoMessage_update_found _ _ _ _ Hfind Hid)
    as (coll & Hupd & Hfind').
  rewrite Hupd. cbn [modify].
  eexists. exists coll. split; [reflexivity|]. split; [reflexivity|].
  split; [exact Hfind'|].
  split; [apply (AutoMessage_update_other _ 0%N _ _ _ Hid Hupd)|].
  intros id Hne'. apply (AutoMessage_update_other _ id _ _ _ Hid Hupd), Hne'.
Qed.

(** The loop over candidates of distinct ids, read from the store as it
    is. *)
Lemma queueLoop_run us now ready w :
  NoDup (map AutoMessage._id ready) ->
  Forall (fun d => partiesKnown us d /\ AutoMessage.isQueued d = false
                   /\ AutoMessage.findById (AutoMessage._id d)
                        (automessages w) = Some d) ready ->
  clock w = now ->
  exists w',
    forEach (queueOne noFailure) (map (populate us) ready) w = (Return tt, w')
    /\ map autoMessageId (queue w')
       = map autoMessageId (queue w) ++ map AutoMessage._id ready
    /\ map AutoMessage._id (automessages w')
       = map AutoMessage._id (automessages w)
    /\ (forall d, d ∈ ready ->
          AutoMessage.findById (AutoMessage._id d) (automessages w')
          = Some (saved now d (AutoMessage.markAsQueued now d)))
    /\ clock w' = now.
Proof.
  revert w. induction ready as [|d ready IH]; intros w Hnd Hall Hclock.
  - exists w. split; [reflexivity|]. cbn. rewrite app_nil_r.
    repeat split; try assumption. intros d Hd. inversion Hd.
  - cbn in Hnd. apply NoDup_cons in Hnd as [Hd Hnd].
    apply Forall_cons in Hall as [(Hknown & Hq & Hfind) Hall].
    destruct (queueOne_run us d w Hknown Hq Hfind)
      as (message & coll & Hrun & Hmsg & Hfind' & Hids & Hother).
    set (w1 := set_automessages coll (set_queue (queue w ++ [message]) w))
      in *.
    destruct (IH w1 Hnd) as (w' & Hloop & Hqueue & Hids' & Hdone & Hclock').
    { apply Forall_forall. intros x Hx.
      destruct (proj1 (Forall_forall _ _) Hall x Hx) as (? & ? & Hfx).
      split; [assumption|]. split; [assumption|].
      change (automessages w1) with coll. rewrite Hother; [exact Hfx|].
      intros Heq. apply Hd. rewrite <- Heq.
      apply list_elem_of_In, in_map, list_elem_of_In, Hx. }
    { exact Hclock. }
    exists w'. cbn [map forEach]. unfold bind. rewrite Hrun, Hloop.
    split; [reflexivity|]. split.
    { rewrite Hqueue. subst w1. cbn. rewrite map_app, <- app_assoc. cbn.
      rewrite Hmsg. reflexivity. }
    split; [rewrite Hids'; exact Hids|]. split; [|exact Hclock'].
    intros x Hx. apply elem_of_cons in Hx as [->|Hx]; [|apply Hdone, Hx].
    assert (Hnot : AutoMessage._id d ∉ map AutoMessage._id ready) by exact Hd.
    assert (Hall1 : Forall
              (fun x => partiesKnown us x /\ AutoMessage.isQueued x = false
                        /\ AutoMessage.findById (AutoMessage._id x)
                             (automessages w1) = Some x) ready).
    { apply Forall_forall. intros y Hy.
      destruct (proj1 (Forall_forall _ _) Hall y Hy) as (? & ? & Hfy).
      split; [assumption|]. split; [assumption|].
      change (automessages w1) with coll. rewrite Hother; [exact Hfy|].
      intros Heq. apply Hd. rewrite <- Heq.
      apply list_elem_of_In, in_map, list_elem_of_In, Hy. }
    (* the later turns leave the record of [d] alone *)
    assert (Hkeep : forall l w0 w0',
      AutoMessage._id d ∉ map AutoMessage._id l ->
      Forall (fun x => partiesKnown us x /\ AutoMessage.isQueued x = false
                       /\ AutoMessage.findById (AutoMessage._id x)
                            (automessages w0) = Some x) l ->
      NoDup (map AutoMessage._id l) ->
      forEach (queueOne noFailure) (map (populate us) l) w0
      = (Return tt, w0') ->
      AutoMessage.findById (AutoMessage._id d) (automessages w0')
      = AutoMessage.findById (AutoMessage._id d) (automessages w0)).
    { induction l as [|x l IHl]; intros w0 w0' Hn Hl Hndl Hrun0.
      - injection Hrun0 as <-. reflexivity.
      - cbn in Hn. apply not_elem_of_cons in Hn as [Hnx Hn].
        apply Forall_cons in Hl as [(Hk & Hqx & Hfx) Hl].
        cbn in Hndl. apply NoDup_cons in Hndl as [Hxl Hndl].
        destruct (queueOne_run us x w0 Hk Hqx Hfx)
          as (m & c & Hr & _ & _ & _ & Ho).
        cbn [map forEach] in Hrun0. unfold bind in Hrun0. rewrite Hr in Hrun0.
        set (w2 := set_automessages c (set_queue (queue w0 ++ [m]) w0)) in *.
        assert (Hl2 : Forall
                  (fun y => partiesKnown us y /\ AutoMessage.isQueued y = false
                            /\ AutoMessage.findById (AutoMessage._id y)
                                 (automessages w2) = Some y) l).
        { apply Forall_forall. intros y Hy.
          destruct (proj1 (Forall_forall _ _) Hl y Hy) as (? & ? & Hfy).
          split; [assumption|]. split; [assumption|].
          change (automessages w2) with c. rewrite Ho; [exact Hfy|].
          intros Heq. apply Hxl. rewrite <- Heq.
          apply list_elem_of_In, in_map, list_elem_of_In, Hy. }
        rewrite (IHl w2 w0' Hn Hl2 Hndl Hrun0).
        change (automessages w2) with c. apply Ho. exact Hnx. }
    rewrite (Hkeep ready w1 w' Hnot Hall1 Hnd Hloop).
    change (automessages w1) with coll. rewrite <- Hclock. exact Hfind'.
Qed.

Lemma candidates_NoDup w :
  NoDup (map AutoMessage._id (automessages w)) ->
  NoDup (map AutoMessage._id (candidates w)).
Proof.
  unfold candidates, AutoMessage.find.
  induction (automessages w) as [|x coll IH]; intros Hnd; [constructor|].
  cbn in Hnd. apply NoDup_cons in Hnd as [Hx Hnd]. cbn.
  destruct (AutoMessage.readyForQueuing (clock w) x); [|auto].
  cbn. apply NoDup_cons. split; [|auto].
  intros Hin. apply Hx. apply list_elem_of_In in Hin.
  apply list_elem_of_In. apply in_map_iff in Hin as (y & Hid & Hin).
  apply in_map_iff. exists y. split; [exact Hid|].
  apply filter_In in Hin. tauto.
Qed.

(** A scanner run with the database and the broker answering. *)
Lemma queueReadyMessages_run w :
  NoDup (map AutoMessage._id (automessages w)) ->
  Forall (partiesKnown (users w)) (candidates w) ->
  exists w',
    queueReadyMessages noFailure w = (Return tt, w')
    /\ map autoMessageId (queue w')
       = map autoMessageId (queue w) ++ map AutoMessage._id (candidates w)
    /\ map AutoMessage._id (automessages w')
       = map AutoMessage._id (automessages w)
    /\ (forall d, d ∈ candidates w ->
          AutoMessage.findById (AutoMessage._id d) (automessages w')
          = Some (saved (clock w) d
                    (AutoMessage.markAsQueued (clock w) d)))
    /\ clock w' = clock w.
Proof.
  intros Hnd Hknown.
  assert (Hall : Forall
    (fun d => partiesKnown (users w) d /\ AutoMessage.isQueued d = false
              /\ AutoMessage.findById (AutoMessage._id d) (automessages w)
                 = Some d) (candidates w)).
  { apply Forall_forall. intros d Hd.
    split; [exact (proj1 (Forall_forall _ _) Hknown d Hd)|].
    unfold candidates, AutoMessage.find in Hd.
    apply list_elem_of_In, filter_In in Hd as [Hin Hready].
    apply readyForQueuing_spec in Hready as (_ & Hq & _).
    split; [exact Hq|].
    apply AutoMessage_findById_unique; [exact Hnd|].
    apply list_elem_of_In, Hin. }
  destruct (queueLoop_run (users w) (clock w) (candidates w) w
              (candidates_NoDup w Hnd) Hall eq_refl)
    as (w' & Hloop & Hqueue & Hids & Hdone & Hclock).
  unfold queueReadyMessages, tryCatch.
  unfold bind at 1.
  change (getMessagesForQueuing (noFailure ScFind) w)
    with (Return (map (populate (users w)) (candidates w)), w).
  cbv beta iota. rewrite length_map.
  destruct (candidates w) as [|d0 ready] eqn:Hcand.
  - exists w. cbn. rewrite app_nil_r.
    split; [reflexivity|]. split; [reflexivity|]. split; [reflexivity|].
    split; [|reflexivity]. intros d Hd. inversion Hd.
  - cbn [length Nat.eqb]. rewrite Hloop. exists w'.
    split; [reflexivity|]. split; [exact Hqueue|]. split; [exact Hids|].
    split; [exact Hdone|exact Hclock].
Qed.

(** C2, amended. [markAsQueued] and [markAsSent] are unconditional writes:
    whatever the state of the record, the first sets [isQueued] and
    [queuedAt = now], the second sets [isSent], [sentAt = now] and
    [messageId], and each leaves the other fields as they were, in the
    document and in what [save] stores.  The order Pending, Queued, Sent is
    kept by the scanner's query alone, which never returns a record to
    which one of the two has been applied: with distinct record ids, the
    senders and receivers of the candidates known and the database and the
    broker answering, a scanner run that has completed has published each
    candidate once, and a run after it, at whatever time, returns none of
    them. *)
Theorem transitions_unconditional (now now' : Date) (mid : ObjectId)
    (d : AutoMessage.t) (w : World) (ms : Z) :
  NoDup (map AutoMessage._id (automessages w)) ->
  Forall (partiesKnown (users w)) (candidates w) ->
  let queued := saved now d (AutoMessage.markAsQueued now d) in
  let sent := saved now d (AutoMessage.markAsSent now mid d) in
  let w' := snd (queueReadyMessages noFailure w) in
  (AutoMessage.isQueued queued = true
   /\ AutoMessage.queuedAt queued = Some now
   /\ sameMessage d queued /\ sameSent d queued /\ sameRetry d queued)
  /\ (AutoMessage.isSent sent = true
      /\ AutoMessage.sentAt sent = Some now
      /\ AutoMessage.messageId sent = Some mid
      /\ sameMessage d sent /\ sameQueued d sent /\ sameRetry d sent)
  /\ AutoMessage.readyForQueuing now' queued = false
  /\ AutoMessage.readyForQueuing now' sent = false
  /\ map autoMessageId (queue w')
     = map autoMessageId (queue w) ++ map AutoMessage._id (candidates w)
  /\ (forall x, x ∈ candidates (advance ms w') ->
        AutoMessage._id x ∉ map AutoMessage._id (candidates w)).
Proof.
  intros Hnd Hknown queued sent w'.
  destruct (transitions_write now now' mid d) as (H1 & H2 & H3 & H4).
  split; [exact H1|]. split; [exact H2|]. split; [exact H3|].
  split; [exact H4|].
  destruct (queueReadyMessages_run w Hnd Hknown)
    as (w1 & Hrun & Hqueue & Hids & Hdone & Hclock).
  assert (Hw' : w' = w1) by (subst w'; rewrite Hrun; reflexivity).
  rewrite Hw'. split; [exact Hqueue|].
  intros x Hx Hin.
  unfold candidates, AutoMessage.find in Hx.
  cbn [automessages clock advance] in Hx.
  apply list_elem_of_In, filter_In in Hx as [Hx Hready].
  apply list_elem_of_In, in_map_iff in Hin as (y & Hid & Hy).
  apply list_elem_of_In in Hy.
  assert (Hfind : AutoMessage.findById (AutoMessage._id x) (automessages w1)
                  = Some x).
  { apply AutoMessage_findById_unique; [rewrite Hids; exact Hnd|].
    apply list_elem_of_In, Hx. }
  rewrite <- Hid, (Hdone y Hy) in Hfind. injection Hfind as <-.
  destruct (transitions_write (clock w) (clock w1 + ms) mid y)
    as (_ & _ & Hnot & _).
  rewrite Hnot in Hready. discriminate.
Qed.

Lemma transitions_unconditional_witness :
  map autoMessageId (queue (snd (queueReadyMessages noFailure scanWorld)))
  = [10]%N
  /\ forall x,
       x ∈ candidates (advance 60000
                         (snd (queueReadyMessages noFailure scanWorld))) ->
       AutoMessage._id x ∉ map AutoMessage._id (candidates scanWorld).
Proof.
  assert (Hnd : NoDup (map AutoMessage._id (automessages scanWorld))).
  { apply (bool_decide_unpack _). vm_compute. exact I. }
  assert (Hknown : Forall (partiesKnown (users scanWorld))
                     (candidates scanWorld)).
  { constructor; [|constructor]. split; eexists; reflexivity. }
  destruct (transitions_unconditional 0 0 0%N dueRecord scanWorld 60000
              Hnd Hknown)
    as (_ & _ & _ & _ & Hqueue & Hlater).
  split; [exact Hqueue|exact Hlater].
Defined.

(** * Further properties *)

(** ** The statistics of the scheduling records *)

Lemma sumCond_cons {A} (c : A -> bool) x l :
  sumCond c (x :: l) = (if c x then 1 else 0) + sumCond c l.
Proof. reflexivity. Qed.

Lemma sumCond_count {A} (c : A -> bool) l :
  sumCond c l = countDocuments c l.
Proof.
  unfold countDocuments. induction l as [|x l IH]; [reflexivity|].
  rewrite sumCond_cons, IH. cbn. destruct (c x); cbn [length]; lia.
Qed.

Lemma statisticsOf_sums coll :
  statisticsOf coll
  = Statistics.mk
      (sumCond (fun _ => true) coll)
      (sumCond AutoMessage.isQueued coll)
      (sumCond AutoMessage.isSent coll)
      (sumCond (fun d => 3 <=? AutoMessage.retryCount d) coll)
      (sumCond (fun d => negb (AutoMessage.isQueued d)
                         && negb (AutoMessage.isSent d)
                         && (AutoMessage.retryCount d <? 3)) coll).
Proof. destruct coll; reflexivity. Qed.

Lemma statisticsOf_buckets coll :
  let s := statisticsOf coll in
  Statistics.total s = Z.of_nat (length coll)
  /\ 0 <= Statistics.queued s /\ 0 <= Statistics.sent s
  /\ 0 <= Statistics.failed s /\ 0 <= Statistics.pending s
  /\ Statistics.total s
     <= Statistics.queued s + Statistics.sent s + Statistics.failed s
        + Statistics.pending s
  /\ Statistics.pending s + Statistics.queued s <= Statistics.total s
  /\ Statistics.pending s + Statistics.sent s <= Statistics.total s
  /\ Statistics.pending s + Statistics.failed s <= Statistics.total s.
Proof.
  cbv zeta. rewrite statisticsOf_sums. cbn [Statistics.total
    Statistics.queued Statistics.sent Statistics.failed Statistics.pending].
  induction coll as [|d coll IH]; [cbn; lia|].
  rewrite !sumCond_cons. cbn [length]. rewrite Nat2Z.inj_succ.
  destruct (AutoMessage.isQueued d), (AutoMessage.isSent d),
    (Z.leb_spec 3 (AutoMessage.retryCount d)),
    (Z.ltb_spec (AutoMessage.retryCount d) 3); cbn [negb andb]; lia.
Qed.

(** X1. The counters of [getStatistics]: [total] is the number of records,
    every record is counted as queued, sent, failed or pending (so the four
    add up to at least [total], and to more when a record is both queued
    and sent), and a pending record is counted in none of the other three.
    An empty collection gives five zeros.  [getConsumerStats] never
    throws: it reports these counters with the status [running], and the
    message of the error with the status [error] when the query fails. *)
Theorem getStatistics_buckets (w : World) :
  exists s,
    getStatistics None w = (Return s, w)
    /\ Statistics.total s = Z.of_nat (length (automessages w))
    /\ (0 <= Statistics.queued s /\ 0 <= Statistics.sent s
        /\ 0 <= Statistics.failed s /\ 0 <= Statistics.pending s)
    /\ Statistics.total s
       <= Statistics.queued s + Statistics.sent s + Statistics.failed s
          + Statistics.pending s
    /\ Statistics.pending s + Statistics.queued s <= Statistics.total s
    /\ Statistics.pending s + Statistics.sent s <= Statistics.total s
    /\ Statistics.pending s + Statistics.failed s <= Statistics.total s
    /\ (automessages w = [] -> s = Statistics.mk 0 0 0 0 0)
    /\ getConsumerStats None w
       = (Return (mkConsumerStats (Some s) None (clock w) "running"), w)
    /\ forall e,
         getConsumerStats (Some e) w
         = (Return (mkConsumerStats None (Some e) (clock w) "error"), w).
Proof.
  exists (statisticsOf (automessages w)). split; [reflexivity|].
  destruct (statisticsOf_buckets (automessages w))
    as (Ht & Hq & Hs & Hf & Hp & Hcover & H1 & H2 & H3).
  split; [exact Ht|]. split; [repeat split; assumption|].
  split; [exact Hcover|]. split; [exact H1|]. split; [exact H2|].
  split; [exact H3|]. split; [intros ->; reflexivity|].
  split; [reflexivity|]. intros e. reflexivity.
Qed.

(** X2. The scanner's candidates are among the records the statistics
    count as pending: there are at most [pending] of them, and exactly
    [pending] when every record is due. *)
Theorem candidates_are_pending (w : World) :
  let s := statisticsOf (automessages w) in
  fst (getStatistics None w) = Return s
  /\ Z.of_nat (length (candidates w)) <= Statistics.pending s
  /\ (Forall (fun d => AutoMessage.sendDate d <= clock w) (automessages w) ->
      Z.of_nat (length (candidates w)) = Statistics.pending s).
Proof.
  cbv zeta. split; [reflexivity|].
  rewrite statisticsOf_sums. cbn [Statistics.pending].
  unfold candidates, AutoMessage.find, AutoMessage.readyForQueuing.
  induction (automessages w) as [|d coll [IH1 IH2]]; [cbn; split; [lia|auto]|].
  rewrite sumCond_cons. cbn [List.filter].
  split.
  - destruct (AutoMessage.sendDate d <=? clock w),
      (AutoMessage.isQueued d), (AutoMessage.isSent d),
      (AutoMessage.retryCount d <? 3); cbn [negb andb length]; lia.
  - intros Hall. apply Forall_cons in Hall as [Hd Hall].
    specialize (IH2 Hall). apply Z.leb_le in Hd. rewrite Hd.
    destruct (AutoMessage.isQueued d), (AutoMessage.isSent d),
      (AutoMessage.retryCount d <? 3); cbn [negb andb length]; lia.
Qed.

(** ** Messages: read marks and soft deletion *)

Lemma countDocuments_cons {A} (p : A -> bool) x l :
  countDocuments p (x :: l) = (if p x then 1 else 0) + countDocuments p l.
Proof.
  unfold countDocuments. cbn. destruct (p x); cbn [length]; lia.
Qed.

Lemma countDocuments_app {A} (p : A -> bool) l l' :
  countDocuments p (l ++ l') = countDocuments p l + countDocuments p l'.
Proof.
  unfold countDocuments. rewrite List.filter_app, length_app. lia.
Qed.

Lemma setRead_pointwise now c u m :
  let m' := if unreadIn c u m then setRead now m else m in
  unreadIn c u m' = false
  /\ (if unreadFor u m' then 1 else 0)
     = (if unreadFor u m then 1 else 0) - (if unreadIn c u m then 1 else 0)
  /\ (forall other, other <> u -> unreadFor other m' = unreadFor other m)
  /\ Message._id m' = Message._id m.
Proof.
  cbv zeta. destruct (unreadIn c u m) eqn:Hm.
  - assert (Hu : unreadFor u m = true)
      by (unfold unreadIn in Hm; apply andb_true_iff in Hm; tauto).
    rewrite Hu.
    assert (Hread : forall x, unreadFor x (setRead now m) = false)
      by (intros x; unfold unreadFor, setRead; cbn;
          rewrite andb_false_r; reflexivity).
    split; [unfold unreadIn; rewrite Hread; apply andb_false_r|].
    rewrite Hread. split; [reflexivity|]. split; [|reflexivity].
    intros other Hother. rewrite Hread. unfold unreadFor in Hu |- *.
    apply andb_true_iff in Hu as [Hu _]. apply andb_true_iff in Hu as [Hu _].
    apply N.eqb_eq in Hu.
    destruct (N.eqb_spec (Message.receiver m) other); [congruence|].
    reflexivity.
  - rewrite Hm. split; [reflexivity|]. split; [lia|]. split; reflexivity.
Qed.

(** X3. [markConversationAsRead] returns the number of unread, undeleted
    messages the user has received in the conversation; afterwards there
    is none, the unread count of the user has dropped by that number, the
    unread counts of the other users and every message outside the filter
    are as they were, and a second call modifies nothing. *)
Theorem markConversationAsRead_counts (conversationId userId : ObjectId)
    (w : World) :
  let before := countDocuments (unreadIn conversationId userId)
                  (messages w) in
  exists w',
    markConversationAsRead None conversationId userId w = (Return before, w')
    /\ countDocuments (unreadIn conversationId userId) (messages w') = 0
    /\ countDocuments (unreadFor userId) (messages w')
       = countDocuments (unreadFor userId) (messages w) - before
    /\ (forall other, other <> userId ->
          countDocuments (unreadFor other) (messages w')
          = countDocuments (unreadFor other) (messages w))
    /\ map Message._id (messages w') = map Message._id (messages w)
    /\ (forall m, m ∈ messages w ->
          unreadIn conversationId userId m = false -> m ∈ messages w')
    /\ markConversationAsRead None conversationId userId w' = (Return 0, w').
Proof.
  intros before.
  set (f := fun d => if unreadIn conversationId userId d
                     then setRead (clock w) d else d).
  assert (Hzero : forall l,
            countDocuments (unreadIn conversationId userId) (map f l) = 0).
  { induction l as [|m l IH]; [reflexivity|].
    cbn [map]. rewrite countDocuments_cons, IH. unfold f at 1.
    destruct (setRead_pointwise (clock w) conversationId userId m)
      as (-> & _). reflexivity. }
  assert (Hsame : forall l,
            countDocuments (unreadIn conversationId userId) l = 0 ->
            map f l = l).
  { induction l as [|m l IH]; [reflexivity|].
    rewrite countDocuments_cons. intros Hc.
    assert (Hl : 0 <= countDocuments (unreadIn conversationId userId) l)
      by (unfold countDocuments; lia).
    cbn [map]. unfold f at 1.
    destruct (unreadIn conversationId userId m); [lia|].
    rewrite IH by lia. reflexivity. }
  exists (set_messages (map f (messages w)) w).
  split; [reflexivity|]. cbn [messages set_messages].
  split; [apply Hzero|]. split; [|split; [|split; [|split]]].
  - subst before. induction (messages w) as [|m l IH]; [reflexivity|].
    cbn [map]. rewrite !countDocuments_cons, IH. unfold f at 1.
    destruct (setRead_pointwise (clock w) conversationId userId m)
      as (_ & -> & _). lia.
  - intros other Hother.
    induction (messages w) as [|m l IH]; [reflexivity|].
    cbn [map]. rewrite !countDocuments_cons, IH.
    destruct (setRead_pointwise (clock w) conversationId userId m)
      as (_ & _ & Ho & _). unfold f at 1. rewrite (Ho other Hother).
    reflexivity.
  - rewrite map_map. apply map_ext. intros m.
    apply (setRead_pointwise (clock w) conversationId userId m).
  - intros m Hin Hm. apply list_elem_of_In, in_map_iff.
    exists m. unfold f. rewrite Hm.
    split; [reflexivity|apply list_elem_of_In, Hin].
  - unfold markConversationAsRead, tryCatch, bind, updateMany. cbn.
    fold f. rewrite (Hzero (messages w)).
    rewrite (Hsame (map f (messages w)) (Hzero (messages w))). reflexivity.
Qed.

Lemma messages_split coll m :
  NoDup (map Message._id coll) -> m ∈ coll ->
  exists l1 l2,
    coll = l1 ++ m :: l2
    /\ Forall (fun x => Message._id x <> Message._id m) l1
    /\ Forall (fun x => Message._id x <> Message._id m) l2.
Proof.
  induction coll as [|x coll IH]; intros Hnd Hin; [inversion Hin|].
  cbn in Hnd. apply NoDup_cons in Hnd as [Hx Hnd].
  assert (Hother : forall y, y ∈ coll -> Message._id y <> Message._id x).
  { intros y Hy Heq. apply Hx. rewrite <- Heq.
    apply list_elem_of_In, in_map, list_elem_of_In, Hy. }
  apply elem_of_cons in Hin as [->|Hin].
  - exists [], coll. split; [reflexivity|]. split; [constructor|].
    apply Forall_forall. exact Hother.
  - destruct (IH Hnd Hin) as (l1 & l2 & -> & H1 & H2).
    exists (x :: l1), l2. split; [reflexivity|]. split; [|exact H2].
    constructor; [|exact H1]. intros Heq. apply (Hother m Hin). congruence.
Qed.

Lemma updateMessage_split l1 m l2 f :
  Forall (fun x => Message._id x <> Message._id m) l1 ->
  updateMessage (Message._id m) f (l1 ++ m :: l2) = Some (l1 ++ f m :: l2).
Proof.
  induction 1 as [|x l1 Hx _ IH]; cbn.
  - rewrite N.eqb_refl. reflexivity.
  - destruct (N.eqb_spec (Message._id x) (Message._id m)); [contradiction|].
    rewrite IH. reflexivity.
Qed.

Lemma find_split {A} (p : A -> bool) l1 x l2 :
  Forall (fun y => p y = false) l1 -> p x = true ->
  List.find p (l1 ++ x :: l2) = Some x.
Proof.
  intros Hl1 Hx. induction Hl1 as [|y l1 Hy _ IH]; cbn.
  - rewrite Hx. reflexivity.
  - rewrite Hy. exact IH.
Qed.

Lemma find_none_split {A} (p : A -> bool) l :
  Forall (fun y => p y = false) l -> List.find p l = None.
Proof.
  induction 1 as [|y l Hy _ IH]; cbn; [reflexivity|]. rewrite Hy. exact IH.
Qed.

Lemma readAs_fields now m :
  Message.isRead m = false ->
  readAs now m
  = Message.mk (Message._id m) (Message.sender m) (Message.receiver m)
      (Message.conversation m) (Message.content m) (Message.messageType m)
      true (Some now) (Message.isDeleted m) (Message.deletedAt m)
      (Message.createdAt m) now.
Proof.
  intros Hr. unfold readAs, patchMessage.
  destruct (decide (m = markAsRead now m)) as [Heq|_].
  - rewrite Heq in Hr. discriminate.
  - cbn. rewrite !modifiedPath_same. reflexivity.
Qed.

Lemma deletedAs_fields now m :
  Message.isDeleted m = false ->
  deletedAs now m
  = Message.mk (Message._id m) (Message.sender m) (Message.receiver m)
      (Message.conversation m) (Message.content m) (Message.messageType m)
      (Message.isRead m) (Message.readAt m) true (Some now)
      (Message.createdAt m) now.
Proof.
  intros Hd. unfold deletedAs, patchMessage.
  destruct (decide (m = softDelete now m)) as [Heq|_].
  - rewrite Heq in Hd. discriminate.
  - cbn. rewrite !modifiedPath_same. reflexivity.
Qed.

(** A message of distinct id is the only one a filter on its id can
    find. *)
Lemma find_by_id (p : Message.t -> bool) l1 m l2 :
  (forall x, p x = true -> Message._id x = Message._id m) ->
  Forall (fun x => Message._id x <> Message._id m) l1 ->
  Forall (fun x => Message._id x <> Message._id m) l2 ->
  List.find p (l1 ++ m :: l2) = if p m then Some m else None.
Proof.
  intros Hp H1 H2.
  assert (Hnone : forall l,
    Forall (fun x => Message._id x <> Message._id m) l ->
    Forall (fun y => p y = false) l).
  { intros l Hl. eapply Forall_impl; [exact Hl|]. cbn. intros x Hx.
    destruct (p x) eqn:Hpx; [|reflexivity]. exfalso. apply Hx, Hp, Hpx. }
  destruct (p m) eqn:Hm.
  - apply find_split; [apply Hnone, H1|exact Hm].
  - apply find_none_split. apply Forall_app. split; [apply Hnone, H1|].
    constructor; [exact Hm|apply Hnone, H2].
Qed.

Lemma receivedBy_id messageId userId x :
  receivedBy messageId userId x = true -> Message._id x = messageId.
Proof.
  unfold receivedBy. rewrite !andb_true_iff, N.eqb_eq. tauto.
Qed.

Lemma sentBy_id messageId userId x :
  sentBy messageId userId x = true -> Message._id x = messageId.
Proof.
  unfold sentBy. rewrite !andb_true_iff, N.eqb_eq. tauto.
Qed.

(** X4. The receiver marks a message read once: the first request stores
    [isRead] and [readAt] (the time of the request), tells the sender and
    answers 200; a later request answers 200 with the same document and
    writes and emits nothing, so [readAt] keeps the first time. *)
Theorem putRead_once (user : User.t) (m : Message.t) (w : World) (ms : Z) :
  NoDup (map Message._id (messages w)) -> m ∈ messages w ->
  Message.receiver m = User._id user ->
  Message.isDeleted m = false -> Message.isRead m = false ->
  let ok := Response.mk 200 true "Message marked as read successfully" in
  exists l1 l2 w',
    messages w = l1 ++ m :: l2
    /\ putRead noFailure user (Message._id m) w
       = (Return (ok (MessageData (readAs (clock w) m))), w')
    /\ messages w' = l1 ++ readAs (clock w) m :: l2
    /\ Message.isRead (readAs (clock w) m) = true
    /\ Message.readAt (readAs (clock w) m) = Some (clock w)
    /\ map notified (emitted w')
       = map notified (emitted w
                       ++ routeEvent w (Message.sender m) "message_read" m)
    /\ getUnreadCountRoute None user w'
       = (Return (Response.mk 200 true "Unread count retrieved successfully"
                    (UnreadCountData
                       (countDocuments (unreadFor (User._id user))
                          (messages w) - 1))), w')
    /\ putRead noFailure user (Message._id m) (advance ms w')
       = (Return (ok (MessageData (readAs (clock w) m))), advance ms w').
Proof.
  intros Hnd Hin Hrecv Hdel Hread ok.
  destruct (messages_split _ _ Hnd Hin) as (l1 & l2 & Hsplit & H1 & H2).
  exists l1, l2.
  assert (Hp : receivedBy (Message._id m) (User._id user) m = true).
  { unfold receivedBy. rewrite Hrecv, Hdel, !N.eqb_refl. reflexivity. }
  assert (Hfind : List.find (receivedBy (Message._id m) (User._id user))
                    (messages w) = Some m).
  { rewrite Hsplit, find_by_id, Hp; [reflexivity| |exact H1|exact H2].
    intros x. apply receivedBy_id. }
  assert (Hne : m <> markAsRead (clock w) m).
  { intros Heq. rewrite Heq in Hread. discriminate. }
  pose proof (readAs_fields (clock w) m Hread) as Hfields.
  assert (Hp' : receivedBy (Message._id m) (User._id user)
                  (readAs (clock w) m) = true).
  { rewrite Hfields. unfold receivedBy. cbn.
    rewrite Hrecv, Hdel, !N.eqb_refl. reflexivity. }
  assert (Hid : Message._id (readAs (clock w) m) = Message._id m)
    by (rewrite Hfields; reflexivity).
  pose proof (updateMessage_split l1 m l2
    (patchMessage (clock w) m (markAsRead (clock w) m)) H1) as Hupd.
  rewrite <- Hsplit in Hupd.
  assert (Hagain : forall w2, messages w2 = l1 ++ readAs (clock w) m :: l2 ->
    putRead noFailure user (Message._id m) w2
    = (Return (ok (MessageData (readAs (clock w) m))), w2)).
  { intros w2 Hw2.
    unfold putRead, tryCatch, noFailure. unfold bind at 1. cbn [await ret].
    unfold bind at 1. cbn [get]. rewrite Hw2.
    rewrite find_by_id, Hp';
      [|intros x Hx; rewrite Hid; revert Hx; apply receivedBy_id
       |rewrite Hid; exact H1|rewrite Hid; exact H2].
    replace (Message.isRead (readAs (clock w) m)) with true
      by (rewrite Hfields; reflexivity).
    reflexivity. }
  assert (Hrun : exists w',
    putRead noFailure user (Message._id m) w
    = (Return (ok (MessageData (readAs (clock w) m))), w')
    /\ messages w' = l1 ++ readAs (clock w) m :: l2
    /\ emitted w' = emitted w
                    ++ routeEvent w (Message.sender m) "message_read" m).
  { unfold putRead, tryCatch, noFailure. unfold bind at 1. cbn [await ret].
    unfold bind at 1. cbn [get]. rewrite Hfind, Hread. cbn [negb].
    unfold bind at 1. cbn [new_Date]. unfold bind at 1.
    unfold saveLoadedMessage. rewrite decide_False by exact Hne.
    unfold bind at 1. cbn [await ret]. unfold bind at 1. cbn [new_Date].
    unfold bind at 1. cbn [get]. unfold bind at 1. cbn [get].
    rewrite Hupd. cbn [modify].
    assert (Hmemory : touched (clock w) (markAsRead (clock w) m)
                      = readAs (clock w) m)
      by (rewrite Hfields; reflexivity).
    unfold ioEmitToUser, routeEvent, bind, get, modify, ret.
    cbn [io set_messages]. rewrite Hmemory.
    destruct (io w) eqn:Hio; eexists; (split; [reflexivity|]);
      cbn [messages emitted set_messages set_emitted];
      rewrite ?app_nil_r; split; reflexivity. }
  destruct Hrun as (w' & Hrun & Hmsgs & Hemit).
  exists w'. split; [exact Hsplit|]. split; [exact Hrun|].
  split; [exact Hmsgs|].
  split; [rewrite Hfields; reflexivity|].
  split; [rewrite Hfields; reflexivity|].
  split; [rewrite Hemit; reflexivity|].
  split; [|apply Hagain; destruct w'; exact Hmsgs].
  unfold getUnreadCountRoute, getUnreadCount, tryCatch, bind.
  cbn [await ret get]. rewrite Hmsgs, Hsplit.
  rewrite !countDocuments_app, !countDocuments_cons.
  replace (unreadFor (User._id user) (readAs (clock w) m)) with false
    by (rewrite Hfields; unfold unreadFor; cbn; rewrite andb_false_r;
        reflexivity).
  replace (unreadFor (User._id user) m) with true
    by (unfold unreadFor; rewrite Hrecv, Hread, Hdel, N.eqb_refl;
        reflexivity).
  do 4 f_equal. lia.
Qed.

Lemma putRead_once_witness :
  exists w',
    putRead noFailure bob 40 chatWorld
    = (Return (Response.mk 200 true "Message marked as read successfully"
                 (MessageData (readAs 1000 hello))), w')
    /\ messages w' = [readAs 1000 hello; answer]
    /\ putRead noFailure bob 40 (advance 60000 w')
       = (Return (Response.mk 200 true "Message marked as read successfully"
                    (MessageData (readAs 1000 hello))), advance 60000 w').
Proof.
  destruct (putRead_once bob hello chatWorld 60000)
    as (l1 & l2 & w' & Hsplit & Hrun & Hmsgs & _ & _ & _ & _ & Hagain).
  - apply (bool_decide_unpack _). vm_compute. exact I.
  - apply (bool_decide_unpack _). vm_compute. exact I.
  - reflexivity.
  - reflexivity.
  - reflexivity.
  - exists w'. split; [exact Hrun|]. split; [|exact Hagain].
    rewrite Hmsgs.
    assert (Hl : l1 = [] /\ l2 = [answer]).
    { destruct l1 as [|x l1]; cbn in Hsplit.
      - injection Hsplit as <-. split; reflexivity.
      - injection Hsplit as <- Hrest. destruct l1 as [|y l1]; cbn in Hrest.
        + injection Hrest as Habs _. discriminate.
        + injection Hrest as _ Hrest. destruct l1; discriminate. }
    destruct Hl as [-> ->]. reflexivity.
Defined.

Lemma find_none_by {A} (p : A -> bool) (l : list A) :
  (forall x, x ∈ l -> p x = false) -> List.find p l = None.
Proof.
  intros H. apply find_none_split, Forall_forall. exact H.
Qed.

Lemma putRead_not_found (infra : MessageAwait -> option string)
    (user : User.t) (messageId : ObjectId) (w : World) :
  (forall x, x ∈ messages w -> Message._id x = messageId ->
     Message.receiver x <> User._id user \/ Message.isDeleted x = true) ->
  putRead infra user messageId w
  = (Return (match infra MsFindOne with
             | None => Response.mk 404 false "Message not found" NoData
             | Some _ =>
                 Response.mk 500 false "Failed to mark message as read"
                   NoData
             end), w).
Proof.
  intros Hnone. unfold putRead, tryCatch. unfold bind at 1.
  destruct (infra MsFindOne) as [e|]; cbn [await throw ret]; [reflexivity|].
  unfold bind at 1. cbn [get].
  rewrite find_none_by; [reflexivity|].
  intros x Hx. unfold receivedBy.
  destruct (N.eqb_spec (Message._id x) messageId) as [Hid|_]; [|reflexivity].
  destruct (Hnone x Hx Hid) as [Hr| ->]; [|apply andb_false_r].
  destruct (N.eqb_spec (Message.receiver x) (User._id user));
    [contradiction|reflexivity].
Qed.

Lemma deleteMessage_not_found (infra : MessageAwait -> option string)
    (user : User.t) (messageId : ObjectId) (w : World) :
  (forall x, x ∈ messages w -> Message._id x = messageId ->
     Message.sender x <> User._id user \/ Message.isDeleted x = true) ->
  deleteMessage infra user messageId w
  = (Return (match infra MsFindOne with
             | None =>
                 Response.mk 404 false "Message not found or access denied"
                   NoData
             | Some _ =>
                 Response.mk 500 false "Failed to delete message" NoData
             end), w).
Proof.
  intros Hnone. unfold deleteMessage, tryCatch. unfold bind at 1.
  destruct (infra MsFindOne) as [e|]; cbn [await throw ret]; [reflexivity|].
  unfold bind at 1. cbn [get].
  rewrite find_none_by; [reflexivity|].
  intros x Hx. unfold sentBy.
  destruct (N.eqb_spec (Message._id x) messageId) as [Hid|_]; [|reflexivity].
  destruct (Hnone x Hx Hid) as [Hr| ->]; [|apply andb_false_r].
  destruct (N.eqb_spec (Message.sender x) (User._id user));
    [contradiction|reflexivity].
Qed.

(** X5. A message belongs to its two parties: a user who is not the
    receiver of a message cannot mark it read, and a user who is not its
    sender cannot delete it.  Such a request is answered 404 (500 when
    the query fails), as is a request for an id that no message has, and
    nothing is stored or emitted. *)
Theorem message_owner_only (infra : MessageAwait -> option string)
    (user : User.t) (m : Message.t) (w : World) :
  NoDup (map Message._id (messages w)) -> m ∈ messages w ->
  let notRead :=
    (Return (match infra MsFindOne with
             | None => Response.mk 404 false "Message not found" NoData
             | Some _ =>
                 Response.mk 500 false "Failed to mark message as read"
                   NoData
             end), w) in
  let notDeleted :=
    (Return (match infra MsFindOne with
             | None =>
                 Response.mk 404 false "Message not found or access denied"
                   NoData
             | Some _ =>
                 Response.mk 500 false "Failed to delete message" NoData
             end), w) in
  (Message.receiver m <> User._id user ->
   putRead infra user (Message._id m) w = notRead)
  /\ (Message.sender m <> User._id user ->
      deleteMessage infra user (Message._id m) w = notDeleted)
  /\ (forall messageId,
        (forall x, x ∈ messages w -> Message._id x <> messageId) ->
        putRead infra user messageId w = notRead
        /\ deleteMessage infra user messageId w = notDeleted).
Proof.
  intros Hnd Hin notRead notDeleted.
  destruct (messages_split _ _ Hnd Hin) as (l1 & l2 & Hsplit & H1 & H2).
  assert (Honly : forall x, x ∈ messages w ->
                    Message._id x = Message._id m -> x = m).
  { intros x Hx Hid. rewrite Hsplit in Hx.
    apply elem_of_app in Hx as [Hx|Hx].
    - exfalso. revert Hid. apply (proj1 (Forall_forall _ _) H1 x Hx).
    - apply elem_of_cons in Hx as [->|Hx]; [reflexivity|].
      exfalso. revert Hid. apply (proj1 (Forall_forall _ _) H2 x Hx). }
  split; [|split].
  - intros Hnot. apply putRead_not_found. intros x Hx Hid. left.
    rewrite (Honly x Hx Hid). exact Hnot.
  - intros Hnot. apply deleteMessage_not_found. intros x Hx Hid. left.
    rewrite (Honly x Hx Hid). exact Hnot.
  - intros messageId Hnone. split.
    + apply putRead_not_found. intros x Hx Hid.
      destruct (Hnone x Hx Hid).
    + apply deleteMessage_not_found. intros x Hx Hid.
      destruct (Hnone x Hx Hid).
Qed.

Lemma message_owner_only_witness :
  putRead noFailure ann 40 chatWorld
  = (Return (Response.mk 404 false "Message not found" NoData), chatWorld)
  /\ deleteMessage noFailure cyd 40 chatWorld
     = (Return (Response.mk 404 false "Message not found or access denied"
                  NoData), chatWorld).
Proof.
  assert (Hnd : NoDup (map Message._id (messages chatWorld)))
    by (apply (bool_decide_unpack _); vm_compute; exact I).
  assert (Hin : hello ∈ messages chatWorld)
    by (apply (bool_decide_unpack _); vm_compute; exact I).
  destruct (message_owner_only noFailure ann hello chatWorld Hnd Hin)
    as (Hread & _ & _).
  destruct (message_owner_only noFailure cyd hello chatWorld Hnd Hin)
    as (_ & Hdelete & _).
  split; [apply Hread|apply Hdelete]; discriminate.
Defined.

Lemma unreadFor_deletedAs now u m :
  Message.isDeleted m = false -> unreadFor u (deletedAs now m) = false.
Proof.
  intros Hd. rewrite (deletedAs_fields now m Hd). unfold unreadFor. cbn.
  apply andb_false_r.
Qed.

(** X6. A delete by the sender is a soft delete: the document stays in
    the collection with [isDeleted] and [deletedAt] set and its other
    fields as they were, the receiver is told, and the message no longer
    counts as unread for anyone.  After it a second delete and a read
    request of the receiver are both answered 404 and change nothing. *)
Theorem deleteMessage_soft (user reader : User.t) (m : Message.t)
    (w : World) (ms : Z) :
  NoDup (map Message._id (messages w)) -> m ∈ messages w ->
  Message.sender m = User._id user -> Message.isDeleted m = false ->
  exists l1 l2 w',
    messages w = l1 ++ m :: l2
    /\ deleteMessage noFailure user (Message._id m) w
       = (Return (Response.mk 200 true "Message deleted successfully"
                    NoData), w')
    /\ messages w' = l1 ++ deletedAs (clock w) m :: l2
    /\ deletedAs (clock w) m
       = Message.mk (Message._id m) (Message.sender m) (Message.receiver m)
           (Message.conversation m) (Message.content m)
           (Message.messageType m) (Message.isRead m) (Message.readAt m)
           true (Some (clock w)) (Message.createdAt m) (clock w)
    /\ emitted w' = emitted w
                    ++ routeEvent w (Message.receiver m) "message_deleted" m
    /\ (forall u,
          countDocuments (unreadFor u) (messages w')
          = countDocuments (unreadFor u) (messages w)
            - (if unreadFor u m then 1 else 0))
    /\ deleteMessage noFailure user (Message._id m) (advance ms w')
       = (Return (Response.mk 404 false "Message not found or access denied"
                    NoData), advance ms w')
    /\ putRead noFailure reader (Message._id m) (advance ms w')
       = (Return (Response.mk 404 false "Message not found" NoData),
          advance ms w').
Proof.
  intros Hnd Hin Hsender Hdel.
  destruct (messages_split _ _ Hnd Hin) as (l1 & l2 & Hsplit & H1 & H2).
  exists l1, l2.
  assert (Hp : sentBy (Message._id m) (User._id user) m = true).
  { unfold sentBy. rewrite Hsender, Hdel, !N.eqb_refl. reflexivity. }
  assert (Hfind : List.find (sentBy (Message._id m) (User._id user))
                    (messages w) = Some m).
  { rewrite Hsplit, find_by_id, Hp; [reflexivity| |exact H1|exact H2].
    intros x. apply sentBy_id. }
  assert (Hne : m <> softDelete (clock w) m).
  { intros Heq. rewrite Heq in Hdel. discriminate. }
  pose proof (deletedAs_fields (clock w) m Hdel) as Hfields.
  pose proof (updateMessage_split l1 m l2
    (patchMessage (clock w) m (softDelete (clock w) m)) H1) as Hupd.
  rewrite <- Hsplit in Hupd.
  assert (Hgone : forall w2 x,
    messages w2 = l1 ++ deletedAs (clock w) m :: l2 ->
    x ∈ messages w2 -> Message._id x = Message._id m ->
    Message.isDeleted x = true).
  { intros w2 x Hw2 Hx Hid. rewrite Hw2 in Hx.
    apply elem_of_app in Hx as [Hx|Hx].
    - exfalso. revert Hid. apply (proj1 (Forall_forall _ _) H1 x Hx).
    - apply elem_of_cons in Hx as [->|Hx].
      + rewrite Hfields. reflexivity.
      + exfalso. revert Hid. apply (proj1 (Forall_forall _ _) H2 x Hx). }
  assert (Hrun : exists w',
    deleteMessage noFailure user (Message._id m) w
    = (Return (Response.mk 200 true "Message deleted successfully" NoData),
       w')
    /\ messages w' = l1 ++ deletedAs (clock w) m :: l2
    /\ emitted w' = emitted w
                    ++ routeEvent w (Message.receiver m) "message_deleted" m).
  { unfold deleteMessage, tryCatch, noFailure. unfold bind at 1.
    cbn [await ret]. unfold bind at 1. cbn [get]. rewrite Hfind.
    unfold bind at 1. cbn [new_Date]. unfold bind at 1.
    unfold saveLoadedMessage. rewrite decide_False by exact Hne.
    unfold bind at 1. cbn [await ret]. unfold bind at 1. cbn [new_Date].
    unfold bind at 1. cbn [get]. unfold bind at 1. cbn [get].
    rewrite Hupd. cbn [modify].
    unfold ioEmitToUser, routeEvent, bind, get, modify, ret.
    cbn [io set_messages].
    destruct (io w) eqn:Hio; eexists; (split; [reflexivity|]);
      cbn [messages emitted set_messages set_emitted];
      rewrite ?app_nil_r; split; reflexivity. }
  destruct Hrun as (w' & Hrun & Hmsgs & Hemit).
  assert (Hmsgs' : messages (advance ms w')
                   = l1 ++ deletedAs (clock w) m :: l2)
    by (destruct w'; exact Hmsgs).
  exists w'. split; [exact Hsplit|]. split; [exact Hrun|].
  split; [exact Hmsgs|]. split; [exact Hfields|]. split; [exact Hemit|].
  split; [|split].
  - intros u. rewrite Hmsgs, Hsplit.
    rewrite !countDocuments_app, !countDocuments_cons.
    rewrite (unreadFor_deletedAs _ _ _ Hdel). lia.
  - apply (deleteMessage_not_found noFailure).
    intros x Hx Hid. right. exact (Hgone _ x Hmsgs' Hx Hid).
  - apply (putRead_not_found noFailure).
    intros x Hx Hid. right. exact (Hgone _ x Hmsgs' Hx Hid).
Qed.

Lemma deleteMessage_soft_witness :
  exists w',
    deleteMessage noFailure ann 40 chatWorld
    = (Return (Response.mk 200 true "Message deleted successfully" NoData),
       w')
    /\ countDocuments (unreadFor 2) (messages chatWorld) = 1
    /\ countDocuments (unreadFor 2) (messages w') = 0
    /\ putRead noFailure bob 40 (advance 1 w')
       = (Return (Response.mk 404 false "Message not found" NoData),
          advance 1 w').
Proof.
  destruct (deleteMessage_soft ann bob hello chatWorld 1)
    as (l1 & l2 & w' & _ & Hrun & _ & _ & _ & Hcount & _ & Hread).
  - apply (bool_decide_unpack _). vm_compute. exact I.
  - apply (bool_decide_unpack _). vm_compute. exact I.
  - reflexivity.
  - reflexivity.
  - exists w'. split; [exact Hrun|]. split; [reflexivity|].
    split; [rewrite Hcount; reflexivity|exact Hread].
Defined.

Lemma findActiveUser_found receiver coll :
  receiver ∈ coll -> User.isActive receiver = true ->
  exists r, findActiveUser (User._id receiver) coll = Some r.
Proof.
  intros Hin Hact. unfold findActiveUser.
  destruct (List.find _ coll) as [r|] eqn:Hfind; [exists r; reflexivity|].
  exfalso. apply list_elem_of_In in Hin.
  pose proof (find_none _ _ Hfind receiver Hin) as Hno. cbn in Hno.
  rewrite N.eqb_refl, Hact in Hno. discriminate.
Qed.

Lemma findActiveUser_none receiverId coll :
  (forall u, u ∈ coll -> User._id u = receiverId ->
     User.isActive u = false) ->
  findActiveUser receiverId coll = None.
Proof.
  intros Hnone. unfold findActiveUser. apply find_none_by.
  intros u Hu. destruct (N.eqb_spec (User._id u) receiverId) as [Hid|_];
    [|reflexivity].
  rewrite (Hnone u Hu Hid). reflexivity.
Qed.

Lemma Message_new_text_valid id s r cv c :
  validContent c ->
  Message.validate (Message.new id s r cv c Message.text) = None.
Proof.
  unfold validContent, Message.validate, Message.new.
  cbn [Message.content]. intros [Hpos Hle].
  destruct (Nat.eqb_spec (length (trim c)) 0); [lia|].
  destruct (Nat.ltb_spec 1000 (length (trim c))); [lia|reflexivity].
Qed.

Lemma findOrCreateConversation_between a b w c w1 :
  wfConversations w ->
  findOrCreateConversation None None None a b w = (Return (Some c), w1) ->
  Conversation.between a b c = true.
Proof.
  intros [Hnd Hlt]. rewrite findOrCreateConversation_run.
  destruct (Conversation.findOne _ _) as [c0|] eqn:Hfind.
  - intros [= <- _]. apply find_some in Hfind as [_ Hb]. exact Hb.
  - cbv zeta.
    set (c0 := Conversation.fresh (nextId w) (clock w) a b).
    assert (Hfresh : Forall (fun x => Conversation._id x
                                      <> Conversation._id c0)
                       (conversations w)).
    { eapply Forall_impl; [exact Hlt|]. cbn. intros x Hx. lia. }
    change (nextId w) with (Conversation._id c0) at 1.
    rewrite (Conversation_findById_fresh _ _ Hfresh).
    intros [= <- _]. unfold Conversation.between, Conversation.includes.
    cbn. rewrite !N.eqb_refl. cbn. rewrite orb_true_r. reflexivity.
Qed.

(** A string that is cast to an id without being its [toString] is the
    [toString] of no id, when [toString] can be cast back: it names the
    room of no user. *)
Lemma other_spelling_names_no_room
    (castObjectId : string -> option ObjectId)
    (toString : ObjectId -> string) (name : string) (id : ObjectId) :
  (forall x, castObjectId (toString x) = Some x) ->
  castObjectId name = Some id -> toString id <> name ->
  forall x, toString x <> name.
Proof.
  intros Hback Hcast Hother x Hx. apply Hother.
  rewrite <- Hx in Hcast. rewrite Hback in Hcast.
  injection Hcast as ->. exact Hx.
Qed.

(** What [POST /send] does when the database answers, for a string that
    is cast to the id of an active user and is not the string of the
    sender's id. *)
Lemma postSend_run (castObjectId : string -> option ObjectId)
    (toString : ObjectId -> string) (user receiver : User.t)
    (receiverId : string) (content : JSString) (w : World) :
  wfConversations w ->
  receiver ∈ users w -> User.isActive receiver = true ->
  castObjectId receiverId = Some (User._id receiver) ->
  toString (User._id user) <> receiverId ->
  validContent content ->
  exists c m w',
    postSend castObjectId toString noFailure user receiverId content w
    = (Return (Response.mk 201 true "Message sent successfully"
                 (SentData (Message._id m) (Conversation._id c))), w')
    /\ Conversation.between (User._id user) (User._id receiver) c = true
    /\ (nextId w <= Message._id m < nextId w')%N
    /\ m = Message.mk (Message._id m) (User._id user) (User._id receiver)
             (Conversation._id c) (trim content) Message.text
             false None false None (clock w) (clock w)
    /\ messages w' = messages w ++ [m]
    /\ (exists c',
          Conversation.findById (Conversation._id c) (conversations w')
          = Some c'
          /\ Conversation.lastMessage c' = Some (Message._id m)
          /\ Conversation.lastActivity c' = clock w)
    /\ emitted w'
       = emitted w
         ++ (if io w then
               (if String.eqb (toString (User._id receiver)) receiverId
                then [mkEmitted (User._id receiver) "message_received"
                        (Message._id m) (Conversation._id c) false]
                else [])
               ++ [mkEmitted (User._id user) "message_sent"
                     (Message._id m) (Conversation._id c) false]
             else [])
    /\ countDocuments (unreadFor (User._id receiver)) (messages w')
       = countDocuments (unreadFor (User._id receiver)) (messages w) + 1.
Proof.
  intros Hwf Hin Hact Hcast Hother Hv.
  destruct (findActiveUser_found receiver (users w) Hin Hact) as [r Hr].
  destruct (findOrCreateConversation_ok (User._id user) (User._id receiver)
              w Hwf) as (c & w1 & Hfoc & Hfind & [Hnd1 Hlt1] & Hn1).
  pose proof (findOrCreateConversation_between _ _ _ _ _ Hwf Hfoc) as Hbetween.
  assert (Hclock : clock w1 = clock w).
  { pose proof (keeps_findOrCreateConversation clock
      (fun _ _ => eq_refl) (fun _ _ => eq_refl)
      None None None (User._id user) (User._id receiver) w) as H.
    rewrite Hfoc in H. exact H. }
  assert (Hmsgs : messages w1 = messages w).
  { pose proof (keeps_findOrCreateConversation messages
      (fun _ _ => eq_refl) (fun _ _ => eq_refl)
      None None None (User._id user) (User._id receiver) w) as H.
    rewrite Hfoc in H. exact H. }
  assert (Hemit : emitted w1 = emitted w).
  { pose proof (keeps_findOrCreateConversation emitted
      (fun _ _ => eq_refl) (fun _ _ => eq_refl)
      None None None (User._id user) (User._id receiver) w) as H.
    rewrite Hfoc in H. exact H. }
  assert (Hio : io w1 = io w).
  { pose proof (keeps_findOrCreateConversation io
      (fun _ _ => eq_refl) (fun _ _ => eq_refl)
      None None None (User._id user) (User._id receiver) w) as H.
    rewrite Hfoc in H. exact H. }
  set (m := Message.stamped (clock w1)
              (Message.new (nextId w1) (User._id user) (User._id receiver)
                 (Conversation._id c) content Message.text)).
  set (w2 := set_messages (messages w1 ++ [m])
               (set_nextId (nextId w1 + 1)%N w1)).
  assert (Hfind2 : Conversation.findById (Conversation._id c)
                     (conversations w2) = Some c) by exact Hfind.
  destruct (saveConversation_run c
              (Conversation.updateLastActivity (clock w2)
                 (Some (Message._id m)) c) w2 Hfind2)
    as (coll & Hsave & Hfind3 & Hids).
  set (told :=
         (if String.eqb (toString (User._id receiver)) receiverId
          then [mkEmitted (User._id receiver) "message_received"
                  (Message._id m) (Conversation._id c) false]
          else [])
         ++ [mkEmitted (User._id user) "message_sent"
               (Message._id m) (Conversation._id c) false]).
  assert (Hrun :
    postSend castObjectId toString noFailure user receiverId content w
    = (Return (Response.mk 201 true "Message sent successfully"
                 (SentData (Message._id m) (Conversation._id c))),
       if io w then
         set_emitted (emitted w ++ told) (set_conversations coll w2)
       else set_conversations coll w2)).
  { unfold postSend, tryCatch, noFailure. rewrite Hcast.
    unfold bind at 1. cbn [await ret]. unfold bind at 1. cbn [get].
    rewrite Hr.
    destruct (String.eqb_spec (toString (User._id user)) receiverId)
      as [Heq|_]; [contradiction|].
    unfold bind at 1. rewrite Hfoc.
    unfold bind at 1. cbn [new_ObjectId].
    unfold bind at 1.
    rewrite saveMessage_run by (apply Message_new_text_valid, Hv).
    unfold bind at 1. cbn [new_Date].
    unfold bind at 1.
    change (saveConversation None c _ _)
      with (saveConversation None c
              (Conversation.updateLastActivity (clock w2)
                 (Some (Message._id m)) c) w2).
    rewrite Hsave.
    unfold told, ioEmitToRoom, ioEmitToUser, bind, ret.
    unfold w2.
    destruct (String.eqb (toString (User._id receiver)) receiverId);
      cbn [io set_conversations set_emitted set_messages set_nextId emitted];
      destruct (io w) eqn:Hiow; rewrite Hio;
      cbn [io set_conversations set_emitted set_messages set_nextId emitted
           app];
      rewrite ?Hio; try reflexivity;
      rewrite <- Hemit, <- ?app_assoc; reflexivity. }
  exists c, m. eexists. split; [exact Hrun|].
  split; [exact Hbetween|].
  assert (Hm : m = Message.mk (nextId w1) (User._id user) (User._id receiver)
             (Conversation._id c) (trim content) Message.text
             false None false None (clock w) (clock w)).
  { unfold m, Message.stamped, Message.new. cbn. rewrite Hclock.
    reflexivity. }
  assert (Hmid : Message._id m = nextId w1) by reflexivity.
  destruct (updateLastActivity_patch (clock w2) (clock w2) (Message._id m) c)
    as (Hlast & Hact' & _ & _).
  split; [|split; [|split; [|split; [|split]]]].
  - rewrite Hmid. destruct (io w);
      cbn [nextId set_emitted set_conversations set_messages set_nextId w2];
      lia.
  - rewrite Hm at 1. reflexivity.
  - rewrite <- Hmsgs. destruct (io w); reflexivity.
  - exists (Conversation.patch (clock w2) c
              (Conversation.updateLastActivity (clock w2)
                 (Some (Message._id m)) c) c).
    split; [destruct (io w); exact Hfind3|].
    split; [exact Hlast|]. rewrite Hact'. exact Hclock.
  - destruct (io w); cbn [emitted set_emitted set_conversations];
      [reflexivity|].
    rewrite app_nil_r. exact Hemit.
  - assert (Hmsgs' : forall w3, messages w3 = messages w1 ++ [m] ->
        countDocuments (unreadFor (User._id receiver)) (messages w3)
        = countDocuments (unreadFor (User._id receiver)) (messages w) + 1).
    { intros w3 ->. rewrite countDocuments_app, Hmsgs.
      rewrite countDocuments_cons. rewrite Hm at 1. unfold unreadFor at 2.
      cbn. rewrite N.eqb_refl. cbn. reflexivity. }
    destruct (io w); apply Hmsgs'; reflexivity.
Qed.

(** X7. A message sent over [POST /send], with a [receiverId] that is cast
    to the id of an active user and is not the string of the sender's own
    id, is stored once, trimmed, as an unread [text] message of their
    conversation (found or created); the conversation's [lastMessage]
    points at it and the receiver's unread count grows by one.  When the
    socket server is there the sender is told, and the receiver is told
    when [receiverId] is the [toString] of the receiver's id: the room of
    [message_received] is named by the string as it came. *)
Theorem postSend_delivers (castObjectId : string -> option ObjectId)
    (toString : ObjectId -> string) (user receiver : User.t)
    (receiverId : string) (content : JSString) (w : World) :
  wfConversations w ->
  receiver ∈ users w -> User.isActive receiver = true ->
  castObjectId receiverId = Some (User._id receiver) ->
  toString (User._id user) <> receiverId ->
  validContent content ->
  exists c m w',
    postSend castObjectId toString noFailure user receiverId content w
    = (Return (Response.mk 201 true "Message sent successfully"
                 (SentData (Message._id m) (Conversation._id c))), w')
    /\ Conversation.between (User._id user) (User._id receiver) c = true
    /\ (nextId w <= Message._id m < nextId w')%N
    /\ m = Message.mk (Message._id m) (User._id user) (User._id receiver)
             (Conversation._id c) (trim content) Message.text
             false None false None (clock w) (clock w)
    /\ messages w' = messages w ++ [m]
    /\ (exists c',
          Conversation.findById (Conversation._id c) (conversations w')
          = Some c'
          /\ Conversation.lastMessage c' = Some (Message._id m)
          /\ Conversation.lastActivity c' = clock w)
    /\ emitted w'
       = emitted w
         ++ (if io w then
               (if String.eqb (toString (User._id receiver)) receiverId
                then [mkEmitted (User._id receiver) "message_received"
                        (Message._id m) (Conversation._id c) false]
                else [])
               ++ [mkEmitted (User._id user) "message_sent"
                     (Message._id m) (Conversation._id c) false]
             else [])
    /\ countDocuments (unreadFor (User._id receiver)) (messages w')
       = countDocuments (unreadFor (User._id receiver)) (messages w) + 1.
Proof. apply postSend_run. Qed.

Lemma postSend_delivers_witness :
  (exists c m w',
     postSend castHex hexString noFailure cyd annLower (js "see you")
       chatWorld
     = (Return (Response.mk 201 true "Message sent successfully"
                  (SentData (Message._id m) (Conversation._id c))), w')
     /\ messages w' = [hello; answer; m]
     /\ Message.content m = js "see you"
     /\ map room (emitted w') = [1%N; 3%N])
  /\ (exists c m w',
        postSend castHex hexString noFailure cyd eveUpper (js "see you")
          eveWorld
        = (Return (Response.mk 201 true "Message sent successfully"
                     (SentData (Message._id m) (Conversation._id c))), w')
        /\ messages w' = [hello; answer; m]
        /\ Message.receiver m = 171%N
        /\ map room (emitted w') = [3%N]).
Proof.
  split.
  - destruct (postSend_delivers castHex hexString cyd ann annLower
                (js "see you") chatWorld)
      as (c & m & w' & Hrun & _ & _ & Hm & Hmsgs & _ & Hemit & _).
    + split.
      * apply (bool_decide_unpack _). vm_compute. exact I.
      * repeat constructor.
    + apply (bool_decide_unpack _). vm_compute. exact I.
    + reflexivity.
    + reflexivity.
    + discriminate.
    + unfold validContent. vm_compute. lia.
    + exists c, m, w'. split; [exact Hrun|]. split; [exact Hmsgs|].
      split; [rewrite Hm; reflexivity|]. rewrite Hemit. reflexivity.
  - destruct (postSend_delivers castHex hexString cyd eve eveUpper
                (js "see you") eveWorld)
      as (c & m & w' & Hrun & _ & _ & Hm & Hmsgs & _ & Hemit & _).
    + split.
      * apply (bool_decide_unpack _). vm_compute. exact I.
      * repeat constructor.
    + apply (bool_decide_unpack _). vm_compute. exact I.
    + reflexivity.
    + reflexivity.
    + discriminate.
    + unfold validContent. vm_compute. lia.
    + exists c, m, w'. split; [exact Hrun|]. split; [exact Hmsgs|].
      split; [rewrite Hm; reflexivity|]. rewrite Hemit. reflexivity.
Defined.

Lemma saveConversation_fails e loaded this w :
  loaded <> this -> saveConversation (Some e) loaded this w = (Throw e, w).
Proof.
  intros Hne. unfold saveConversation. rewrite decide_False by exact Hne.
  reflexivity.
Qed.

Lemma findOrCreateConversation_lastMessage a b w c w1 :
  wfConversations w -> wfLastMessages w ->
  findOrCreateConversation None None None a b w = (Return (Some c), w1) ->
  forall mid, Conversation.lastMessage c = Some mid -> (mid < nextId w1)%N.
Proof.
  intros [Hnd Hlt] Hold. rewrite findOrCreateConversation_run.
  destruct (Conversation.findOne _ _) as [c0|] eqn:Hfind.
  - intros [= <- <-]. apply find_some in Hfind as [Hin _].
    apply list_elem_of_In in Hin.
    exact (proj1 (Forall_forall _ _) Hold c0 Hin).
  - cbv zeta.
    set (c0 := Conversation.fresh (nextId w) (clock w) a b).
    assert (Hfresh : Forall (fun x => Conversation._id x
                                      <> Conversation._id c0)
                       (conversations w)).
    { eapply Forall_impl; [exact Hlt|]. cbn. intros x Hx. lia. }
    change (nextId w) with (Conversation._id c0) at 1.
    rewrite (Conversation_findById_fresh _ _ Hfresh).
    intros [= <- _] mid Hmid. discriminate.
Qed.

(** X8. [POST /send] is not atomic: when the store fails at the update
    of the conversation, the request is answered 500 and nobody is told,
    but the message saved before stays in the collection and counts as
    unread for the receiver. *)
Theorem postSend_not_atomic (castObjectId : string -> option ObjectId)
    (toString : ObjectId -> string) (infra : SendAwait -> option string)
    (e : string) (user receiver : User.t) (receiverId : string)
    (content : JSString) (w : World) :
  infra SdUpdateLastActivity = Some e ->
  (forall a, a <> SdUpdateLastActivity -> infra a = None) ->
  wfConversations w -> wfLastMessages w ->
  receiver ∈ users w -> User.isActive receiver = true ->
  castObjectId receiverId = Some (User._id receiver) ->
  toString (User._id user) <> receiverId ->
  validContent content ->
  exists m w',
    postSend castObjectId toString infra user receiverId content w
    = (Return (Response.mk 500 false "Failed to send message" NoData), w')
    /\ messages w' = messages w ++ [m]
    /\ Message.sender m = User._id user
    /\ Message.receiver m = User._id receiver
    /\ Message.content m = trim content
    /\ emitted w' = emitted w
    /\ countDocuments (unreadFor (User._id receiver)) (messages w')
       = countDocuments (unreadFor (User._id receiver)) (messages w) + 1.
Proof.
  intros Hfail Hrest Hwf Hold Hin Hact Hcast Hother Hv.
  destruct (findActiveUser_found receiver (users w) Hin Hact) as [r Hr].
  destruct (findOrCreateConversation_ok (User._id user) (User._id receiver)
              w Hwf) as (c & w1 & Hfoc & Hfind & _ & _).
  pose proof (findOrCreateConversation_lastMessage _ _ _ _ _ Hwf Hold Hfoc)
    as Hlast.
  assert (Hmsgs : messages w1 = messages w).
  { pose proof (keeps_findOrCreateConversation messages
      (fun _ _ => eq_refl) (fun _ _ => eq_refl)
      None None None (User._id user) (User._id receiver) w) as H.
    rewrite Hfoc in H. exact H. }
  assert (Hemit : emitted w1 = emitted w).
  { pose proof (keeps_findOrCreateConversation emitted
      (fun _ _ => eq_refl) (fun _ _ => eq_refl)
      None None None (User._id user) (User._id receiver) w) as H.
    rewrite Hfoc in H. exact H. }
  set (m := Message.stamped (clock w1)
              (Message.new (nextId w1) (User._id user) (User._id receiver)
                 (Conversation._id c) content Message.text)).
  set (w2 := set_messages (messages w1 ++ [m])
               (set_nextId (nextId w1 + 1)%N w1)).
  exists m, w2.
  split; [|split; [|split; [|split; [|split; [|split]]]]];
    try reflexivity.
  - unfold postSend, tryCatch. rewrite Hcast.
    rewrite !Hrest by discriminate. rewrite Hfail.
    unfold bind at 1. cbn [await ret]. unfold bind at 1. cbn [get].
    rewrite Hr.
    destruct (String.eqb_spec (toString (User._id user)) receiverId)
      as [Heq|_]; [contradiction|].
    unfold bind at 1. rewrite Hfoc.
    unfold bind at 1. cbn [new_ObjectId].
    unfold bind at 1.
    rewrite saveMessage_run by (apply Message_new_text_valid, Hv).
    unfold bind at 1. cbn [new_Date].
    unfold bind at 1.
    rewrite saveConversation_fails; [reflexivity|].
    intros Heq.
    assert (Hl : Conversation.lastMessage c = Some (nextId w1)).
    { rewrite Heq at 1. reflexivity. }
    specialize (Hlast _ Hl). lia.
  - cbn [messages set_messages w2]. rewrite Hmsgs. reflexivity.
  - exact Hemit.
  - cbn [messages set_messages w2].
    rewrite countDocuments_app, Hmsgs, countDocuments_cons.
    unfold unreadFor at 2. cbn. rewrite N.eqb_refl. cbn. reflexivity.
Qed.

Lemma postSend_not_atomic_witness :
  exists m w',
    postSend castHex hexString lastActivityFails cyd annLower
      (js "see you") chatWorld
    = (Return (Response.mk 500 false "Failed to send message" NoData), w')
    /\ messages w' = [hello; answer; m]
    /\ Message.content m = js "see you".
Proof.
  destruct (postSend_not_atomic castHex hexString lastActivityFails
              "connection lost" cyd ann annLower (js "see you") chatWorld)
    as (m & w' & Hrun & Hmsgs & _ & _ & Hcontent & _).
  - reflexivity.
  - intros [] Ha; try reflexivity. contradiction.
  - split.
    + apply (bool_decide_unpack _). vm_compute. exact I.
    + repeat constructor.
  - repeat constructor. intros mid [= <-]. reflexivity.
  - apply (bool_decide_unpack _). vm_compute. exact I.
  - reflexivity.
  - reflexivity.
  - discriminate.
  - unfold validContent. vm_compute. lia.
  - exists m, w'. split; [exact Hrun|]. split; [exact Hmsgs|].
    exact Hcontent.
Defined.

(** X9. [POST /send] stores nothing and tells nobody when it refuses:
    for a [receiverId] that is no id (500), for one that is cast to the id
    of no active user (404), and for the string of the sender's own id
    (400); when the lookup of the receiver fails the answer is 500.  The
    test for a message to oneself compares strings: the sender's own id in
    another spelling passes it, and the message to oneself is answered 201
    and stored. *)
Theorem postSend_refuses (castObjectId : string -> option ObjectId)
    (toString : ObjectId -> string) (infra : SendAwait -> option string)
    (user : User.t) (receiverId : string) (content : JSString)
    (w : World) :
  let failed := Response.mk 500 false "Failed to send message" NoData in
  let answer := postSend castObjectId toString infra user receiverId
                  content w in
  (castObjectId receiverId = None -> answer = (Return failed, w))
  /\ (forall id,
        castObjectId receiverId = Some id ->
        (forall u, u ∈ users w -> User._id u = id ->
           User.isActive u = false) ->
        answer
        = (Return (match infra SdReceiver with
                   | None => Response.mk 404 false "Receiver not found"
                               NoData
                   | Some _ => failed
                   end), w))
  /\ (forall receiver,
        castObjectId receiverId = Some (User._id receiver) ->
        receiver ∈ users w -> User.isActive receiver = true ->
        toString (User._id user) = receiverId ->
        answer
        = (Return (match infra SdReceiver with
                   | None =>
                       Response.mk 400 false
                         "Cannot send message to yourself" NoData
                   | Some _ => failed
                   end), w))
  /\ (castObjectId receiverId = Some (User._id user) ->
      toString (User._id user) <> receiverId ->
      user ∈ users w -> User.isActive user = true ->
      wfConversations w -> validContent content ->
      exists c m w',
        postSend castObjectId toString noFailure user receiverId content w
        = (Return (Response.mk 201 true "Message sent successfully"
                     (SentData (Message._id m) (Conversation._id c))), w')
        /\ messages w' = messages w ++ [m]
        /\ Message.sender m = User._id user
        /\ Message.receiver m = User._id user).
Proof.
  intros failed answer. subst answer.
  split; [|split; [|split]].
  - intros Hcast. unfold postSend, tryCatch. rewrite Hcast. reflexivity.
  - intros id Hcast Hnone. unfold postSend, tryCatch. rewrite Hcast.
    unfold bind at 1.
    destruct (infra SdReceiver); cbn [await throw ret]; [reflexivity|].
    unfold bind at 1. cbn [get].
    rewrite (findActiveUser_none _ _ Hnone). reflexivity.
  - intros receiver Hcast Hin Hact Hsame. unfold postSend, tryCatch.
    rewrite Hcast. unfold bind at 1.
    destruct (infra SdReceiver); cbn [await throw ret]; [reflexivity|].
    unfold bind at 1. cbn [get].
    destruct (findActiveUser_found receiver (users w) Hin Hact) as [r ->].
    rewrite (proj2 (String.eqb_eq _ _) Hsame). reflexivity.
  - intros Hcast Hother Hin Hact Hwf Hv.
    destruct (postSend_run castObjectId toString user user receiverId
                content w Hwf Hin Hact Hcast Hother Hv)
      as (c & m & w' & Hrun & _ & _ & Hm & Hmsgs & _).
    exists c, m, w'. split; [exact Hrun|]. split; [exact Hmsgs|].
    rewrite Hm. split; reflexivity.
Qed.

Lemma postSend_refuses_witness :
  fst (postSend castHex hexString noFailure eve "eve" (js "note to self")
         eveWorld)
  = Return (Response.mk 500 false "Failed to send message" NoData)
  /\ fst (postSend castHex hexString noFailure eve eveLower
            (js "note to self") eveWorld)
     = Return (Response.mk 400 false "Cannot send message to yourself"
                 NoData)
  /\ exists c m w',
       postSend castHex hexString noFailure eve eveUpper
         (js "note to self") eveWorld
       = (Return (Response.mk 201 true "Message sent successfully"
                    (SentData (Message._id m) (Conversation._id c))), w')
       /\ messages w' = [hello; answer; m]
       /\ Message.sender m = 171%N /\ Message.receiver m = 171%N.
Proof.
  split; [|split].
  - destruct (postSend_refuses castHex hexString noFailure eve "eve"
                (js "note to self") eveWorld) as (Hcast & _).
    rewrite Hcast; reflexivity.
  - destruct (postSend_refuses castHex hexString noFailure eve eveLower
                (js "note to self") eveWorld) as (_ & _ & Hself & _).
    rewrite (Hself eve); try reflexivity.
    apply (bool_decide_unpack _). vm_compute. exact I.
  - destruct (postSend_refuses castHex hexString noFailure eve eveUpper
                (js "note to self") eveWorld) as (_ & _ & _ & Hother).
    apply Hother.
    + reflexivity.
    + discriminate.
    + apply (bool_decide_unpack _). vm_compute. exact I.
    + reflexivity.
    + split.
      * apply (bool_decide_unpack _). vm_compute. exact I.
      * repeat constructor.
    + unfold validContent. vm_compute. lia.
Defined.

Lemma markConversationAsRead_run conversationId userId w :
  markConversationAsRead None conversationId userId w
  = (Return (countDocuments (unreadIn conversationId userId) (messages w)),
     set_messages
       (map (fun d => if unreadIn conversationId userId d
                      then setRead (clock w) d else d) (messages w)) w).
Proof. reflexivity. Qed.

Lemma setRead_none_left now c u l :
  countDocuments (unreadIn c u)
    (map (fun d => if unreadIn c u d then setRead now d else d) l) = 0.
Proof.
  induction l as [|m l IH]; [reflexivity|].
  cbn [map]. rewrite countDocuments_cons, IH.
  destruct (setRead_pointwise now c u m) as (-> & _). reflexivity.
Qed.

(** X10. [PUT /:conversationId/mark-read] is for the participants of an
    active conversation: anyone else is answered 404 and no message
    changes.  A participant is answered 200 with the number of unread
    messages they had received in the conversation; afterwards they have
    none there, and the conversations are as before. *)
Theorem putMarkRead_participants_only (user : User.t)
    (conversationId : ObjectId) (w : World) :
  ((forall c, c ∈ conversations w ->
      Conversation._id c = conversationId ->
      Conversation.includes (User._id user) (Conversation.participants c)
      = false
      \/ Conversation.isActive c = false) ->
   putMarkRead noFailure user conversationId w
   = (Return (Response.mk 404 false "Conversation not found" NoData), w))
  /\ (forall c, c ∈ conversations w ->
        Conversation._id c = conversationId ->
        Conversation.includes (User._id user) (Conversation.participants c)
        = true ->
        Conversation.isActive c = true ->
        exists w',
          putMarkRead noFailure user conversationId w
          = (Return (Response.mk 200 true
                       "Messages marked as read successfully"
                       (MarkedCountData
                          (countDocuments
                             (unreadIn conversationId (User._id user))
                             (messages w)))), w')
          /\ countDocuments (unreadIn conversationId (User._id user))
               (messages w') = 0
          /\ map Message._id (messages w') = map Message._id (messages w)
          /\ conversations w' = conversations w
          /\ emitted w' = emitted w).
Proof.
  split.
  - intros Hnone. unfold putMarkRead, tryCatch, noFailure.
    unfold bind at 1. cbn [await ret]. unfold bind at 1. cbn [get].
    unfold Conversation.findOne. rewrite find_none_by; [reflexivity|].
    intros c Hc. unfold participating.
    destruct (N.eqb_spec (Conversation._id c) conversationId) as [Hid|_];
      [|reflexivity].
    destruct (Hnone c Hc Hid) as [-> | ->];
      [reflexivity|apply andb_false_r].
  - intros c Hc Hid Hinc Hact.
    assert (Hfound : exists c', Conversation.findOne
                       (participating conversationId (User._id user))
                       (conversations w) = Some c').
    { unfold Conversation.findOne.
      destruct (List.find _ _) as [c'|] eqn:Hfind; [exists c'; reflexivity|].
      exfalso. apply list_elem_of_In in Hc.
      pose proof (find_none _ _ Hfind c Hc) as Hno. cbn in Hno.
      unfold participating in Hno.
      rewrite Hid, N.eqb_refl, Hinc, Hact in Hno. discriminate. }
    destruct Hfound as [c' Hfound].
    eexists. split.
    + unfold putMarkRead, tryCatch, noFailure.
      unfold bind at 1. cbn [await ret]. unfold bind at 1. cbn [get].
      rewrite Hfound. unfold bind at 1.
      rewrite markConversationAsRead_run. reflexivity.
    + cbn [messages set_messages conversations emitted].
      split; [apply setRead_none_left|].
      split; [|split; reflexivity].
      rewrite map_map. apply map_ext. intros m.
      apply (setRead_pointwise (clock w) conversationId (User._id user) m).
Qed.

(** ** middleware/auth.js *)

Lemma split_word s1 s2 :
  spaceFree s1 = true ->
  split space (s1 +:+ String space s2) = s1 :: split space s2.
Proof.
  induction s1 as [|c s1 IH]; cbn [spaceFree].
  - intros _. change ("" +:+ String space s2) with (String space s2).
    cbn [split]. rewrite Ascii.eqb_refl. reflexivity.
  - intros H. apply andb_true_iff in H as [Hc Hs].
    apply negb_true_iff in Hc.
    change (String c s1 +:+ String space s2)
      with (String c (s1 +:+ String space s2)).
    cbn [split]. rewrite Hc, (IH Hs). reflexivity.
Qed.

Lemma split_one_word s :
  spaceFree s = true -> split space s = [s].
Proof.
  induction s as [|c s IH]; cbn [spaceFree split]; [reflexivity|].
  intros H. apply andb_true_iff in H as [Hc Hs].
  apply negb_true_iff in Hc. rewrite Hc, (IH Hs). reflexivity.
Qed.

Lemma authenticateToken_passes verify outcome coll authHeader user :
  authenticateToken verify outcome coll authHeader = Next (Some user)
  <-> presents verify outcome coll authHeader user.
Proof.
  unfold authenticateToken, presents, tokenOfHeader, falsy. split.
  - destruct authHeader as [h|]; cbn [truthy negb]; [|discriminate].
    destruct (String.eqb_spec h "") as [->|Hh]; cbn [negb];
      [cbn; discriminate|].
    destruct (split space h !! 1%nat) as [token|] eqn:Htoken;
      [|discriminate].
    destruct (String.eqb_spec token "") as [|Hne]; [discriminate|].
    destruct (verify token) as [[id|]|name] eqn:Hverify.
    + destruct outcome as [name|].
      { unfold authenticationError.
        repeat destruct (String.eqb _ _); discriminate. }
      cbn [findUser].
      destruct (User.findById id coll) as [u|] eqn:Hfind; [|discriminate].
      destruct (User.isActive u) eqn:Hact; cbn [negb]; [|discriminate].
      intros [= <-]. exists h, token, id. repeat split; assumption.
    + destruct outcome as [name|]; [|discriminate].
      unfold authenticationError.
      repeat destruct (String.eqb _ _); discriminate.
    + unfold authenticationError.
      repeat destruct (String.eqb _ _); discriminate.
  - intros (h & token & id & -> & Htoken & Hne & Hverify & -> & Hfind & Hact).
    cbn [truthy].
    destruct (String.eqb_spec h "") as [->|_]; [discriminate|].
    cbn [negb]. rewrite Htoken.
    destruct (String.eqb_spec token "") as [|_]; [contradiction|].
    rewrite Hverify. cbn [findUser]. rewrite Hfind, Hact. reflexivity.
Qed.

Lemma authenticationError_status name :
  exists status message,
    authenticationError name = Answer status message
    /\ (status = 401 \/ status = 500).
Proof.
  unfold authenticationError.
  repeat destruct (String.eqb _ _); eexists; eexists;
    (split; [reflexivity|]); lia.
Qed.

(** X11. [authenticateToken] lets a request through exactly when its
    header carries, as second word, a token that verifies and decodes to
    the id of an active user, and then [req.user] is that user; every
    other request is answered, with 401 or 500, and never reaches the
    handler. *)
Theorem authenticateToken_guard (verify : string -> Verified)
    (outcome : option string) (coll : list User.t)
    (authHeader : option string) :
  match authenticateToken verify outcome coll authHeader with
  | Next (Some user) => presents verify outcome coll authHeader user
  | Next None => False
  | Answer status _ =>
      (status = 401 \/ status = 500)
      /\ forall user, ~ presents verify outcome coll authHeader user
  end.
Proof.
  destruct (authenticateToken verify outcome coll authHeader)
    as [[user|]|status message] eqn:Hrun.
  - apply authenticateToken_passes, Hrun.
  - revert Hrun. unfold authenticateToken.
    destruct (tokenOfHeader authHeader) as [token|]; [|discriminate].
    destruct (String.eqb token ""); [discriminate|].
    destruct (verify token) as [id|name].
    + destruct outcome as [name|].
      * destruct (authenticationError_status name) as (s & m & -> & _).
        discriminate.
      * destruct (findUser id coll) as [u|]; [|discriminate].
        destruct (negb (User.isActive u)); discriminate.
    + destruct (authenticationError_status name) as (s & m & -> & _).
      discriminate.
  - split.
    + revert Hrun. unfold authenticateToken.
      destruct (tokenOfHeader authHeader) as [token|];
        [|intros [= <- _]; lia].
      destruct (String.eqb token ""); [intros [= <- _]; lia|].
      destruct (verify token) as [id|name].
      * destruct outcome as [name|].
        { destruct (authenticationError_status name) as (s & m & -> & Hs).
          intros [= <- _]. exact Hs. }
        destruct (findUser id coll) as [u|]; [|intros [= <- _]; lia].
        destruct (negb (User.isActive u)); [intros [= <- _]; lia|].
        discriminate.
      * destruct (authenticationError_status name) as (s & m & -> & Hs).
        intros [= <- _]. exact Hs.
    + intros user Hp. apply authenticateToken_passes in Hp.
      rewrite Hp in Hrun. discriminate.
Qed.

(** X12. [optionalAuth] never answers: it calls [next] for every
    request, with [req.user] set exactly when [authenticateToken] would
    have let the request through, and to the same user. *)
Theorem optionalAuth_never_answers (verify : string -> Verified)
    (outcome : option string) (coll : list User.t)
    (authHeader : option string) :
  optionalAuth verify outcome coll authHeader
  = match authenticateToken verify outcome coll authHeader with
    | Next user => Next user
    | Answer _ _ => Next None
    end.
Proof.
  unfold optionalAuth, authenticateToken.
  destruct (tokenOfHeader authHeader) as [token|]; cbn [truthy];
    [|reflexivity].
  destruct (String.eqb token ""); cbn [negb]; [reflexivity|].
  destruct (verify token) as [id|name].
  - destruct outcome as [name|].
    + destruct (authenticationError_status name) as (s & m & -> & _).
      reflexivity.
    + destruct (findUser id coll) as [u|]; [|reflexivity].
      destruct (User.isActive u); reflexivity.
  - destruct (authenticationError_status name) as (s & m & -> & _).
    reflexivity.
Qed.

(** X13. A socket is accepted on the terms of an HTTP request: without
    [handshake.auth.token], exactly when [authenticateToken] would pass
    the same [authorization] header, and as the same user; with it, the
    header is not read and the token must verify and decode to the id of
    an active user. *)
Theorem authenticateSocket_accepts (verify : string -> Verified)
    (outcome : option string) (coll : list User.t)
    (authToken authHeader : option string) (user : User.t) :
  (truthy authToken = false ->
   (authenticateSocket verify outcome coll authToken authHeader
    = Accepted user
    <-> authenticateToken verify outcome coll authHeader
        = Next (Some user)))
  /\ (forall token, authToken = Some token -> token <> ""%string ->
      (authenticateSocket verify outcome coll authToken authHeader
       = Accepted user
       <-> exists id,
             verify token = Decoded (Some id) /\ outcome = None
             /\ User.findById id coll = Some user
             /\ User.isActive user = true)).
Proof.
  split.
  - intros Hfalsy.
    unfold authenticateSocket, authenticateToken, tokenOfHandshake,
      tokenOfHeader, falsy.
    rewrite Hfalsy. destruct authHeader as [h|]; cbn [truthy negb];
      [|split; discriminate].
    destruct (String.eqb_spec h "") as [->|_]; cbn [negb];
      [cbn; split; discriminate|].
    destruct (split space h !! 1%nat) as [token|]; [|split; discriminate].
    destruct (String.eqb token ""); [split; discriminate|].
    destruct (verify token) as [id|name].
    + destruct outcome as [name|].
      * destruct (authenticationError_status name) as (s & m & -> & _).
        split; discriminate.
      * destruct (findUser id coll) as [u|]; [|split; discriminate].
        destruct (User.isActive u); cbn [negb]; [|split; discriminate].
        split; intros [= <-]; reflexivity.
    + destruct (authenticationError_status name) as (s & m & -> & _).
      split; discriminate.
  - intros token -> Hne.
    unfold authenticateSocket, tokenOfHandshake. cbn [truthy].
    destruct (String.eqb_spec token "") as [|_]; [contradiction|].
    cbn [negb].
    destruct (String.eqb_spec token "") as [|_]; [contradiction|].
    destruct (verify token) as [[id|]|name].
    + destruct outcome as [name|].
      { split; [discriminate|]. intros (i & _ & Ho & _). discriminate. }
      cbn [findUser].
      destruct (User.findById id coll) as [u|] eqn:Hfind.
      * destruct (User.isActive u) eqn:Hact.
        { split.
          - intros [= <-]. exists id. repeat split; assumption.
          - intros (i & [= <-] & _ & Hf & _). congruence. }
        split; [discriminate|].
        intros (i & [= <-] & _ & Hf & Ha). congruence.
      * split; [discriminate|].
        intros (i & [= <-] & _ & Hf & _). congruence.
    + split.
      * destruct outcome; cbn [findUser]; discriminate.
      * intros (i & Hd & _). discriminate.
    + split; [discriminate|]. intros (i & Hd & _). discriminate.
Qed.

(** X14. The scheme of the [authorization] header is not checked: the
    token is the second word of the header, whatever the first word is
    and whatever follows the second, so any such header is treated like
    [Bearer <token>].  A header of one word, and no header, are answered
    401. *)
Theorem authenticateToken_scheme_unchecked (verify : string -> Verified)
    (outcome : option string) (coll : list User.t)
    (scheme token rest : string) :
  spaceFree scheme = true -> spaceFree token = true ->
  let bearer :=
    authenticateToken verify outcome coll (Some ("Bearer " +:+ token)) in
  authenticateToken verify outcome coll (Some (scheme +:+ " " +:+ token))
  = bearer
  /\ authenticateToken verify outcome coll
       (Some (scheme +:+ " " +:+ token +:+ " " +:+ rest))
     = bearer
  /\ authenticateToken verify outcome coll (Some scheme)
     = Answer 401 "Access token is required"
  /\ authenticateToken verify outcome coll None
     = Answer 401 "Access token is required".
Proof.
  intros Hscheme Htoken bearer.
  assert (Hsecond : forall sch tail,
    spaceFree sch = true ->
    (exists more, split space tail = token :: more) ->
    tokenOfHeader (Some (sch +:+ String space tail)) = Some token).
  { intros sch tail Hsch [more Htail]. unfold tokenOfHeader, falsy.
    cbn [truthy].
    destruct (String.eqb_spec (sch +:+ String space tail) "") as [Hempty|_].
    - destruct sch; discriminate.
    - cbn [negb]. rewrite (split_word _ _ Hsch), Htail. reflexivity. }
  assert (Hbearer : tokenOfHeader (Some ("Bearer " +:+ token)) = Some token).
  { apply (Hsecond "Bearer"%string token); [reflexivity|].
    exists []. apply split_one_word, Htoken. }
  split; [|split; [|split]].
  - unfold bearer, authenticateToken. rewrite Hbearer.
    change (scheme +:+ " " +:+ token)
      with (scheme +:+ String space token).
    rewrite (Hsecond scheme token Hscheme); [reflexivity|].
    exists []. apply split_one_word, Htoken.
  - unfold bearer, authenticateToken. rewrite Hbearer.
    change (scheme +:+ " " +:+ token +:+ " " +:+ rest)
      with (scheme +:+ String space (token +:+ String space rest)).
    rewrite (Hsecond scheme _ Hscheme); [reflexivity|].
    exists (split space rest). apply split_word, Htoken.
  - unfold authenticateToken, tokenOfHeader, falsy. cbn [truthy].
    destruct (String.eqb_spec scheme "") as [->|_]; cbn [negb];
      [reflexivity|].
    rewrite (split_one_word _ Hscheme). reflexivity.
  - reflexivity.
Qed.

Lemma authenticateToken_scheme_unchecked_witness :
  authenticateToken verifyExample None [ann; bob; cyd; dan]
    (Some "Basic t1"%string)
  = authenticateToken verifyExample None [ann; bob; cyd; dan]
      (Some "Bearer t1"%string)
  /\ authenticateToken verifyExample None [ann; bob; cyd; dan]
       (Some "Basic t1"%string)
     = Next (Some ann).
Proof.
  split.
  - apply (authenticateToken_scheme_unchecked verifyExample None
             [ann; bob; cyd; dan] "Basic" "t1" "");
      reflexivity.
  - reflexivity.
Defined.

(** ** config/redis.js and the presence of socket/socketHandler.js *)

Lemma handle_presence userId h e :
  isUserOnline None userId (online (handle h e))
  = presenceAfter userId (isUserOnline None userId (online h)) e.
Proof.
  unfold isUserOnline.
  destruct e as [[err|] u|[err|] u]; cbn; try reflexivity.
  - destruct (N.eqb_spec u userId) as [->|Hne].
    + apply bool_decide_eq_true, elem_of_union_l, elem_of_singleton.
      reflexivity.
    + apply bool_decide_ext. rewrite elem_of_union, elem_of_singleton.
      split; [intros [Heq|Hin]; [congruence|exact Hin]|right; assumption].
  - destruct (N.eqb_spec u userId) as [->|Hne].
    + apply bool_decide_eq_false. rewrite elem_of_difference.
      intros [_ Hnot]. apply Hnot, elem_of_singleton. reflexivity.
    + apply bool_decide_ext. rewrite elem_of_difference, elem_of_singleton.
      split; [intros [Hin _]; exact Hin|].
      intros Hin. split; [exact Hin|congruence].
Qed.

(** X15. Presence follows the last Redis command that succeeded, not the
    sockets: after any sequence of connections and disconnections a user
    is reported online exactly as the last event about them whose command
    went through says (or as before, if there is none); every event is
    broadcast to the others, whether its command succeeded or not.  So a
    user is reported offline as soon as one of their sockets closes,
    however many stay open. *)
Theorem presence_follows_last_event (userId : ObjectId)
    (events : list SocketEvent) (h : Hub) :
  isUserOnline None userId (online (handleAll events h))
  = fold_left (presenceAfter userId) events
      (isUserOnline None userId (online h))
  /\ length (broadcasts (handleAll events h))
     = (length (broadcasts h) + length events)%nat
  /\ isUserOnline None userId
       (online (handleAll (events ++ [Disconnects None userId]) h))
     = false
  /\ openSockets userId (events ++ [Disconnects None userId])
     = openSockets userId events - 1.
Proof.
  assert (Hfold : forall evs h0,
    isUserOnline None userId (online (handleAll evs h0))
    = fold_left (presenceAfter userId) evs
        (isUserOnline None userId (online h0))).
  { induction evs as [|e evs IH]; intros h0; [reflexivity|].
    cbn [handleAll fold_left]. fold (handleAll evs (handle h0 e)).
    rewrite IH, handle_presence. reflexivity. }
  split; [apply Hfold|]. split.
  - revert h. induction events as [|e events IH]; intros h; cbn [length].
    + cbn. lia.
    + cbn [handleAll fold_left]. fold (handleAll events (handle h e)).
      rewrite IH. destruct e; cbn [handle onConnection onDisconnect
        broadcasts]; rewrite length_app; cbn [length]; lia.
  - split.
    + rewrite Hfold, fold_left_app. cbn [fold_left presenceAfter].
      rewrite N.eqb_refl. reflexivity.
    + unfold openSockets. rewrite fold_left_app. cbn [fold_left].
      rewrite N.eqb_refl. reflexivity.
Qed.

(** X16. [online_users] is a set: a user added twice is a member once,
    so one removal takes them out; membership, the member list and the
    count agree; and when the command fails the readers answer [false],
    the empty list and 0, and the writers change nothing. *)
Theorem online_users_set (userId : ObjectId) (s : gset ObjectId)
    (e : string) :
  addOnlineUser None userId (addOnlineUser None userId s)
  = addOnlineUser None userId s
  /\ isUserOnline None userId (addOnlineUser None userId s) = true
  /\ isUserOnline None userId
       (removeOnlineUser None userId
          (addOnlineUser None userId (addOnlineUser None userId s)))
     = false
  /\ getOnlineUserCount None (addOnlineUser None userId s)
     = getOnlineUserCount None s
       + (if isUserOnline None userId s then 0 else 1)
  /\ (forall u, isUserOnline None u s = true
                <-> u ∈ getOnlineUsers None s)
  /\ NoDup (getOnlineUsers None s)
  /\ getOnlineUserCount None s
     = Z.of_nat (length (getOnlineUsers None s))
  /\ isUserOnline (Some e) userId s = false
  /\ getOnlineUsers (Some e) s = []
  /\ getOnlineUserCount (Some e) s = 0
  /\ addOnlineUser (Some e) userId s = s
  /\ removeOnlineUser (Some e) userId s = s.
Proof.
  unfold addOnlineUser, removeOnlineUser, isUserOnline, getOnlineUsers,
    getOnlineUserCount.
  assert (Hin : userId ∈ ({[userId]} ∪ s : gset ObjectId))
    by (apply elem_of_union_l, elem_of_singleton; reflexivity).
  assert (Hsub : forall t : gset ObjectId,
            userId ∈ t -> ({[userId]} ∪ t : gset ObjectId) = t).
  { intros t Ht. apply leibniz_equiv. apply set_equiv. intros x.
    rewrite elem_of_union, elem_of_singleton.
    split; [intros [->|Hx]; assumption|right; assumption]. }
  split; [apply Hsub, Hin|].
  split; [apply bool_decide_eq_true, Hin|].
  split.
  { apply bool_decide_eq_false. rewrite elem_of_difference.
    intros [_ Hnot]. apply Hnot, elem_of_singleton. reflexivity. }
  split.
  { destruct (bool_decide_reflect (userId ∈ s)) as [Hs|Hnin].
    - rewrite (Hsub s Hs). lia.
    - rewrite size_union.
      + rewrite size_singleton. lia.
      + apply disjoint_singleton_l. exact Hnin. }
  split.
  { intros u. rewrite bool_decide_eq_true, elem_of_elements. reflexivity. }
  split; [apply NoDup_elements|].
  repeat split; reflexivity.
Qed.

(** ** services/cronService.js, whatever fails *)

Lemma shuffleLoop_consumes {A} (i : nat) (l : list A) w :
  forall n, random (snd (shuffleLoop i l w)) n = random w (n + i)%nat.
Proof.
  revert l w. induction i as [|i IH]; intros l w n.
  - cbn. rewrite Nat.add_0_r. reflexivity.
  - cbn [shuffleLoop]. unfold bind, Math_floor_random.
    rewrite IH. cbn [random set_random]. f_equal. lia.
Qed.

(** X17. [shuffleArray] returns a permutation of its argument whatever
    [Math.random] yields; it reads one random number for each element but
    the first, and touches nothing else. *)
Theorem shuffleArray_permutation {A} (array : list A) (w : World) :
  exists shuffled w',
    shuffleArray array w = (Return shuffled, w')
    /\ shuffled ≡ₚ array
    /\ sameButRandom w w'
    /\ forall n, random w' n = random w (n + (length array - 1))%nat.
Proof.
  unfold shuffleArray.
  destruct (shuffleLoop_run (length array - 1) array w)
    as (shuffled & w' & Hrun & Hperm & Hsame & _).
  exists shuffled, w'. split; [exact Hrun|]. split; [exact Hperm|].
  split; [exact Hsame|]. intros n.
  pose proof (shuffleLoop_consumes (length array - 1) array w n) as Hn.
  rewrite Hrun in Hn. exact Hn.
Qed.

Lemma sameButRandom_scheduled w w' :
  sameButRandom w w' -> sameButScheduled w w' /\ automessages w' = automessages w.
Proof.
  unfold sameButRandom, sameButScheduled. intuition.
Qed.

Lemma sameButScheduled_refl w : sameButScheduled w w.
Proof. repeat split. Qed.

Lemma sameButScheduled_trans w1 w2 w3 :
  sameButScheduled w1 w2 -> sameButScheduled w2 w3 -> sameButScheduled w1 w3.
Proof.
  unfold sameButScheduled. intros H1 H2.
  destruct H1 as (?&?&?&?&?&?&?), H2 as (?&?&?&?&?&?&?).
  repeat split; congruence.
Qed.

Lemma draftOf_total elapsed pair w :
  exists d w', draftOf elapsed pair w = (Return d, w') /\ sameButRandom w w'.
Proof.
  unfold draftOf, getRandomMessage, getRandomSendDate, bind,
    Math_floor_random, new_Date_after, ret.
  eexists. eexists. split; [reflexivity|]. repeat split.
Qed.

Lemma mapAsyncFrom_draftOf_total (elapsed : nat -> Z) pairs k w :
  exists drafts w',
    mapAsyncFrom k (fun i => draftOf (elapsed i)) pairs w
    = (Return drafts, w')
    /\ sameButRandom w w'.
Proof.
  revert k w. induction pairs as [|pair pairs IH]; intros k w.
  - exists [], w. split; [reflexivity|apply sameButRandom_refl].
  - cbn [mapAsyncFrom]. unfold bind at 1.
    destruct (draftOf_total (elapsed k) pair w) as (d & w1 & -> & Hs1).
    unfold bind at 1. destruct (IH (S k) w1) as (ds & w2 & -> & Hs2).
    exists (d :: ds), w2. split; [reflexivity|].
    eapply sameButRandom_trans; eassumption.
Qed.

Lemma insertMany_any outcome (elapsed : nat -> Z) drafts w :
  exists docs w',
    sameButScheduled w w'
    /\ ((insertMany outcome elapsed drafts w = (Return docs, w')
         /\ outcome = None
         /\ automessages w' = automessages w ++ docs)
        \/ (exists e, insertMany outcome elapsed drafts w = (Throw e, w')
                      /\ automessages w' = automessages w)).
Proof.
  destruct (buildDocs_run elapsed drafts 0 w) as (docs & Hbuild & _).
  set (w1 := set_nextId (nextId w + N.of_nat (length drafts))%N w) in *.
  assert (Hrun : insertMany outcome elapsed drafts w
    = match head (omap AutoMessage.validate docs) with
      | Some e => (Throw e, w1)
      | None =>
          match outcome with
          | Some e => (Throw e, w1)
          | None =>
              (Return docs, set_automessages (automessages w1 ++ docs) w1)
          end
      end).
  { unfold insertMany, mapAsync. unfold bind at 1. rewrite Hbuild.
    destruct (head (omap AutoMessage.validate docs)); [reflexivity|].
    destruct outcome; reflexivity. }
  rewrite Hrun. exists docs.
  destruct (head (omap AutoMessage.validate docs)) as [e|].
  - exists w1. split; [|right; exists e; split; reflexivity]. repeat split.
  - destruct outcome as [e|].
    + exists w1. split; [|right; exists e; split; reflexivity]. repeat split.
    + eexists. split; [|left; split; [reflexivity|split; reflexivity]].
      repeat split.
Qed.

Lemma createAutoMessages_statistics infra lapse w :
  infra PlFindUsers = None -> infra PlInsertMany = None ->
  createAutoMessages infra lapse w = createAutoMessages noFailure lapse w.
Proof.
  intros Hfind Hinsert. unfold createAutoMessages, tryCatch, noFailure.
  rewrite Hfind, Hinsert. unfold bind. cbn [await ret get].
  destruct (_ <? _)%nat; [reflexivity|].
  destruct (shuffleArray _ w) as [[s|e] w1]; [|reflexivity].
  destruct (mapAsync _ _ w1) as [[a|e] w2]; [|reflexivity].
  destruct (insertMany None _ a w2) as [[c|e] w3]; [|reflexivity].
  destruct (infra PlStatistics); reflexivity.
Qed.

(** X18. A run of the planner never throws and never touches anything
    but the scheduling records, to which it only appends; when the query
    for the users or the insert fails it appends nothing, and a failure
    of the statistics query after the insert takes nothing back. *)
Theorem createAutoMessages_fail_safe (infra : PlannerAwait -> option string)
    (lapse : PlannerClock -> Z) (w : World) :
  exists docs w',
    createAutoMessages infra lapse w = (Return tt, w')
    /\ automessages w' = automessages w ++ docs
    /\ sameButScheduled w w'
    /\ (infra PlFindUsers <> None \/ infra PlInsertMany <> None ->
        docs = [])
    /\ (infra PlFindUsers = None -> infra PlInsertMany = None ->
        createAutoMessages infra lapse w
        = createAutoMessages noFailure lapse w).
Proof.
  assert (Hmain : exists docs w',
    createAutoMessages infra lapse w = (Return tt, w')
    /\ automessages w' = automessages w ++ docs
    /\ sameButScheduled w w'
    /\ (infra PlFindUsers <> None \/ infra PlInsertMany <> None ->
        docs = [])).
  { unfold createAutoMessages, tryCatch.
    unfold bind at 1.
    destruct (infra PlFindUsers) as [e|] eqn:Hfind; cbn [await throw ret].
    { exists [], w. split; [reflexivity|].
      split; [symmetry; apply app_nil_r|].
      split; [apply sameButScheduled_refl|reflexivity]. }
    unfold bind at 1. cbn [get].
    destruct (length (User.findActive (users w)) <? 2)%nat.
    { exists [], w. split; [reflexivity|].
      split; [symmetry; apply app_nil_r|].
      split; [apply sameButScheduled_refl|]. reflexivity. }
    unfold bind at 1. unfold shuffleArray.
    destruct (shuffleLoop_run (length (User.findActive (users w)) - 1)
                (User.findActive (users w)) w)
      as (shuffled & w1 & -> & _ & Hs1 & _).
    unfold bind at 1. unfold mapAsync at 1.
    destruct (mapAsyncFrom_draftOf_total (fun i => lapse (PcSendDate i))
                (makePairs shuffled) 0 w1)
      as (drafts & w2 & -> & Hs2).
    assert (H12 : sameButRandom w w2)
      by (eapply sameButRandom_trans; eassumption).
    apply sameButRandom_scheduled in H12 as [Hsched Ham].
    unfold bind at 1.
    destruct (insertMany_any (infra PlInsertMany)
                (fun i => lapse (PcCreatedAt i)) drafts w2)
      as (docs & w3 & Hs3 & [(Hrun & Hnone & Ham3)|(e & Hrun & Ham3)]).
    - rewrite Hrun. exists docs, w3.
      split; [destruct (infra PlStatistics); reflexivity|].
      split; [rewrite Ham3, Ham; reflexivity|].
      split; [eapply sameButScheduled_trans; eassumption|].
      intros [H|H]; contradiction.
    - rewrite Hrun. exists [], w3. split; [reflexivity|].
      split; [rewrite Ham3, Ham, app_nil_r; reflexivity|].
      split; [eapply sameButScheduled_trans; eassumption|reflexivity]. }
  destruct Hmain as (docs & w' & Hrun & Ham & Hsched & Hnone).
  exists docs, w'. repeat (split; [assumption|]).
  apply createAutoMessages_statistics.
Qed.

Lemma scannedFrom_refl d : scannedFrom d d.
Proof. repeat split; auto. Qed.

Lemma scannedFrom_trans d1 d2 d3 :
  scannedFrom d1 d2 -> scannedFrom d2 d3 -> scannedFrom d1 d3.
Proof.
  unfold scannedFrom, sameMessage, sameSent.
  intros ((?&?&?&?&?&?) & (?&?&?) & ?) ((?&?&?&?&?&?) & (?&?&?) & ?).
  repeat split; try congruence. auto.
Qed.

Lemma modifiedPath_unmodified {A} `{EqDecision A} (x s : A) :
  modifiedPath x x s = s.
Proof. unfold modifiedPath. destruct (decide (x = x)); congruence. Qed.

Lemma patch_scannedFrom now loaded this x :
  sameMessage loaded this -> sameSent loaded this ->
  AutoMessage.isQueued this = AutoMessage.isQueued loaded
  \/ AutoMessage.isQueued this = true ->
  scannedFrom x (AutoMessage.patch now loaded this x).
Proof.
  intros (_ & Hs & Hr & Hc & Hd & _) (Hsent & Hat & Hmid) Hq.
  unfold AutoMessage.patch.
  destruct (decide (loaded = this)); [apply scannedFrom_refl|].
  unfold scannedFrom, sameMessage, sameSent. cbn.
  rewrite Hs, Hr, Hc, Hd, Hsent, Hat, Hmid, !modifiedPath_unmodified.
  repeat split. intros Hx. unfold modifiedPath.
  destruct (decide _) as [_|Hne]; [exact Hx|].
  destruct Hq as [Hq|Hq]; [congruence|exact Hq].
Qed.

Lemma update_Forall2 (R : AutoMessage.t -> AutoMessage.t -> Prop) id f
    coll coll' :
  (forall x, R x x) -> (forall x, R x (f x)) ->
  AutoMessage.update id f coll = Some coll' -> Forall2 R coll coll'.
Proof.
  intros Hrefl Hf. revert coll'.
  induction coll as [|d coll IH]; intros coll'; cbn; [discriminate|].
  destruct (N.eqb (AutoMessage._id d) id).
  - intros [= <-]. constructor; [apply Hf|].
    clear -Hrefl. induction coll; constructor; auto.
  - destruct (AutoMessage.update id f coll) as [c|]; [|discriminate].
    intros [= <-]. constructor; [apply Hrefl|]. apply IH. reflexivity.
Qed.

Lemma Forall2_scannedFrom_refl coll : Forall2 scannedFrom coll coll.
Proof. induction coll; constructor; [apply scannedFrom_refl|assumption]. Qed.

Lemma Forall2_scannedFrom_trans c1 c2 c3 :
  Forall2 scannedFrom c1 c2 -> Forall2 scannedFrom c2 c3 ->
  Forall2 scannedFrom c1 c3.
Proof.
  intros H12. revert c3. induction H12 as [|x y c1 c2 Hxy _ IH]; intros c3 H23.
  - inversion H23. constructor.
  - inversion H23 as [|y' z c2' c3' Hyz Hrest]; subst.
    constructor; [eapply scannedFrom_trans; eassumption|apply IH, Hrest].
Qed.

Lemma scanned_refl ready w : scanned ready w w.
Proof.
  split; [apply Forall2_scannedFrom_refl|].
  exists []. rewrite app_nil_r. repeat split; [constructor|cbn; lia].
Qed.

Lemma scanned_trans ready1 ready2 w1 w2 w3 :
  scanned ready1 w1 w2 -> scanned ready2 w2 w3 ->
  scanned (ready1 ++ ready2) w1 w3.
Proof.
  intros [H12 (a1 & Hq1 & Hin1 & Hl1)] [H23 (a2 & Hq2 & Hin2 & Hl2)].
  split; [eapply Forall2_scannedFrom_trans; eassumption|].
  exists (a1 ++ a2). split; [rewrite Hq2, Hq1, app_assoc; reflexivity|].
  split.
  - apply Forall_app. split.
    + eapply Forall_impl; [exact Hin1|]. cbn. intros p (d & Hd & Hp).
      exists d. split; [apply elem_of_app; left; exact Hd|exact Hp].
    + eapply Forall_impl; [exact Hin2|]. cbn. intros p (d & Hd & Hp).
      exists d. split; [apply elem_of_app; right; exact Hd|exact Hp].
  - rewrite !length_app. lia.
Qed.

Lemma sameButScanned_refl w : sameButScanned w w.
Proof. repeat split. Qed.

Lemma sameButScanned_trans w1 w2 w3 :
  sameButScanned w1 w2 -> sameButScanned w2 w3 -> sameButScanned w1 w3.
Proof.
  unfold sameButScanned.
  intros (?&?&?&?&?&?&?&?) (?&?&?&?&?&?&?&?). repeat split; congruence.
Qed.

(** A [save] by the scanner, whatever its outcome. *)
Lemma saveAutoMessage_scanned o loaded this w :
  sameMessage loaded this -> sameSent loaded this ->
  AutoMessage.isQueued this = AutoMessage.isQueued loaded
  \/ AutoMessage.isQueued this = true ->
  let w' := snd (saveAutoMessage o loaded this w) in
  sameButScanned w w'
  /\ Forall2 scannedFrom (automessages w) (automessages w')
  /\ queue w' = queue w.
Proof.
  intros Hm Hs Hq. unfold saveAutoMessage.
  destruct (decide (loaded = this)).
  { cbn. split; [apply sameButScanned_refl|].
    split; [apply Forall2_scannedFrom_refl|reflexivity]. }
  destruct o as [e|]; cbn [await].
  { cbn. split; [apply sameButScanned_refl|].
    split; [apply Forall2_scannedFrom_refl|reflexivity]. }
  unfold bind. cbn [ret new_Date get].
  destruct (AutoMessage.update _ _ _) as [coll|] eqn:Hupd; cbn.
  - split; [repeat split|]. split; [|reflexivity].
    eapply update_Forall2; [|intros x; apply patch_scannedFrom; eassumption
                            |exact Hupd].
    apply scannedFrom_refl.
  - split; [apply sameButScanned_refl|].
    split; [apply Forall2_scannedFrom_refl|reflexivity].
Qed.

Lemma User_findById_id id coll u :
  User.findById id coll = Some u -> User._id u = id.
Proof.
  unfold User.findById. intros H. apply find_some in H as [_ H].
  apply N.eqb_eq, H.
Qed.

Lemma publish_any o us d w :
  (exists p,
     carries d p
     /\ attempt (message <- payloadOf (populate us d) ;;
                 publishToQueue o message) w
        = (Return (inl tt), set_queue (queue w ++ [p]) w))
  \/ exists e,
       attempt (message <- payloadOf (populate us d) ;;
                publishToQueue o message) w
       = (Return (inr e), w).
Proof.
  unfold attempt, bind, payloadOf, publishToQueue, tryCatch.
  cbn [p_sender p_receiver populate doc].
  destruct (User.findById (AutoMessage.sender d) us) as [s|] eqn:Hs;
    [|right; eexists; reflexivity].
  destruct (User.findById (AutoMessage.receiver d) us) as [r|] eqn:Hr;
    [|right; eexists; reflexivity].
  destruct o as [e|]; [right; eexists; reflexivity|].
  left. eexists. split; [|reflexivity].
  repeat split; cbn; [eapply User_findById_id, Hs|eapply User_findById_id, Hr].
Qed.

Lemma queueOne_any infra us d w :
  exists c w',
    queueOne infra (populate us d) w = (c, w')
    /\ sameButScanned w w' /\ scanned [d] w w'.
Proof.
  assert (Hsave : forall o this w0,
    sameMessage d this -> sameSent d this ->
    AutoMessage.isQueued this = AutoMessage.isQueued d
    \/ AutoMessage.isQueued this = true ->
    exists c w1,
      saveAutoMessage o d this w0 = (c, w1)
      /\ sameButScanned w0 w1
      /\ Forall2 scannedFrom (automessages w0) (automessages w1)
      /\ queue w1 = queue w0).
  { intros o this w0 Hm Hs Hq.
    pose proof (saveAutoMessage_scanned o d this w0 Hm Hs Hq) as H.
    destruct (saveAutoMessage o d this w0) as [c w1].
    exists c, w1. split; [reflexivity|exact H]. }
  unfold queueOne. cbv zeta. change (doc (populate us d)) with d.
  unfold bind at 1.
  destruct (publish_any (infra (ScPublish (AutoMessage._id d))) us d w)
    as [(p & Hcarries & Hpub)|[e Hpub]]; rewrite Hpub.
  - set (w1 := set_queue _ w).
    unfold bind at 1. cbn [new_Date]. unfold tryCatch.
    destruct (Hsave (infra (ScMarkAsQueued (AutoMessage._id d)))
                (AutoMessage.markAsQueued (clock w1) d) w1)
      as (c & w2 & Hrun & Hsame2 & Hall2 & Hq2);
      [repeat split|repeat split|right; reflexivity|].
    rewrite Hrun.
    assert (H02 : sameButScanned w w2 /\ scanned [d] w w2).
    { split.
      - eapply sameButScanned_trans; [|exact Hsame2]. repeat split.
      - split; [exact Hall2|]. eexists. split; [rewrite Hq2; reflexivity|].
        split; [|cbn; lia]. constructor; [|constructor].
        exists d. split; [apply list_elem_of_singleton; reflexivity|].
        exact Hcarries. }
    destruct c as [[]|e].
    + exists (Return tt), w2. split; [reflexivity|exact H02].
    + destruct (Hsave (infra (ScIncrementRetry (AutoMessage._id d)))
                  (AutoMessage.incrementRetry (Some e)
                     (AutoMessage.markAsQueued (clock w1) d)) w2)
        as (c & w3 & Hrun3 & Hsame3 & Hall3 & Hq3);
        [repeat split|repeat split|right; reflexivity|].
      rewrite Hrun3. exists c, w3. split; [reflexivity|].
      destruct H02 as [Hs02 [Ha02 (added & Hadd & Hin & Hlen)]].
      split; [eapply sameButScanned_trans; eassumption|].
      split; [eapply Forall2_scannedFrom_trans; eassumption|].
      exists added. rewrite Hq3. repeat split; assumption.
  - destruct (Hsave (infra (ScIncrementRetry (AutoMessage._id d)))
                (AutoMessage.incrementRetry (Some e) d) w)
      as (c & w1 & Hrun & Hsame1 & Hall1 & Hq1);
      [repeat split|repeat split|left; reflexivity|].
    rewrite Hrun. exists c, w1. split; [reflexivity|].
    split; [exact Hsame1|]. split; [exact Hall1|].
    exists []. rewrite app_nil_r. split; [exact Hq1|].
    split; [constructor|cbn; lia].
Qed.

Lemma forEach_queueOne_any infra us ready w :
  exists c w',
    forEach (queueOne infra) (map (populate us) ready) w = (c, w')
    /\ sameButScanned w w'
    /\ scanned ready w w'.
Proof.
  revert w. induction ready as [|d ready IH]; intros w.
  - exists (Return tt), w. split; [reflexivity|].
    split; [apply sameButScanned_refl|apply scanned_refl].
  - cbn [map forEach]. unfold bind.
    destruct (queueOne_any infra us d w) as (c & w1 & -> & Hs1 & Hsc1).
    destruct c as [[]|e].
    + destruct (IH w1) as (c & w2 & -> & Hs2 & Hsc2).
      exists c, w2. split; [reflexivity|].
      split; [eapply sameButScanned_trans; eassumption|].
      apply (scanned_trans [d] _ _ _ _ Hsc1 Hsc2).
    + exists (Throw e), w1. split; [reflexivity|]. split; [exact Hs1|].
      apply (scanned_trans [d] _ _ _ _ Hsc1 (scanned_refl _ w1)).
Qed.

Lemma queueReadyMessages_scanned infra w :
  exists w',
    queueReadyMessages infra w = (Return tt, w')
    /\ sameButScanned w w'
    /\ scanned (candidates w) w w'.
Proof.
  unfold queueReadyMessages, getMessagesForQueuing, tryCatch.
  unfold bind at 1. unfold bind at 1. cbn [new_Date].
  unfold bind at 1.
  destruct (infra ScFind) as [e|]; cbn [await throw ret].
  { exists w. split; [reflexivity|].
    split; [apply sameButScanned_refl|apply scanned_refl]. }
  unfold bind at 1. cbn [get ret].
  fold (candidates w).
  destruct (length (map (populate (users w)) (candidates w)) =? 0)%nat.
  { exists w. split; [reflexivity|].
    split; [apply sameButScanned_refl|apply scanned_refl]. }
  destruct (forEach_queueOne_any infra (users w) (candidates w) w)
    as (c & w' & -> & Hsame & Hscanned).
  exists w'. split; [destruct c as [[]|e]; reflexivity|].
  split; assumption.
Qed.

(** X19. A scan never throws, whatever fails.  It leaves the users, the
    conversations, the messages, the emitted events and the clock alone;
    it keeps the scheduling records in place, each with its message, its
    schedule and its sent status, and never takes a record out of the
    queued state; and it only appends to the queue, at most one payload
    for each record that was due, each carrying the id, the parties and
    the content of such a record. *)
Theorem queueReadyMessages_fail_safe (infra : ScannerAwait -> option string)
    (w : World) :
  exists w',
    queueReadyMessages infra w = (Return tt, w')
    /\ sameButScanned w w'
    /\ Forall2 scannedFrom (automessages w) (automessages w')
    /\ exists added,
         queue w' = queue w ++ added
         /\ Forall (fun p => exists d, d ∈ candidates w /\ carries d p)
              added
         /\ (length added <= length (candidates w))%nat.
Proof.
  destruct (queueReadyMessages_scanned infra w)
    as (w' & Hrun & Hsame & Hall & Hadded).
  exists w'. repeat (split; [assumption|]). exact Hadded.
Qed.

Lemma publish_fails infra us d w :
  publishFails infra us d ->
  exists err,
    attempt (message <- payloadOf (populate us d) ;;
             publishToQueue (infra (ScPublish (AutoMessage._id d))) message) w
    = (Return (inr err), w).
Proof.
  intros Hfails.
  unfold attempt, bind, payloadOf, publishToQueue, tryCatch.
  cbn [p_sender p_receiver populate doc].
  destruct (User.findById (AutoMessage.sender d) us) as [s|] eqn:Hs;
    [|eexists; reflexivity].
  destruct (User.findById (AutoMessage.receiver d) us) as [r|] eqn:Hr;
    [|eexists; reflexivity].
  destruct Hfails as [Hunknown|[e He]].
  - exfalso. apply Hunknown. split; [rewrite Hs|rewrite Hr]; eexists;
      reflexivity.
  - rewrite He. eexists. reflexivity.
Qed.

Lemma incrementRetry_id_patch now d err x :
  AutoMessage._id (AutoMessage.patch now d (AutoMessage.incrementRetry err d) x)
  = AutoMessage._id x.
Proof.
  unfold AutoMessage.patch. destruct (decide _); reflexivity.
Qed.

Lemma queueOne_down infra us d w :
  publishFails infra us d ->
  infra (ScIncrementRetry (AutoMessage._id d)) = None ->
  AutoMessage.findById (AutoMessage._id d) (automessages w) = Some d ->
  exists err coll,
    queueOne infra (populate us d) w = (Return tt, set_automessages coll w)
    /\ AutoMessage.findById (AutoMessage._id d) coll
       = Some (saved (clock w) d (AutoMessage.incrementRetry (Some err) d))
    /\ map AutoMessage._id coll = map AutoMessage._id (automessages w)
    /\ (forall id, id <> AutoMessage._id d ->
          AutoMessage.findById id coll
          = AutoMessage.findById id (automessages w)).
Proof.
  intros Hfails Hinc Hfind.
  destruct (publish_fails infra us d w Hfails) as [err Hpub].
  exists err.
  unfold queueOne. cbv zeta. change (doc (populate us d)) with d.
  unfold bind at 1. rewrite Hpub, Hinc.
  assert (Hne : d <> AutoMessage.incrementRetry (Some err) d).
  { intros Heq.
    assert (Hr : AutoMessage.retryCount d = AutoMessage.retryCount d + 1)
      by (rewrite Heq at 1; reflexivity).
    lia. }
  unfold saveAutoMessage. rewrite decide_False by exact Hne.
  unfold bind. cbn [await ret new_Date get].
  destruct (AutoMessage_update_found _
              (AutoMessage.patch (clock w) d
                 (AutoMessage.incrementRetry (Some err) d)) _ _ Hfind
              (incrementRetry_id_patch _ _ _))
    as (coll & Hupd & Hfind').
  rewrite Hupd. exists coll. split; [reflexivity|]. split; [exact Hfind'|].
  split.
  - apply (AutoMessage_update_other _ 0%N _ _ _
             (incrementRetry_id_patch _ _ _) Hupd).
  - intros id Hid.
    apply (AutoMessage_update_other _ id _ _ _
             (incrementRetry_id_patch _ _ _) Hupd), Hid.
Qed.

Lemma queueLoop_down infra us ready w :
  (forall id, infra (ScIncrementRetry id) = None) ->
  NoDup (map AutoMessage._id ready) ->
  Forall (fun d => publishFails infra us d
                   /\ AutoMessage.findById (AutoMessage._id d)
                        (automessages w) = Some d) ready ->
  exists w',
    forEach (queueOne infra) (map (populate us) ready) w = (Return tt, w')
    /\ sameButScheduled w w'
    /\ map AutoMessage._id (automessages w')
       = map AutoMessage._id (automessages w)
    /\ (forall d, d ∈ ready ->
          exists err,
            AutoMessage.findById (AutoMessage._id d) (automessages w')
            = Some (saved (clock w) d
                      (AutoMessage.incrementRetry (Some err) d)))
    /\ (forall id, id ∉ map AutoMessage._id ready ->
          AutoMessage.findById id (automessages w')
          = AutoMessage.findById id (automessages w)).
Proof.
  intros Hinc. revert w.
  induction ready as [|d ready IH]; intros w Hnd Hall.
  - exists w. split; [reflexivity|]. split; [apply sameButScheduled_refl|].
    split; [reflexivity|]. split; [|reflexivity].
    intros d Hd. inversion Hd.
  - cbn in Hnd. apply NoDup_cons in Hnd as [Hd Hnd].
    apply Forall_cons in Hall as [[Hfails Hfind] Hall].
    destruct (queueOne_down infra us d w Hfails (Hinc _) Hfind)
      as (err & coll & Hrun & Hfind' & Hids & Hother).
    set (w1 := set_automessages coll w) in *.
    destruct (IH w1 Hnd) as (w' & Hloop & Hsame & Hids' & Hdone & Hrest).
    { apply Forall_forall. intros x Hx.
      destruct (proj1 (Forall_forall _ _) Hall x Hx) as [Hfx Hx'].
      split; [exact Hfx|].
      change (automessages w1) with coll. rewrite Hother; [exact Hx'|].
      intros Heq. apply Hd. rewrite <- Heq.
      apply list_elem_of_In, in_map, list_elem_of_In, Hx. }
    exists w'. cbn [map forEach]. unfold bind. rewrite Hrun, Hloop.
    split; [reflexivity|]. split; [exact Hsame|].
    split; [rewrite Hids'; exact Hids|]. split.
    + intros x Hx. apply elem_of_cons in Hx as [->|Hx].
      * exists err. rewrite (Hrest _ Hd). exact Hfind'.
      * apply Hdone, Hx.
    + intros id Hid. cbn in Hid. apply not_elem_of_cons in Hid as [Hne Hid].
      rewrite (Hrest _ Hid). apply Hother, Hne.
Qed.

(** X20. A scan that cannot publish gives up by counting: each record
    that was due (the broker refuses its payload, or one of its parties
    no longer exists) has its retry count raised by one and stays
    unqueued, nothing is put on the queue, and the other records are
    untouched.  A record that was at two retries is thereby out of every
    later scan, though it was never published. *)
Theorem queueReadyMessages_gives_up (infra : ScannerAwait -> option string)
    (w : World) :
  infra ScFind = None ->
  (forall id, infra (ScIncrementRetry id) = None) ->
  NoDup (map AutoMessage._id (automessages w)) ->
  Forall (publishFails infra (users w)) (candidates w) ->
  exists w',
    queueReadyMessages infra w = (Return tt, w')
    /\ queue w' = queue w
    /\ map AutoMessage._id (automessages w')
       = map AutoMessage._id (automessages w)
    /\ (forall d, d ∈ candidates w ->
          exists d',
            AutoMessage.findById (AutoMessage._id d) (automessages w')
            = Some d'
            /\ AutoMessage.retryCount d' = AutoMessage.retryCount d + 1
            /\ AutoMessage.isQueued d' = false
            /\ AutoMessage.isSent d' = false
            /\ sameMessage d d'
            /\ (AutoMessage.retryCount d = 2 ->
                forall now, AutoMessage.readyForQueuing now d' = false))
    /\ (forall d, d ∈ automessages w -> d ∉ candidates w ->
          d ∈ automessages w').
Proof.
  intros Hfind Hinc Hnd Hfails.
  assert (Hall : Forall
    (fun d => publishFails infra (users w) d
              /\ AutoMessage.findById (AutoMessage._id d) (automessages w)
                 = Some d) (candidates w)).
  { apply Forall_forall. intros d Hd.
    split; [exact (proj1 (Forall_forall _ _) Hfails d Hd)|].
    unfold candidates, AutoMessage.find in Hd.
    apply list_elem_of_In, filter_In in Hd as [Hin _].
    apply AutoMessage_findById_unique; [exact Hnd|].
    apply list_elem_of_In, Hin. }
  destruct (queueLoop_down infra (users w) (candidates w) w Hinc
              (candidates_NoDup w Hnd) Hall)
    as (w' & Hloop & Hsame & Hids & Hdone & Hrest).
  assert (Hrun : queueReadyMessages infra w = (Return tt, w')).
  { unfold queueReadyMessages, tryCatch. unfold bind at 1.
    unfold getMessagesForQueuing, tryCatch. rewrite Hfind.
    unfold bind at 1. cbn [new_Date]. unfold bind at 1. cbn [await ret].
    unfold bind at 1. cbn [get ret]. fold (candidates w).
    rewrite length_map.
    destruct (candidates w) as [|d0 ready] eqn:Hcand.
    - cbn in Hloop. injection Hloop as <-. reflexivity.
    - cbn [length Nat.eqb]. rewrite Hloop. reflexivity. }
  exists w'. split; [exact Hrun|].
  split; [apply Hsame|]. split; [exact Hids|]. split.
  - intros d Hd. destruct (Hdone d Hd) as [err Hd'].
    eexists. split; [exact Hd'|].
    destruct (saved_fields (clock w) d
                (AutoMessage.incrementRetry (Some err) d)
                eq_refl eq_refl)
      as ((Hi & Hs & Hr & Hc & Hsd & Hca) & (Hq & _) & (Hsent & _)
          & (Hretry & _)).
    unfold candidates, AutoMessage.find in Hd.
    apply list_elem_of_In, filter_In in Hd as [_ Hready].
    apply readyForQueuing_spec in Hready as (_ & Hq0 & Hs0 & _).
    split; [rewrite Hretry; reflexivity|].
    split; [rewrite Hq; exact Hq0|].
    split; [rewrite Hsent; exact Hs0|].
    split; [repeat split; assumption|].
    intros H2 now. apply excluded_not_ready. unfold excluded.
    rewrite Hretry. cbn [AutoMessage.retryCount AutoMessage.incrementRetry].
    rewrite H2. apply orb_true_r.
  - intros d Hin Hnot.
    assert (Hfd : AutoMessage.findById (AutoMessage._id d) (automessages w')
                  = Some d).
    { rewrite Hrest; [apply AutoMessage_findById_unique; assumption|].
      intros Hid. apply list_elem_of_In, in_map_iff in Hid
        as (x & Hx & Hxin).
      apply list_elem_of_In in Hxin.
      assert (x = d); [|subst x; contradiction].
      assert (Hxw : x ∈ automessages w).
      { unfold candidates, AutoMessage.find in Hxin.
        apply list_elem_of_In, filter_In in Hxin as [Hxin _].
        apply list_elem_of_In, Hxin. }
      pose proof (AutoMessage_findById_unique _ _ Hnd Hxw) as H1.
      pose proof (AutoMessage_findById_unique _ _ Hnd Hin) as H2.
      rewrite Hx in H1. congruence. }
    apply find_some in Hfd as [Hfd _]. apply list_elem_of_In, Hfd.
Qed.

Lemma queueReadyMessages_gives_up_witness :
  exists w',
    queueReadyMessages brokerDown scanWorld = (Return tt, w')
    /\ queue w' = []
    /\ exists d',
         AutoMessage.findById 10 (automessages w') = Some d'
         /\ AutoMessage.retryCount d' = 1
         /\ AutoMessage.isQueued d' = false.
Proof.
  destruct (queueReadyMessages_gives_up brokerDown scanWorld)
    as (w' & Hrun & Hqueue & _ & Hdone & _).
  - reflexivity.
  - reflexivity.
  - apply (bool_decide_unpack _). vm_compute. exact I.
  - change (candidates scanWorld) with [dueRecord].
    constructor; [|constructor]. right. eexists. reflexivity.
  - exists w'. split; [exact Hrun|]. split; [exact Hqueue|].
    destruct (Hdone dueRecord) as (d' & Hd' & Hretry & Hq & _).
    + apply (bool_decide_unpack _). vm_compute. exact I.
    + exists d'. split; [exact Hd'|]. split; [exact Hretry|exact Hq].
Defined.

Lemma filter_sublist {A} (p : A -> bool) (l : list A) :
  sublist (List.filter p l) l.
Proof.
  induction l as [|x l IH]; cbn; [constructor|].
  destruct (p x); [apply sublist_skip|apply sublist_cons]; exact IH.
Qed.

Lemma filter_idempotent {A} (p : A -> bool) (l : list A) :
  List.filter p (List.filter p l) = List.filter p l.
Proof.
  induction l as [|x l IH]; cbn; [reflexivity|].
  destruct (p x) eqn:Hp; cbn; [rewrite Hp, IH; reflexivity|exact IH].
Qed.

(** X21. The retention sweep never throws and only removes scheduling
    records: what is left is the old collection with some records taken
    out, in the same order, with every unsent record still there, and
    nothing else has changed.  When the database fails nothing is
    removed; after a sweep that went through, a second sweep at the same
    time removes nothing more. *)
Theorem cleanupOldMessages_only_removes (outcome : option string)
    (offsetChange : Z) (w : World) :
  exists w',
    cleanupOldMessages outcome offsetChange w = (Return tt, w')
    /\ sublist (automessages w') (automessages w)
    /\ (forall d, d ∈ automessages w -> AutoMessage.isSent d = false ->
          d ∈ automessages w')
    /\ sameButScheduled w w'
    /\ (outcome <> None -> w' = w)
    /\ (outcome = None ->
        cleanupOldMessages None offsetChange w' = (Return tt, w')).
Proof.
  unfold cleanupOldMessages, tryCatch, bind. cbn [new_Date].
  destruct outcome as [e|]; cbn [await throw ret modify].
  - exists w. split; [reflexivity|]. split; [reflexivity|].
    split; [auto|]. split; [apply sameButScheduled_refl|].
    split; [reflexivity|discriminate].
  - eexists. split; [reflexivity|].
    cbn [automessages set_automessages clock]. unfold AutoMessage.deleteMany.
    split; [apply filter_sublist|]. split.
    { intros d Hin Hsent. apply list_elem_of_In, filter_In.
      split; [apply list_elem_of_In, Hin|].
      unfold oldAndSent. rewrite Hsent, andb_false_r. reflexivity. }
    split; [repeat split|]. split; [intros H; contradiction|].
    intros _. rewrite filter_idempotent. reflexivity.
Qed.

(** ** services/messageConsumer.js and config/rabbitmq.js, whatever
    fails *)

Lemma Message_new_valid_inv id s r cv c ty :
  Message.validate (Message.new id s r cv c ty) = None -> validContent c.
Proof.
  unfold validContent, Message.validate, Message.new.
  cbn [Message.content].
  destruct (Nat.eqb_spec (length (trim c)) 0); [discriminate|].
  destruct (Nat.ltb_spec 1000 (length (trim c))); [discriminate|].
  intros _. lia.
Qed.

Ltac keeps_messages :=
  keeps;
  first [ apply keeps_findOrCreateConversation | apply keeps_new_ObjectId
        | apply keeps_saveConversation
        | apply keeps_emitToUser | apply keeps_findAutoMessageById
        | apply keeps_saveAutoMessage ];
  intros; reflexivity.

Lemma processAutoMessage_try_messages infra p w :
  exists c w',
    processAutoMessage_try infra p w = (c, w')
    /\ ((messages w' = messages w /\ exists e, c = Throw e)
        \/ exists m, messages w' = messages w ++ [m] /\ materialized p m).
Proof.
  unfold processAutoMessage_try. unfold bind at 1.
  pose proof (keeps_findOrCreateConversation messages
    (fun _ _ => eq_refl) (fun _ _ => eq_refl)
    (infra AwFindOne) (infra AwCreate) (infra AwFindCreated)
    (senderId p) (receiverId p) w) as Hfoc.
  destruct (findOrCreateConversation _ _ _ _ _ w) as [[[conv|]|e] w1];
    cbn [snd] in Hfoc.
  - unfold bind at 1. cbn [new_ObjectId]. unfold bind at 1.
    unfold saveMessage.
    destruct (Message.validate _) as [e|] eqn:Hvalid.
    { eexists. eexists. split; [reflexivity|]. left.
      split; [exact Hfoc|eexists; reflexivity]. }
    unfold bind at 1.
    destruct (infra AwMessageSave) as [e|]; cbn [await throw ret].
    { eexists. eexists. split; [reflexivity|]. left.
      split; [exact Hfoc|eexists; reflexivity]. }
    unfold bind at 1. cbn [new_Date]. unfold bind at 1. cbn [modify].
    cbn [ret].
    lazymatch goal with
    | |- exists c w', ?K ?w2 = (c, w') /\ _ =>
        assert (Hkeep : keeps messages K) by keeps_messages;
        specialize (Hkeep w2); destruct (K w2) as [c w']
    end.
    exists c, w'. split; [reflexivity|]. right. eexists.
    split; [cbn [snd] in Hkeep; rewrite Hkeep; cbn; rewrite Hfoc;
            reflexivity|].
    apply Message_new_valid_inv in Hvalid.
    repeat split; apply Hvalid.
  - eexists. eexists. split; [reflexivity|]. left.
    split; [exact Hfoc|eexists; reflexivity].
  - eexists. eexists. split; [reflexivity|]. left.
    split; [exact Hfoc|eexists; reflexivity].
Qed.

Lemma processAutoMessage_catch_throws infra p e w :
  exists w',
    processAutoMessage_catch infra p e w = (Throw e, w')
    /\ messages w' = messages w.
Proof.
  assert (Hkeep : keeps messages (processAutoMessage_catch infra p e)).
  { unfold processAutoMessage_catch. keeps_messages. }
  specialize (Hkeep w).
  assert (Hfst : fst (processAutoMessage_catch infra p e w) = Throw e).
  { unfold processAutoMessage_catch. unfold bind at 1. unfold tryCatch.
    destruct (bind (findAutoMessageById _ _) _ w) as [[[]|e'] w'];
      reflexivity. }
  destruct (processAutoMessage_catch infra p e w) as [c w'].
  cbn [fst snd] in *. subst c. exists w'. split; [reflexivity|exact Hkeep].
Qed.

Lemma processAutoMessage_messages infra p w :
  exists c w',
    processAutoMessage infra p w = (c, w')
    /\ ((c = Return tt
         /\ exists m, messages w' = messages w ++ [m] /\ materialized p m)
        \/ ((exists e, c = Throw e)
            /\ (messages w' = messages w
                \/ exists m, messages w' = messages w ++ [m]
                             /\ materialized p m))).
Proof.
  unfold processAutoMessage, tryCatch.
  destruct (processAutoMessage_try_messages infra p w)
    as (c & w1 & -> & Hcase).
  destruct c as [[]|e].
  - exists (Return tt), w1. split; [reflexivity|]. left.
    split; [reflexivity|].
    destruct Hcase as [[_ [e He]]|Hm]; [discriminate|exact Hm].
  - destruct (processAutoMessage_catch_throws infra p e w1)
      as (w2 & -> & Hsame).
    exists (Throw e), w2. split; [reflexivity|]. right.
    split; [eexists; reflexivity|]. rewrite Hsame.
    destruct Hcase as [[Hm _]|Hm]; [left; exact Hm|right; exact Hm].
Qed.

Lemma consumeOne_run infra w :
  consumeOne infra w
  = match queue w with
    | [] => (Return None, w)
    | msg :: rest =>
        match processAutoMessage infra msg (set_queue rest w) with
        | (Return _, w1) => (Return (Some Ack), w1)
        | (Throw _, w1) =>
            (Return (Some NackRequeue), set_queue (msg :: queue w1) w1)
        end
    end.
Proof.
  cbv [consumeOne deliver bind get onMessage tryCatch modify ret].
  destruct (queue w) as [|msg rest]; [reflexivity|].
  destruct (processAutoMessage infra msg (set_queue rest w))
    as [[[]|e] w1]; reflexivity.
Qed.

(** X22. One delivery to the consumer never throws and settles the
    message: it is acknowledged and gone from the queue exactly when the
    handler completed, and then exactly one message was stored for it,
    with the parties and the trimmed content of the payload; otherwise it
    is rejected and back at the head of the queue, with at most one
    message stored.  An empty queue delivers nothing. *)
Theorem consumeOne_settles (infra : Await -> option string) (w : World) :
  match queue w with
  | [] => consumeOne infra w = (Return None, w)
  | msg :: rest =>
      exists s w',
        consumeOne infra w = (Return (Some s), w')
        /\ users w' = users w /\ clock w' = clock w
        /\ match s with
           | Ack =>
               queue w' = rest
               /\ fst (processAutoMessage infra msg (set_queue rest w))
                  = Return tt
               /\ exists m,
                    messages w' = messages w ++ [m] /\ materialized msg m
           | NackRequeue =>
               queue w' = msg :: rest
               /\ (exists e,
                     fst (processAutoMessage infra msg (set_queue rest w))
                     = Throw e)
               /\ (messages w' = messages w
                   \/ exists m,
                        messages w' = messages w ++ [m]
                        /\ materialized msg m)
           end
  end.
Proof.
  rewrite consumeOne_run.
  destruct (queue w) as [|msg rest] eqn:Hqueue; [reflexivity|].
  set (w0 := set_queue rest w).
  pose proof (keeps_processAutoMessage users
    (fun _ _ => eq_refl) (fun _ _ => eq_refl) (fun _ _ => eq_refl)
    (fun _ _ => eq_refl) (fun _ _ => eq_refl) infra msg w0) as Husers.
  pose proof (keeps_processAutoMessage clock
    (fun _ _ => eq_refl) (fun _ _ => eq_refl) (fun _ _ => eq_refl)
    (fun _ _ => eq_refl) (fun _ _ => eq_refl) infra msg w0) as Hclock.
  pose proof (keeps_processAutoMessage queue
    (fun _ _ => eq_refl) (fun _ _ => eq_refl) (fun _ _ => eq_refl)
    (fun _ _ => eq_refl) (fun _ _ => eq_refl) infra msg w0) as Hq.
  pose proof (processAutoMessage_messages infra msg w0) as Hmsgs.
  change (messages w0) with (messages w) in Hmsgs.
  destruct Hmsgs as (c & w' & Hrun & Hcase).
  rewrite Hrun in Husers, Hclock, Hq |- *. cbn [snd fst] in *.
  destruct Hcase as [[-> Hm]|[[e ->] Hm]].
  - exists Ack, w'. split; [reflexivity|].
    split; [exact Husers|]. split; [exact Hclock|].
    split; [exact Hq|]. split; [reflexivity|exact Hm].
  - eexists NackRequeue, _. split; [reflexivity|].
    cbn [users clock queue messages set_queue].
    split; [exact Husers|]. split; [exact Hclock|].
    split; [rewrite Hq; reflexivity|].
    split; [eexists; reflexivity|exact Hm].
Qed.

(** X28. A delivery in which the handler throws, for a record that is
    below the bound of three retries, when the two calls of the [catch]
    block are answered: the handler adds exactly one to [retryCount],
    records the message of the error when it is not empty, leaves the other
    fields (among them [isQueued] and [isSent]) as they were, and the
    payload is rejected with requeue: it is back in the queue. *)
Theorem failed_delivery_retries (infra : Await -> option string)
    (p : Payload) (rest : list Payload) (w : World) (d : AutoMessage.t)
    (e : string) :
  queue w = p :: rest ->
  AutoMessage.findById (autoMessageId p) (automessages w) = Some d ->
  AutoMessage.retryCount d < 3 ->
  infra AwCatchFindById = None -> infra AwCatchIncrementRetry = None ->
  fst (processAutoMessage infra p (set_queue rest w)) = Throw e ->
  exists w' d',
    consumeOne infra w = (Return (Some NackRequeue), w')
    /\ queue w' = p :: rest
    /\ AutoMessage.findById (autoMessageId p) (automessages w') = Some d'
    /\ AutoMessage.retryCount d' = AutoMessage.retryCount d + 1
    /\ AutoMessage.retryCount d' <= 3
    /\ AutoMessage.error d'
       = (if truthy (Some e) then Some e else AutoMessage.error d)
    /\ sameMessage d d' /\ sameQueued d d' /\ sameSent d d'.
Proof.
  intros Hq Hd Hbelow Hfind Hincr Hthrow.
  set (w0 := set_queue rest w) in *.
  pose proof (keeps_processAutoMessage queue
                (fun _ _ => eq_refl) (fun _ _ => eq_refl)
                (fun _ _ => eq_refl) (fun _ _ => eq_refl)
                (fun _ _ => eq_refl) infra p w0) as Hqueue.
  unfold processAutoMessage, tryCatch in Hthrow, Hqueue.
  destruct (processAutoMessage_try infra p w0) as [[[]|e0] w1] eqn:Htry;
    [discriminate|].
  assert (Hams : automessages w1 = automessages w).
  { apply (keepsOnThrow_try automessages
             (fun _ _ => eq_refl) (fun _ _ => eq_refl)
             (fun _ _ => eq_refl) (fun _ _ => eq_refl) infra p w0 e0 w1 Htry). }
  destruct (processAutoMessage_catch_run infra p e0 d w1 Hfind Hincr)
    as (coll & Hcatch & Hfind'); [rewrite Hams; exact Hd|].
  rewrite Hcatch in Hthrow, Hqueue. cbn in Hthrow, Hqueue.
  injection Hthrow as ->.
  exists (set_queue (p :: rest) (set_automessages coll w1)).
  exists (saved (clock w1) d (AutoMessage.incrementRetry (Some e) d)).
  split.
  - unfold consumeOne, deliver. unfold bind at 1. cbn [get]. rewrite Hq.
    unfold bind at 1. cbn [modify]. fold w0.
    unfold bind at 1. unfold onMessage, tryCatch. unfold bind at 1.
    unfold processAutoMessage, tryCatch. rewrite Htry, Hcatch.
    cbn [ret]. unfold bind. cbn. rewrite Hqueue. reflexivity.
  - split; [reflexivity|]. split; [exact Hfind'|].
    destruct (saved_fields (clock w1) d
                (AutoMessage.incrementRetry (Some e) d) eq_refl eq_refl)
      as ((?&?&?&?&?&?) & (?&?) & (?&?&?) & (Hr & He)).
    cbn -[saved truthy] in *.
    split; [exact Hr|]. split; [rewrite Hr; lia|]. split; [exact He|].
    unfold sameMessage, sameQueued, sameSent. repeat split; assumption.
Qed.

Lemma failed_delivery_retries_witness :
  exists w' d',
    consumeOne brokenStore retryWorld = (Return (Some NackRequeue), w')
    /\ queue w' = [duePayload]
    /\ AutoMessage.findById 10 (automessages w') = Some d'
    /\ AutoMessage.retryCount d' = 1
    /\ AutoMessage.error d' = Some "connection lost"%string.
Proof.
  assert (Hbelow : AutoMessage.retryCount queuedRecord < 3)
    by (vm_compute; reflexivity).
  destruct (failed_delivery_retries brokenStore duePayload [] retryWorld
              queuedRecord "connection lost" eq_refl eq_refl Hbelow
              eq_refl eq_refl eq_refl)
    as (w' & d' & Hrun & Hq & Hfind & Hr & _ & He & _).
  exists w', d'. repeat (split; [assumption|]). exact He.
Defined.

Lemma Message_new_invalid id s r cv c ty :
  ~ validContent c ->
  exists e, Message.validate (Message.new id s r cv c ty) = Some e.
Proof.
  intros Hinvalid.
  destruct (Message.validate (Message.new id s r cv c ty)) as [e|] eqn:Hv;
    [exists e; reflexivity|].
  exfalso. apply Hinvalid. eapply Message_new_valid_inv, Hv.
Qed.

(** X23. Content that is blank after trimming, or longer than 1000 code
    units, is never stored as a message.  The consumer's handler throws
    for such a payload, whatever else happens, and leaves the messages as
    they were; [POST /send], for a request that reaches the handler, does
    not answer 201, stores no message and emits nothing. *)
Theorem invalid_content_never_stored (text : JSString) :
  ~ validContent text ->
  (forall (infra : Await -> option string) (p : Payload) (w : World),
     content p = text ->
     exists e w',
       processAutoMessage infra p w = (Throw e, w')
       /\ messages w' = messages w)
  /\ (forall (castObjectId : string -> option ObjectId)
        (toString : ObjectId -> string)
        (infra : SendAwait -> option string) (user : User.t)
        (receiverId : string) (w : World),
        exists r w',
          postSend castObjectId toString infra user receiverId text w
          = (Return r, w')
          /\ Response.status r <> 201
          /\ messages w' = messages w
          /\ emitted w' = emitted w).
Proof.
  intros Hinvalid. split.
  - intros infra p w Hp.
    assert (Hno : forall m, ~ materialized p m).
    { intros m (_ & _ & Hc & Hlen & _). apply Hinvalid.
      unfold validContent. rewrite <- Hp, <- Hc. exact Hlen. }
    destruct (processAutoMessage_messages infra p w)
      as (c & w' & Hrun & [[_ (m & _ & Hm)]|[[e ->] [Hsame|(m & _ & Hm)]]]).
    + destruct (Hno m Hm).
    + exists e, w'. split; [exact Hrun|exact Hsame].
    + destruct (Hno m Hm).
  - intros castObjectId toString infra user raw w.
    unfold postSend, tryCatch.
    destruct (castObjectId raw) as [receiverId|].
    2:{ eexists. eexists. split; [reflexivity|]. cbn.
        split; [discriminate|split; reflexivity]. }
    unfold bind at 1.
    destruct (infra SdReceiver) as [e|]; cbn [await throw ret].
    { eexists. eexists. split; [reflexivity|]. cbn.
      split; [discriminate|split; reflexivity]. }
    unfold bind at 1. cbn [get].
    destruct (findActiveUser receiverId (users w)) as [receiver|].
    2:{ eexists. eexists. split; [reflexivity|]. cbn.
        split; [discriminate|split; reflexivity]. }
    destruct (String.eqb (toString (User._id user)) raw).
    { eexists. eexists. split; [reflexivity|]. cbn.
      split; [discriminate|split; reflexivity]. }
    unfold bind at 1.
    pose proof (keeps_findOrCreateConversation messages
      (fun _ _ => eq_refl) (fun _ _ => eq_refl)
      (infra SdFindOne) (infra SdCreate) (infra SdFindCreated)
      (User._id user) receiverId w) as Hmsgs.
    pose proof (keeps_findOrCreateConversation emitted
      (fun _ _ => eq_refl) (fun _ _ => eq_refl)
      (infra SdFindOne) (infra SdCreate) (infra SdFindCreated)
      (User._id user) receiverId w) as Hemit.
    destruct (findOrCreateConversation _ _ _ _ _ w) as [[[conv|]|e] w1];
      cbn [snd] in Hmsgs, Hemit.
    + unfold bind at 1. cbn [new_ObjectId]. unfold bind at 1.
      unfold saveMessage.
      destruct (Message_new_invalid (nextId w1) (User._id user) receiverId
                  (Conversation._id conv) text Message.text Hinvalid)
        as [e ->].
      eexists. eexists. split; [reflexivity|]. cbn.
      split; [discriminate|split; assumption].
    + eexists. eexists. split; [reflexivity|]. cbn.
      split; [discriminate|split; assumption].
    + eexists. eexists. split; [reflexivity|]. cbn.
      split; [discriminate|split; assumption].
Qed.

Lemma invalid_content_never_stored_witness :
  (exists e w',
     processAutoMessage noFailure
       (mkPayload 10 1 2 (js "   ") "ann" "bob") retryWorld = (Throw e, w')
     /\ messages w' = [])
  /\ exists r w',
       postSend castHex hexString noFailure cyd annLower (js "   ")
         chatWorld = (Return r, w')
       /\ Response.status r <> 201
       /\ messages w' = [hello; answer].
Proof.
  assert (Hblank : ~ validContent (js "   ")).
  { unfold validContent. vm_compute. lia. }
  destruct (invalid_content_never_stored (js "   ") Hblank)
    as [Hconsumer Hsend].
  split.
  - destruct (Hconsumer noFailure (mkPayload 10 1 2 (js "   ") "ann" "bob")
                retryWorld eq_refl) as (e & w' & Hrun & Hsame).
    exists e, w'. split; [exact Hrun|exact Hsame].
  - destruct (Hsend castHex hexString noFailure cyd annLower chatWorld)
      as (r & w' & Hrun & Hstatus & Hsame & _).
    exists r, w'. split; [exact Hrun|]. split; [exact Hstatus|exact Hsame].
Defined.

(** ** The list routes: pages *)

Lemma Math_ceil_div_bounds total limit :
  0 < limit ->
  total <= Math_ceil_div total limit * limit < total + limit.
Proof.
  intros Hlimit. unfold Math_ceil_div.
  pose proof (Z.div_mod (- total) limit ltac:(lia)) as Hdm.
  pose proof (Z.mod_pos_bound (- total) limit Hlimit) as Hmod.
  nia.
Qed.

Lemma skipLimit_nonempty {A} (skip limit : Z) (l : list A) :
  0 <= skip -> 0 < limit ->
  (skipLimit skip limit l <> [] <-> skip < Z.of_nat (length l)).
Proof.
  intros Hskip Hlimit. unfold skipLimit.
  rewrite <- length_zero_iff_nil, length_take, length_drop. lia.
Qed.

(** X24. The pagination object agrees with the pages: for a page number
    and a limit of at least one, [totalPages] is the least number of
    pages that hold all items, a page holds an item exactly when its
    number is at most [totalPages], [hasNextPage] says exactly that the
    next page holds an item and [hasPrevPage] that the page is not the
    first, and the pages up to [totalPages], one after the other, are the
    whole result. *)
Theorem pagination_agrees {A} (l : list A) (page limit : Z) :
  1 <= page -> 1 <= limit ->
  let p := paginationOf page limit (Z.of_nat (length l)) in
  0 <= totalPages p
  /\ Z.of_nat (length l) <= totalPages p * limit
     < Z.of_nat (length l) + limit
  /\ (pageOf page limit l <> [] <-> page <= totalPages p)
  /\ (hasNextPage p = true <-> pageOf (page + 1) limit l <> [])
  /\ (hasPrevPage p = true <-> 1 < page)
  /\ (length (pageOf page limit l) <= Z.to_nat limit)%nat
  /\ (hasNextPage p = true -> length (pageOf page limit l) = Z.to_nat limit)
  /\ pageOf page limit l ++ drop (Z.to_nat (page * limit)) l
     = drop (Z.to_nat (skipOf page limit)) l.
Proof.
  intros Hpage Hlimit p. subst p. unfold paginationOf. cbv zeta.
  cbn [totalPages hasNextPage hasPrevPage].
  pose proof (Math_ceil_div_bounds (Z.of_nat (length l)) limit ltac:(lia))
    as Hceil.
  set (tp := Math_ceil_div (Z.of_nat (length l)) limit) in *.
  unfold pageOf, skipOf.
  assert (Hwithin : forall k, k * limit < Z.of_nat (length l) <-> k < tp).
  { intros k. split; intros Hk.
    - destruct (Z.lt_ge_cases k tp) as [|Hge]; [assumption|].
      assert (tp * limit <= k * limit) by (apply Z.mul_le_mono_nonneg_r; lia).
      lia.
    - assert ((k + 1) * limit <= tp * limit)
        by (apply Z.mul_le_mono_nonneg_r; lia).
      lia. }
  assert (Hskip : 0 <= (page - 1) * limit) by (apply Z.mul_nonneg_nonneg; lia).
  assert (Hskip' : 0 <= (page + 1 - 1) * limit)
    by (apply Z.mul_nonneg_nonneg; lia).
  split.
  { destruct (Z.lt_ge_cases tp 0) as [Hneg|]; [|assumption].
    assert (tp * limit <= (-1) * limit)
      by (apply Z.mul_le_mono_nonneg_r; lia).
    lia. }
  split; [exact Hceil|].
  split; [rewrite skipLimit_nonempty, Hwithin by lia; lia|].
  split.
  { rewrite skipLimit_nonempty by lia. rewrite Z.ltb_lt, Hwithin. lia. }
  split; [rewrite Z.ltb_lt; reflexivity|].
  split; [unfold skipLimit; rewrite length_take; lia|].
  split.
  { rewrite Z.ltb_lt. intros Hnext. apply Hwithin in Hnext.
    unfold skipLimit. rewrite length_take, length_drop. lia. }
  unfold skipLimit.
  replace (Z.to_nat (page * limit))
    with (Z.to_nat ((page - 1) * limit) + Z.to_nat limit)%nat by lia.
  rewrite <- drop_drop. apply take_drop.
Qed.

Lemma pagination_agrees_witness :
  hasNextPage (paginationOf 2 2 5) = true
  /\ pageOf 3 2 [ann; bob; cyd; dan; ann] <> []
  /\ length (pageOf 2 2 [ann; bob; cyd; dan; ann]) = 2%nat.
Proof.
  destruct (pagination_agrees [ann; bob; cyd; dan; ann] 2 2
              ltac:(lia) ltac:(lia))
    as (_ & _ & _ & Hnext & _ & _ & Hfull & _).
  split; [reflexivity|].
  split; [apply Hnext; reflexivity|apply Hfull; reflexivity].
Defined.

(** ** socket/socketHandler.js: the preview of a notification *)

(** X25. The preview of a [send_message] notification is the content
    itself when that has at most 50 code units; otherwise it is the first
    50 code units followed by three dots, 53 code units in all. *)
Theorem preview_bounded (content : JSString) :
  (length (preview content) <= 53)%nat
  /\ take 50 (preview content) = take 50 content
  /\ ((length content <= 50)%nat -> preview content = content)
  /\ ((50 < length content)%nat ->
      preview content = take 50 content ++ js "..."
      /\ length (preview content) = 53%nat).
Proof.
  unfold preview.
  destruct (Nat.ltb_spec 50 (length content)) as [Hlong|Hshort].
  - assert (Hlen : length (take 50 content ++ js "...") = 53%nat).
    { rewrite length_app, length_take.
      change (length (js "...")) with 3%nat. lia. }
    split; [rewrite Hlen; lia|].
    split; [rewrite take_app_le by (rewrite length_take; lia);
            rewrite take_take; f_equal; lia|].
    split; [lia|]. intros _. split; [reflexivity|exact Hlen].
  - rewrite app_nil_r. rewrite !take_ge by (rewrite ?take_ge; lia).
    split; [lia|]. split; [reflexivity|]. split; [reflexivity|lia].
Qed.

(** ** From the scan to the delivery *)

(** X26. A due record goes through the pipeline once: with the database
    and the broker answering, one scan puts its payload on the queue and
    one delivery stores one [auto] message with the record's parties and
    trimmed content, acknowledges the payload and leaves the queue empty;
    the record is then queued and sent, points at the stored message, and
    is never due again. *)
Theorem due_record_is_delivered (d : AutoMessage.t) (w : World) :
  NoDup (map AutoMessage._id (automessages w)) ->
  wfConversations w ->
  candidates w = [d] ->
  partiesKnown (users w) d ->
  validContent (AutoMessage.content d) ->
  queue w = [] ->
  exists w1 w2 m d',
    queueReadyMessages noFailure w = (Return tt, w1)
    /\ consumeOne noFailure w1 = (Return (Some Ack), w2)
    /\ queue w2 = []
    /\ messages w2 = messages w ++ [m]
    /\ Message.sender m = AutoMessage.sender d
    /\ Message.receiver m = AutoMessage.receiver d
    /\ Message.content m = trim (AutoMessage.content d)
    /\ Message.messageType m = Message.auto
    /\ AutoMessage.findById (AutoMessage._id d) (automessages w2) = Some d'
    /\ sameMessage d d'
    /\ AutoMessage.isQueued d' = true
    /\ AutoMessage.isSent d' = true
    /\ AutoMessage.messageId d' = Some (Message._id m)
    /\ forall now, AutoMessage.readyForQueuing now d' = false.
Proof.
  intros Hnd Hwf Hcand Hknown Hvalid Hempty.
  assert (Hknown' : Forall (partiesKnown (users w)) (candidates w)).
  { rewrite Hcand. constructor; [exact Hknown|constructor]. }
  destruct (queueReadyMessages_run w Hnd Hknown')
    as (w1 & Hrun & Hqids & _ & Hdone & Hclock).
  destruct (queueReadyMessages_scanned noFailure w)
    as (w1' & Hrun' & Hsame & _ & added & Hq & Hcar & _).
  rewrite Hrun in Hrun'. injection Hrun' as <-.
  rewrite Hempty, Hcand in *. cbn [app map] in Hq, Hqids.
  rewrite Hq in Hqids.
  destruct added as [|p [|p' added]]; try discriminate.
  injection Hqids as Hpid.
  apply Forall_cons in Hcar as [(d0 & Hd0 & Hcarries) _].
  apply list_elem_of_singleton in Hd0. subst d0.
  destruct Hcarries as (_ & Hps & Hpr & Hpc).
  destruct Hsame as (_ & Hconv & Hmsgs & _ & _ & Hnext & _).
  set (w0 := set_queue [] w1).
  assert (Hwf0 : wfConversations w0).
  { unfold wfConversations. cbn [conversations nextId set_queue w0].
    rewrite Hconv, Hnext. exact Hwf. }
  assert (Hvalid0 : validContent (content p)) by (rewrite Hpc; exact Hvalid).
  destruct (processAutoMessage_try_ok p w0 Hvalid0 Hwf0)
    as (c & mid & w2 & Htry & _ & Hmsgs2 & _ & _ & _ & Hsent).
  destruct (processAutoMessage_ok p w0 w2 Htry) as [Hproc _].
  pose proof (keeps_processAutoMessage queue
    (fun _ _ => eq_refl) (fun _ _ => eq_refl) (fun _ _ => eq_refl)
    (fun _ _ => eq_refl) (fun _ _ => eq_refl) noFailure p w0) as Hq2.
  rewrite Hproc in Hq2. cbn [snd queue set_queue w0] in Hq2.
  set (now := clock w) in *.
  set (dq := saved now d (AutoMessage.markAsQueued now d)) in *.
  assert (Hfind1 : AutoMessage.findById (autoMessageId p) (automessages w0)
                   = Some dq).
  { rewrite Hpid. apply Hdone. apply list_elem_of_singleton. reflexivity. }
  specialize (Hsent dq Hfind1). rewrite Hpid in Hsent.
  change (clock w0) with (clock w1) in Hsent, Hmsgs2. rewrite Hclock in *.
  destruct (transitions_write now now mid d)
    as ((Hqd & _ & Hsame_d & _) & _).
  destruct (transitions_write now now mid dq)
    as (_ & (Hs & _ & Hmid & Hsame_q & (Hqq & _) & _) & _ & Hnever).
  eexists w1, w2, _, _.
  split; [exact Hrun|]. split.
  { rewrite consumeOne_run, Hq. fold w0. rewrite Hproc. reflexivity. }
  split; [exact Hq2|].
  split; [rewrite Hmsgs2; cbn [messages set_queue w0]; rewrite Hmsgs;
          reflexivity|].
  split; [exact Hps|]. split; [exact Hpr|].
  split; [cbn; rewrite Hpc; reflexivity|]. split; [reflexivity|].
  split; [exact Hsent|].
  split.
  { destruct Hsame_d as (?&?&?&?&?&?), Hsame_q as (?&?&?&?&?&?).
    subst dq. repeat split; congruence. }
  split; [rewrite Hqq; exact Hqd|].
  split; [exact Hs|]. split; [exact Hmid|].
  intros now'.
  destruct (transitions_write now now' mid dq) as (_ & _ & _ & H).
  exact H.
Qed.

Lemma due_record_is_delivered_witness :
  exists w1 w2 m,
    queueReadyMessages noFailure scanWorld = (Return tt, w1)
    /\ consumeOne noFailure w1 = (Return (Some Ack), w2)
    /\ queue w2 = []
    /\ messages w2 = [m]
    /\ Message.content m = js "Just checking in on you!".
Proof.
  destruct (due_record_is_delivered dueRecord scanWorld)
    as (w1 & w2 & m & d' & Hscan & Hconsume & Hqueue & Hmsgs & _ & _
        & Hcontent & _).
  - apply (bool_decide_unpack _). vm_compute. exact I.
  - split; [constructor|constructor].
  - reflexivity.
  - split; eexists; reflexivity.
  - unfold validContent. vm_compute. lia.
  - reflexivity.
  - exists w1, w2, m. split; [exact Hscan|]. split; [exact Hconsume|].
    split; [exact Hqueue|]. split; [exact Hmsgs|]. exact Hcontent.
Defined.

(** ** The [trim] setter of the two [content] paths *)

Lemma trimStart_split s :
  exists l,
    s = l ++ trimStart s
    /\ Forall (fun c => isWhiteSpace c = true) l
    /\ (forall c rest, trimStart s = c :: rest -> isWhiteSpace c = false).
Proof.
  induction s as [|c s (l & Hs & Hl & Hhead)].
  - exists []. split; [reflexivity|]. split; [constructor|]. discriminate.
  - cbn [trimStart]. destruct (isWhiteSpace c) eqn:Hc.
    + exists (c :: l). split; [cbn; rewrite <- Hs; reflexivity|].
      split; [constructor; assumption|exact Hhead].
    + exists []. split; [reflexivity|]. split; [constructor|].
      intros c' rest [= <- _]. exact Hc.
Qed.

Lemma trimStart_fixed s :
  (forall c rest, s = c :: rest -> isWhiteSpace c = false) ->
  trimStart s = s.
Proof.
  destruct s as [|c s]; [reflexivity|]. intros H. cbn.
  rewrite (H c s eq_refl). reflexivity.
Qed.

(** X27. The content a new Message or a new AutoMessage holds is the
    given content without the white space at its two ends, and nothing
    else is removed: it neither begins nor ends with white space, so
    trimming it again changes nothing. *)
Theorem stored_content_trimmed (given : JSString) (id : ObjectId)
    (now sendDate : Date) (s r cv : ObjectId) (ty : Message.MessageType) :
  let stored := Message.content (Message.new id s r cv given ty) in
  AutoMessage.content (AutoMessage.fresh id now s r given sendDate) = stored
  /\ (exists before after,
        given = before ++ stored ++ after
        /\ Forall (fun c => isWhiteSpace c = true) before
        /\ Forall (fun c => isWhiteSpace c = true) after)
  /\ trimmed stored
  /\ trim stored = stored.
Proof.
  cbn [Message.content Message.new AutoMessage.content AutoMessage.fresh].
  cbv zeta. split; [reflexivity|].
  unfold trim.
  destruct (trimStart_split given) as (before & Hgiven & Hbefore & Hhead).
  set (a := trimStart given) in *.
  destruct (trimStart_split (rev a)) as (after & Ha & Hafter & Hlast).
  set (x := trimStart (rev a)) in *.
  assert (Ha' : a = rev x ++ rev after).
  { rewrite <- rev_app_distr, <- Ha, rev_involutive. reflexivity. }
  assert (Htrimmed : trimmed (rev x)).
  { split.
    - intros c rest Hx. apply (Hhead c (rest ++ rev after)).
      rewrite Ha', Hx. reflexivity.
    - intros c init Hx. apply (Hlast c (rev init)).
      rewrite <- (rev_involutive x), Hx, rev_app_distr. reflexivity. }
  split.
  { exists before, (rev after). split; [rewrite Hgiven, Ha'; reflexivity|].
    split; [exact Hbefore|]. apply Forall_rev, Hafter. }
  split; [exact Htrimmed|].
  rewrite (trimStart_fixed (rev x)) by apply Htrimmed.
  rewrite rev_involutive, (trimStart_fixed x) by exact Hlast.
  reflexivity.
Qed.
